(** * Response extraction, normalisation and rendering of [server.js]

    A shallow embedding of the three helper functions of [src/server.js]
    that carry the decision logic of the resume pipeline:

    - [parseAIResponse]   (the "extract" stage),
    - [decodeHTMLContent] (the "normalize" stage),
    - [convertHTMLtoPDF]  (the "render" stage).

    JavaScript strings are sequences of UTF-16 code units; they are
    modelled as lists of [N].  The regular-expression literals of the
    source are kept as syntax trees and run by a small backtracking
    matcher that follows the ECMAScript matching discipline (leftmost
    start, alternatives left to right, greedy and lazy stars).  The
    browser engine driven by [convertHTMLtoPDF] is modelled by the
    outcomes of its five calls and by the trace of calls made. *)

From Stdlib Require Import String Ascii.
From Stdlib Require Import List NArith ZArith Bool Lia.
Import ListNotations.

Local Open Scope N_scope.

(** ** JavaScript strings *)

Definition code_unit := N.
Definition jsstring := list code_unit.

(** An ASCII literal of the source, as code units. *)
Definition lit (s : string) : jsstring :=
  map N_of_ascii (list_ascii_of_string s).

Definition dquote : code_unit := 34.
Definition backslash : code_unit := 92.
Definition squote : code_unit := 39.
Definition newline : code_unit := 10.
Definition tab : code_unit := 9.
Definition creturn : code_unit := 13.

(** ECMAScript [WhiteSpace] and [LineTerminator] code points: the class
    [\s] of regular expressions and the characters removed by
    [String.prototype.trim]. *)
Definition is_space (c : code_unit) : bool :=
  ((9 <=? c) && (c <=? 13))
  || (c =? 32) || (c =? 160) || (c =? 5760)
  || ((8192 <=? c) && (c <=? 8202))
  || (c =? 8232) || (c =? 8233) || (c =? 8239) || (c =? 8287)
  || (c =? 12288) || (c =? 65279).

Fixpoint drop_while (p : code_unit -> bool) (s : jsstring) : jsstring :=
  match s with
  | c :: r => if p c then drop_while p r else s
  | [] => []
  end.

(** [String.prototype.trim]. *)
Definition trim (s : jsstring) : jsstring :=
  rev (drop_while is_space (rev (drop_while is_space s))).

(** [String.prototype.startsWith] and [endsWith] (no position argument). *)
Fixpoint startsWith (s p : jsstring) {struct p} : bool :=
  match p, s with
  | [], _ => true
  | x :: p', c :: s' => (c =? x) && startsWith s' p'
  | _ :: _, [] => false
  end.

Definition endsWith (s p : jsstring) : bool :=
  startsWith (rev s) (rev p).

(** [String.prototype.slice(b, e)]: negative indices count from the end,
    both are clamped to the string, an empty range gives the empty string. *)
Definition slice (s : jsstring) (b e : Z) : jsstring :=
  let len := Z.of_nat (length s) in
  let from := if (b <? 0)%Z then Z.max (len + b) 0 else Z.min b len in
  let to := if (e <? 0)%Z then Z.max (len + e) 0 else Z.min e len in
  firstn (Z.to_nat (to - from)) (skipn (Z.to_nat from) s).

(** ** Regular expressions

    The fragment of ECMAScript regular expressions used by the source:
    single code units (literal, class, or literal under the [i] flag),
    sequence, alternation, greedy and lazy stars over a class, and one
    capture group. *)

Inductive re : Type :=
| Eps
| Chr (p : code_unit -> bool)
| Seq (a b : re)
| Alt (a b : re)
| StarG (p : code_unit -> bool)
| StarL (p : code_unit -> bool)
| Grp1 (a : re).

(** A match state: the input still to be read and the text of group 1. *)
Definition mstate : Type := jsstring * option jsstring.
Definition cont : Type := jsstring -> option jsstring -> option mstate.

Fixpoint star_greedy (p : code_unit -> bool) (k : jsstring -> option mstate)
    (s : jsstring) : option mstate :=
  match s with
  | c :: r =>
      if p c then
        match star_greedy p k r with
        | Some m => Some m
        | None => k s
        end
      else k s
  | [] => k s
  end.

Fixpoint star_lazy (p : code_unit -> bool) (k : jsstring -> option mstate)
    (s : jsstring) : option mstate :=
  match k s with
  | Some m => Some m
  | None =>
      match s with
      | c :: r => if p c then star_lazy p k r else None
      | [] => None
      end
  end.

(** Backtracking matcher in continuation-passing style: [rmatch r s g k]
    matches [r] at the front of [s] and hands what is left to [k]; a
    failure of [k] makes the matcher try its next choice. *)
Fixpoint rmatch (r : re) (s : jsstring) (g : option jsstring) (k : cont)
    : option mstate :=
  match r with
  | Eps => k s g
  | Chr p =>
      match s with
      | c :: s' => if p c then k s' g else None
      | [] => None
      end
  | Seq a b => rmatch a s g (fun s' g' => rmatch b s' g' k)
  | Alt a b =>
      match rmatch a s g k with
      | Some m => Some m
      | None => rmatch b s g k
      end
  | StarG p => star_greedy p (fun s' => k s' g) s
  | StarL p => star_lazy p (fun s' => k s' g) s
  | Grp1 a =>
      rmatch a s g
        (fun s' _ => k s' (Some (firstn (length s - length s') s)))
  end.

(** A match anchored at the front of [s]: the rest of the input and group 1. *)
Definition match_here (r : re) (s : jsstring) : option mstate :=
  rmatch r s None (fun s' g => Some (s', g)).

(** Matching a literal code unit, with and without the [i] flag.  Under
    [i] two code units match when their canonical (upper-case) forms
    agree; the canonical form of a code unit above 127 is never below
    128, so an ASCII letter of a pattern matches its two cases only. *)
Definition is_char (x c : code_unit) : bool := c =? x.

Definition ascii_upper (c : code_unit) : code_unit :=
  if (97 <=? c) && (c <=? 122) then c - 32 else c.

Definition is_char_i (x c : code_unit) : bool :=
  (c <? 128) && (ascii_upper c =? ascii_upper x).

Fixpoint Lit (l : jsstring) : re :=
  match l with
  | [] => Eps
  | x :: l' => Seq (Chr (is_char x)) (Lit l')
  end.

Fixpoint LitI (l : jsstring) : re :=
  match l with
  | [] => Eps
  | x :: l' => Seq (Chr (is_char_i x)) (LitI l')
  end.

Definition any_unit (_ : code_unit) : bool := true.

(** [RegExp.prototype.exec] without the [g] flag: the leftmost position
    at which the expression matches.  Returns the matched text (index 0
    of the result array) and group 1. *)
Fixpoint search (r : re) (s : jsstring) : option (jsstring * option jsstring) :=
  match match_here r s with
  | Some (rest, g) => Some (firstn (length s - length rest) s, g)
  | None =>
      match s with
      | _ :: s' => search r s'
      | [] => None
      end
  end.

(** The leftmost position at which [r] matches and the input left after
    that match; used to state where the expressions of the source match. *)
Fixpoint leftmost (r : re) (s : jsstring) : option (nat * jsstring) :=
  match match_here r s with
  | Some (rest, _) => Some (O, rest)
  | None =>
      match s with
      | _ :: s' =>
          match leftmost r s' with
          | Some (i, rest) => Some (S i, rest)
          | None => None
          end
      | [] => None
      end
  end.

(** Substring test. *)
Fixpoint occurs (p s : jsstring) : bool :=
  startsWith s p ||
  match s with
  | _ :: s' => occurs p s'
  | [] => false
  end.

(** [String.prototype.replace] with a [g]-flagged expression and a
    replacement string free of [$]: every leftmost non-overlapping match
    is replaced; after an empty match the scan moves on by one code unit.
    [skip] counts the code units of the current match still to be dropped. *)
Fixpoint replace_from (r : re) (repl : jsstring) (skip : nat) (s : jsstring)
    {struct s} : jsstring :=
  match skip with
  | S n =>
      match s with
      | _ :: s' => replace_from r repl n s'
      | [] => []
      end
  | O =>
      match match_here r s with
      | Some (rest, _) =>
          match s with
          | c :: s' =>
              match (length s - length rest)%nat with
              | O => repl ++ c :: replace_from r repl O s'
              | S n => repl ++ replace_from r repl n s'
              end
          | [] => repl
          end
      | None =>
          match s with
          | c :: s' => c :: replace_from r repl O s'
          | [] => []
          end
      end
  end.

Definition replace_all (r : re) (repl s : jsstring) : jsstring :=
  replace_from r repl O s.

(** ** JSON values and [JSON.parse] *)

(** The decimal value [(-1)^neg * mantissa * 10^exponent] denoted by a
    JSON number literal; the JavaScript Number is the double nearest to it. *)
Record number : Type := mkNumber {
  neg : bool;
  mantissa : N;
  exponent : Z
}.

#[warnings="-register-all"]
Inductive json : Type :=
| JNull
| JBool (b : bool)
| JNum (n : number)
| JStr (s : jsstring)
| JArr (l : list json)
| JObj (l : list (jsstring * json)).

(** Outcome of a parsing step; [PFuel] only flags an exhausted recursion
    budget and is shown below never to arise from [JSON_parse]. *)
Inductive presult (A : Type) : Type :=
| POk (a : A)
| PErr
| PFuel.
Arguments POk {A} a.
Arguments PErr {A}.
Arguments PFuel {A}.

(** JSON insignificant whitespace: tab, line feed, carriage return, space. *)
Definition is_json_ws (c : code_unit) : bool :=
  (c =? 9) || (c =? 10) || (c =? 13) || (c =? 32).

Fixpoint skip_ws (s : jsstring) : jsstring :=
  match s with
  | c :: r => if is_json_ws c then skip_ws r else s
  | [] => []
  end.

Definition is_digit (c : code_unit) : bool := (48 <=? c) && (c <=? 57).

Definition hex_digit (c : code_unit) : option N :=
  if (48 <=? c) && (c <=? 57) then Some (c - 48)
  else if (65 <=? c) && (c <=? 70) then Some (c - 55)
  else if (97 <=? c) && (c <=? 102) then Some (c - 87)
  else None.

Definition hex4 (a b c d : code_unit) : option code_unit :=
  match hex_digit a, hex_digit b, hex_digit c, hex_digit d with
  | Some x, Some y, Some z, Some w => Some (((x * 16 + y) * 16 + z) * 16 + w)
  | _, _, _, _ => None
  end.

(** The single-character escapes of a JSON string. *)
Definition simple_escape (e : code_unit) : option code_unit :=
  if e =? 34 then Some 34          (* quote *)
  else if e =? 92 then Some 92     (* backslash *)
  else if e =? 47 then Some 47     (* solidus *)
  else if e =? 98 then Some 8      (* b: backspace *)
  else if e =? 102 then Some 12    (* f: form feed *)
  else if e =? 110 then Some 10    (* n: line feed *)
  else if e =? 114 then Some 13    (* r: carriage return *)
  else if e =? 116 then Some 9     (* t: tab *)
  else None.

Definition push_unit (c : code_unit) (r : option (jsstring * jsstring))
    : option (jsstring * jsstring) :=
  match r with
  | Some (str, rest) => Some (c :: str, rest)
  | None => None
  end.

(** The characters of a string literal after its opening quote, up to and
    including the closing quote: the decoded string and the rest. *)
Fixpoint parse_chars (s : jsstring) : option (jsstring * jsstring) :=
  match s with
  | [] => None
  | c :: r =>
      if c =? 34 then Some ([], r)
      else if c =? 92 then
        match r with
        | [] => None
        | e :: r1 =>
            if e =? 117 then
              match r1 with
              | a :: b :: c3 :: d :: r2 =>
                  match hex4 a b c3 d with
                  | Some u => push_unit u (parse_chars r2)
                  | None => None
                  end
              | _ => None
              end
            else
              match simple_escape e with
              | Some u => push_unit u (parse_chars r1)
              | None => None
              end
        end
      else if c <? 32 then None
      else push_unit c (parse_chars r)
  end.

(** A maximal run of decimal digits: its value, its length, the rest. *)
Fixpoint digits (acc : N) (n : nat) (s : jsstring) : N * nat * jsstring :=
  match s with
  | c :: r => if is_digit c then digits (acc * 10 + (c - 48)) (S n) r
              else (acc, n, s)
  | [] => (acc, n, s)
  end.

(** Integer part: a single [0], or a non-zero digit followed by digits. *)
Definition parse_int (s : jsstring) : option (N * jsstring) :=
  match s with
  | c :: r =>
      if c =? 48 then Some (0, r)
      else if is_digit c then
        let '(v, _, rest) := digits (c - 48) 1 r in Some (v, rest)
      else None
  | [] => None
  end.

(** Optional fraction: the mantissa extended by the fraction digits and
    the number of those digits. *)
Definition parse_frac (m : N) (s : jsstring) : option (N * nat * jsstring) :=
  match s with
  | c :: r =>
      if c =? 46 then
        match digits m 0 r with
        | (_, O, _) => None
        | (v, n, rest) => Some (v, n, rest)
        end
      else Some (m, O, s)
  | [] => Some (m, O, s)
  end.

Definition parse_exp (s : jsstring) : option (Z * jsstring) :=
  match s with
  | c :: r =>
      if (c =? 101) || (c =? 69) then
        let '(sgn, r1) :=
          match r with
          | x :: r' => if x =? 43 then (1%Z, r')
                       else if x =? 45 then ((-1)%Z, r') else (1%Z, r)
          | [] => (1%Z, r)
          end in
        match digits 0 0 r1 with
        | (_, O, _) => None
        | (v, _, rest) => Some ((sgn * Z.of_N v)%Z, rest)
        end
      else Some (0%Z, s)
  | [] => Some (0%Z, s)
  end.

Definition parse_number (s : jsstring) : option (number * jsstring) :=
  let '(sg, s1) :=
    match s with
    | c :: r => if c =? 45 then (true, r) else (false, s)
    | [] => (false, s)
    end in
  match parse_int s1 with
  | None => None
  | Some (i, s2) =>
      match parse_frac i s2 with
      | None => None
      | Some (m, nf, s3) =>
          match parse_exp s3 with
          | None => None
          | Some (e, s4) => Some (mkNumber sg m (e - Z.of_nat nf), s4)
          end
      end
  end.

(** A keyword ([true], [false], [null]) at the front of the input. *)
Definition keyword (w : jsstring) (v : json) (s : jsstring)
    : presult (json * jsstring) :=
  if startsWith s w then POk (v, skipn (length w) s) else PErr.

(** Recursive-descent parser of the JSON grammar.  [parse_value] reads one
    value; [parse_elements] the elements of an array after its opening
    bracket; [parse_members] the members of an object after its opening
    brace.  Properties are kept in source order, duplicates included. *)
Fixpoint parse_value (fuel : nat) (s : jsstring) {struct fuel}
    : presult (json * jsstring) :=
  match fuel with
  | O => PFuel
  | S f =>
      match s with
      | [] => PErr
      | c :: r =>
          if c =? 123 then
            match skip_ws r with
            | x :: r1 =>
                if x =? 125 then POk (JObj [], r1)
                else parse_members f (x :: r1) []
            | [] => PErr
            end
          else if c =? 91 then
            match skip_ws r with
            | x :: r1 =>
                if x =? 93 then POk (JArr [], r1)
                else parse_elements f (x :: r1) []
            | [] => PErr
            end
          else if c =? 34 then
            match parse_chars r with
            | Some (str, rest) => POk (JStr str, rest)
            | None => PErr
            end
          else if c =? 116 then keyword (lit "true") (JBool true) s
          else if c =? 102 then keyword (lit "false") (JBool false) s
          else if c =? 110 then keyword (lit "null") JNull s
          else
            match parse_number s with
            | Some (n, rest) => POk (JNum n, rest)
            | None => PErr
            end
      end
  end

with parse_elements (fuel : nat) (s : jsstring) (acc : list json)
    {struct fuel} : presult (json * jsstring) :=
  match fuel with
  | O => PFuel
  | S f =>
      match parse_value f s with
      | POk (v, r) =>
          match skip_ws r with
          | x :: r1 =>
              if x =? 44 then parse_elements f (skip_ws r1) (acc ++ [v])
              else if x =? 93 then POk (JArr (acc ++ [v]), r1)
              else PErr
          | [] => PErr
          end
      | PErr => PErr
      | PFuel => PFuel
      end
  end

with parse_members (fuel : nat) (s : jsstring) (acc : list (jsstring * json))
    {struct fuel} : presult (json * jsstring) :=
  match fuel with
  | O => PFuel
  | S f =>
      match s with
      | q :: r =>
          if q =? 34 then
            match parse_chars r with
            | Some (key, r1) =>
                match skip_ws r1 with
                | x :: r2 =>
                    if x =? 58 then
                      match parse_value f (skip_ws r2) with
                      | POk (v, r3) =>
                          match skip_ws r3 with
                          | y :: r4 =>
                              if y =? 44 then
                                parse_members f (skip_ws r4) (acc ++ [(key, v)])
                              else if y =? 125 then
                                POk (JObj (acc ++ [(key, v)]), r4)
                              else PErr
                          | [] => PErr
                          end
                      | PErr => PErr
                      | PFuel => PFuel
                      end
                    else PErr
                | [] => PErr
                end
            | None => PErr
            end
          else PErr
      | [] => PErr
      end
  end.

(** [JSON.parse text]: one value surrounded by optional whitespace and
    nothing else; [None] stands for the [SyntaxError] it throws. *)
Definition JSON_parse_fuel (s : jsstring) : nat := (2 * length s + 1)%nat.

Definition JSON_parse_run (s : jsstring) : presult json :=
  match parse_value (JSON_parse_fuel s) (skip_ws s) with
  | POk (v, rest) =>
      match skip_ws rest with
      | [] => POk v
      | _ :: _ => PErr
      end
  | PErr => PErr
  | PFuel => PFuel
  end.

Definition JSON_parse (s : jsstring) : option json :=
  match JSON_parse_run s with
  | POk v => Some v
  | _ => None
  end.

(** ** Property access and truthiness *)

(** A JavaScript value as the extractor meets them: a parsed JSON value,
    or [undefined] ([None]). *)
Definition value : Type := option json.

(** [o.htmlres] on a parsed value: reading a property of [null] throws a
    [TypeError]; primitives and arrays have no such property; an object
    yields its own property, the last of duplicate keys winning. *)
Inductive access : Type :=
| TypeError
| Got (v : value).

Fixpoint string_eqb (a b : jsstring) : bool :=
  match a, b with
  | [], [] => true
  | x :: a', y :: b' => (x =? y) && string_eqb a' b'
  | _, _ => false
  end.

Fixpoint own_property (k : jsstring) (l : list (jsstring * json)) : option json :=
  match l with
  | [] => None
  | (k', v) :: l' =>
      match own_property k l' with
      | Some w => Some w
      | None => if string_eqb k' k then Some v else None
      end
  end.

Definition get_property (o : json) (k : jsstring) : access :=
  match o with
  | JNull => TypeError
  | JObj l => Got (own_property k l)
  | _ => Got None
  end.

(** A JSON number literal denotes a double equal to zero exactly when its
    magnitude is at most [2^-1075], half the least positive double. *)
Definition number_is_zero (n : number) : bool :=
  (mantissa n =? 0)
  || ((exponent n <? 0)%Z
      && (Z.of_N (mantissa n) * 2 ^ 1075 <=? 10 ^ (- exponent n))%Z).

(** [ToBoolean]. *)
Definition truthy (v : value) : bool :=
  match v with
  | None => false
  | Some JNull => false
  | Some (JBool b) => b
  | Some (JNum n) => negb (number_is_zero n)
  | Some (JStr s) => match s with [] => false | _ :: _ => true end
  | Some (JArr _) => true
  | Some (JObj _) => true
  end.

(** ** [parseAIResponse] *)

Inductive result (A : Type) : Type :=
| Ok (a : A)
| Throw (message : jsstring).
Arguments Ok {A} a.
Arguments Throw {A} message.

(** [/```json\s*|\s*```/g] *)
Definition fence_json_re : re :=
  Alt (Seq (Lit (lit "```json")) (StarG is_space))
      (Seq (StarG is_space) (Lit (lit "```"))).

(** The expression of line 80, in three parts: the quoted key [htmlres],
    [\s*], a colon, [\s*] and a quote; the lazy group [([\s\S]*?)]; a
    quote, [\s*] and a closing brace. *)
Definition field_open : re :=
  Seq (Lit (dquote :: lit "htmlres" ++ [dquote]))
 (Seq (StarG is_space)
 (Seq (Chr (is_char 58))
 (Seq (StarG is_space)
      (Chr (is_char dquote))))).

Definition field_close : re :=
  Seq (Chr (is_char dquote)) (Seq (StarG is_space) (Chr (is_char 125))).

Definition htmlres_re : re :=
  Seq field_open (Seq (Grp1 (StarL any_unit)) field_close).

(** [/<html[\s\S]*?<\/html>/i] *)
Definition html_open : re := LitI (lit "<html").
Definition html_close : re := LitI (lit "</html>").

Definition html_re : re :=
  Seq html_open (Seq (StarL any_unit) html_close).

(** Lines 61 to 66: fence markers removed, the result trimmed, and a pair
    of bare fences still around it sliced off. *)
Definition cleanResponse (aiResponse : jsstring) : jsstring :=
  let c := trim (replace_all fence_json_re [] aiResponse) in
  if startsWith c (lit "```") && endsWith c (lit "```")
  then trim (slice c 3 (-3))
  else c.

(** The inner [try] block (lines 69 to 77): it returns the [htmlres]
    property when that is truthy; a falsy property leaves the block
    normally; an exception of [JSON.parse] or of the property access is
    caught and only logged. *)
Inductive attempt : Type :=
| Returned (v : value)
| Falsy
| Caught.

Definition json_attempt (clean : jsstring) : attempt :=
  match JSON_parse clean with
  | None => Caught
  | Some jsonResponse =>
      match get_property jsonResponse (lit "htmlres") with
      | TypeError => Caught
      | Got p => if truthy p then Returned p else Falsy
      end
  end.

Definition extraction_error : jsstring :=
  lit "Could not extract HTML content from AI response".

(** Lines 80 to 93: the two regular-expression fallbacks, run on the
    original reply, then the error. *)
Definition fallback (aiResponse : jsstring) : result value :=
  match search htmlres_re aiResponse with
  | Some (_, g1) => Ok (option_map JStr g1)
  | None =>
      match search html_re aiResponse with
      | Some (whole, _) => Ok (Some (JStr whole))
      | None => Throw extraction_error
      end
  end.

(** The outer [catch] logs the error and throws it again unchanged. *)
Definition parseAIResponse (aiResponse : jsstring) : result value :=
  match json_attempt (cleanResponse aiResponse) with
  | Returned v => Ok v
  | Falsy | Caught => fallback aiResponse
  end.

(** ** [decodeHTMLContent]

    The eleven global replacements of lines 106 to 116, in source order:
    pattern and replacement. *)

Definition decode_steps : list (jsstring * jsstring) :=
  [ ([backslash; 110], [newline]);          (* backslash n to line feed *)
    ([backslash; dquote], [dquote]);        (* backslash quote to quote *)
    ([backslash; 116], [tab]);              (* backslash t to tab *)
    ([backslash; 114], [creturn]);          (* backslash r to carriage return *)
    ([backslash; backslash], [backslash]);  (* two backslashes to one *)
    ([backslash; squote], [squote]);        (* backslash apostrophe to apostrophe *)
    (lit "&quot;", [dquote]);
    (lit "&amp;", lit "&");
    (lit "&lt;", lit "<");
    (lit "&gt;", lit ">");
    (lit "&#39;", [squote]) ].

Definition apply_step (s : jsstring) (st : jsstring * jsstring) : jsstring :=
  replace_all (Lit (fst st)) (snd st) s.

Definition decodeHTMLContent (htmlContent : jsstring) : jsstring :=
  match htmlContent with
  | [] => []
  | _ :: _ => fold_left apply_step decode_steps htmlContent
  end.

(** ** [convertHTMLtoPDF]

    The browser engine is outside the program: it is modelled by what each
    of its calls answers, and the function by the sequence of calls it
    makes.  An exception is represented by its [message]. *)

Definition bytes := list N.

Record launch_options : Type := mkLaunch {
  headless : jsstring;
  args : list jsstring
}.

Record content_options : Type := mkContent {
  waitUntil : jsstring;
  timeout : N
}.

Record margins : Type := mkMargins {
  top : jsstring;
  right : jsstring;
  bottom : jsstring;
  left : jsstring
}.

Record pdf_options : Type := mkPdf {
  format : jsstring;
  printBackground : bool;
  margin : margins;
  preferCSSPageSize : bool;
  pageRanges : jsstring
}.

(** The calls made on the engine, in the order of the source. *)
Inductive call : Type :=
| Launch (o : launch_options)
| NewPage
| SetContent (html : jsstring) (o : content_options)
| Pdf (o : pdf_options)
| Close.

(** What the engine answers to each call. *)
Record engine : Type := mkEngine {
  on_launch : launch_options -> result unit;
  on_newPage : result unit;
  on_setContent : jsstring -> content_options -> result unit;
  on_pdf : jsstring -> pdf_options -> result bytes;
  on_close : result unit
}.

(** State threaded through the function body: the local variable
    [browser] (set once [launch] has answered) and the calls made so far. *)
Record rstate : Type := mkState {
  browser : bool;
  calls : list call
}.

Definition M (A : Type) : Type := rstate -> result A * rstate.

Definition ret {A} (a : A) : M A := fun st => (Ok a, st).

Definition throw {A} (e : jsstring) : M A := fun st => (Throw e, st).

Definition bind {A B} (m : M A) (f : A -> M B) : M B :=
  fun st =>
    match m st with
    | (Ok a, st') => f a st'
    | (Throw e, st') => (Throw e, st')
    end.

Notation "x <- m ;; k" := (bind m (fun x => k))
  (at level 61, m at next level, right associativity).
Notation "m ;;; k" := (bind m (fun _ => k))
  (at level 61, right associativity).

(** [try { m } catch (error) { h error }] *)
Definition try_catch {A} (m : M A) (h : jsstring -> M A) : M A :=
  fun st =>
    match m st with
    | (Ok a, st') => (Ok a, st')
    | (Throw e, st') => h e st'
    end.

(** [try { m } finally { f }]: [f] runs on every exit of [m]; its own
    exception replaces the outcome of [m]. *)
Definition finally {A} (m : M A) (f : M unit) : M A :=
  fun st =>
    match m st with
    | (r, st') =>
        match f st' with
        | (Ok _, st'') => (r, st'')
        | (Throw e, st'') => (Throw e, st'')
        end
    end.

(** An awaited engine call: recorded, then answered by the engine. *)
Definition await {A} (c : call) (answer : result A) : M A :=
  fun st => (answer, mkState (browser st) (calls st ++ [c])).

Definition set_browser : M unit :=
  fun st => (Ok tt, mkState true (calls st)).

Definition get_browser : M bool :=
  fun st => (Ok (browser st), st).

(** [/```html\s*|\s*```/g] *)
Definition fence_html_re : re :=
  Alt (Seq (Lit (lit "```html")) (StarG is_space))
      (Seq (StarG is_space) (Lit (lit "```"))).

Definition launch_request : launch_options :=
  mkLaunch (lit "new")
    [ lit "--no-sandbox"; lit "--disable-setuid-sandbox";
      lit "--disable-dev-shm-usage"; lit "--disable-accelerated-2d-canvas";
      lit "--no-first-run"; lit "--no-zygote"; lit "--single-process";
      lit "--disable-gpu" ].

Definition content_request : content_options :=
  mkContent (lit "networkidle0") 30000.

Definition pdf_request : pdf_options :=
  mkPdf (lit "A4") true
    (mkMargins (lit "0.5in") (lit "0.5in") (lit "0.5in") (lit "0.5in"))
    true (lit "1").

Definition empty_error : jsstring := lit "HTML content is empty".
Definition wrap_error (message : jsstring) : jsstring :=
  lit "Failed to convert HTML to PDF: " ++ message.

Definition is_empty (s : jsstring) : bool :=
  match s with [] => true | _ :: _ => false end.

Definition convertHTMLtoPDF (E : engine) (htmlContent : jsstring) : M bytes :=
  finally
    (try_catch
       (if is_empty htmlContent || (length (trim htmlContent) =? 0)%nat
        then throw empty_error
        else
          let cleanHTML := trim htmlContent in
          let cleanHTML := trim (replace_all fence_html_re [] cleanHTML) in
          await (Launch launch_request) (on_launch E launch_request) ;;;
          set_browser ;;;
          await NewPage (on_newPage E) ;;;
          await (SetContent cleanHTML content_request)
                (on_setContent E cleanHTML content_request) ;;;
          pdfBuffer <- await (Pdf pdf_request) (on_pdf E cleanHTML pdf_request) ;;
          ret pdfBuffer)
       (fun message => throw (wrap_error message)))
    (b <- get_browser ;;
     if b then await Close (on_close E) else ret tt).

(** One call of the function: [browser] starts undefined, no call made. *)
Definition render (E : engine) (htmlContent : jsstring)
    : result bytes * list call :=
  let '(r, st) := convertHTMLtoPDF E htmlContent (mkState false []) in
  (r, calls st).

(** ** Notions used in the statements *)

(** An expression is [simple] when it matches in at most one way and
    leaves the group untouched: running it before a continuation is the
    same as running it alone and continuing from where it stopped. *)
Definition simple (r : re) : Prop :=
  forall s g k,
    rmatch r s g k =
    match match_here r s with
    | Some (t, _) => k t g
    | None => None
    end.

(** The JSON step hands nothing back: the text does not parse, or the
    property is missing or falsy, or reading it throws. *)
Definition no_json_result (aiResponse : jsstring) : bool :=
  match json_attempt (cleanResponse aiResponse) with
  | Returned _ => false
  | Falsy | Caught => true
  end.

(** *** Sample replies *)

(** A reply that is valid JSON with the field, and whose other field holds
    a complete [<html>] span that both fallbacks would pick up differently. *)
Definition reply_with_decoy : jsstring :=
  lit "{" ++ [dquote] ++ lit "htmlres" ++ [dquote] ++ lit ": " ++ [dquote]
  ++ lit "<p>x</p>" ++ [dquote] ++ lit ", " ++ [dquote] ++ lit "note" ++ [dquote]
  ++ lit ": " ++ [dquote] ++ lit "<html>zzz</html>" ++ [dquote] ++ lit "}".

(** The field with its delimiters intact, followed by text without any
    closing brace. *)
Definition reply_no_brace : jsstring :=
  [dquote] ++ lit "htmlres" ++ [dquote] ++ lit ": " ++ [dquote] ++ lit "abc"
  ++ [dquote] ++ lit " trailing".

(** An object with the field, followed by garbage that breaks the JSON. *)
Definition reply_trailing_garbage : jsstring :=
  lit "{ " ++ [dquote] ++ lit "htmlres" ++ [dquote] ++ lit " : " ++ [dquote]
  ++ lit "<p>hi</p>" ++ [dquote] ++ lit " } and some more text".

(** A document with a second closing tag after the first. *)
Definition reply_two_closings : jsstring := lit "<html>a</html>b</html>".

(** Prose around a document whose tags differ in case. *)
Definition reply_prose_html : jsstring :=
  lit "Here you go: <HTML><body>Hi</body></html> bye".

(** Valid JSON whose field is the empty string. *)
Definition reply_empty_field : jsstring :=
  lit "{" ++ [dquote] ++ lit "htmlres" ++ [dquote] ++ lit ": " ++ [dquote]
  ++ [dquote] ++ lit ", " ++ [dquote] ++ lit "other" ++ [dquote] ++ lit ": 1}".

(** A reply with nothing to recover. *)
Definition reply_nothing : jsstring := lit "Sorry, I cannot help with that.".

(** [s] holds no code unit [x]. *)
Definition avoids (x : code_unit) (s : jsstring) : bool :=
  forallb (fun c => negb (c =? x)) s.

(** Text with neither a backslash nor an ampersand. *)
Definition plain (s : jsstring) : bool :=
  avoids backslash s && avoids 38 s.

(** Text in which none of the eleven patterns of [decodeHTMLContent]
    occurs. *)
Definition normalized (s : jsstring) : bool :=
  forallb (fun st => negb (occurs (fst st) s)) decode_steps.

(** The [finally] block once [browser] is set: [close] is called and its
    exception, if any, replaces the outcome [r]. *)
Definition close_after (E : engine) (r : result bytes) (tr : list call)
    : result bytes * list call :=
  match on_close E with
  | Ok _ => (r, tr ++ [Close])
  | Throw e => (Throw e, tr ++ [Close])
  end.

(** The markup handed to the page: trimmed, fences removed, trimmed. *)
Definition cleanHTML (htmlContent : jsstring) : jsstring :=
  trim (replace_all fence_html_re [] (trim htmlContent)).

(** The engine was started: [launch] was called and answered. *)
Definition launched (E : engine) (tr : list call) : Prop :=
  In (Launch launch_request) tr /\ on_launch E launch_request = Ok tt.

(** An engine on which every call succeeds. *)
Definition engine_ok : engine :=
  mkEngine (fun _ => Ok tt) (Ok tt) (fun _ _ => Ok tt)
           (fun _ _ => Ok (lit "%PDF-1.4")) (Ok tt).

(** An engine whose page fails to load the content. *)
Definition engine_load_fails : engine :=
  mkEngine (fun _ => Ok tt) (Ok tt)
           (fun _ _ => Throw (lit "Navigation timeout of 30000 ms exceeded"))
           (fun _ _ => Ok (lit "%PDF-1.4")) (Ok tt).

(** ** Further notions: fences, trimmed text, the requested envelope *)

Definition backtick : code_unit := 96.

Definition all_space (w : jsstring) : bool := forallb is_space w.

(** Text that neither starts nor ends with white space. *)
Definition trimmed (s : jsstring) : bool :=
  match s with [] => true | c :: _ => negb (is_space c) end
  && match rev s with [] => true | c :: _ => negb (is_space c) end.

(** The common shape of the two fence expressions, lines 61 and 134: a
    tagged opening fence with the white space after it, or a fence with
    the white space before it. *)
Definition fence_re (tag : jsstring) : re :=
  Alt (Seq (Lit (lit "```" ++ tag)) (StarG is_space))
      (Seq (StarG is_space) (Lit (lit "```"))).

(** A reply or a document wrapped in a tagged fence. *)
Definition fenced (tag ws1 body ws2 : jsstring) : jsstring :=
  (lit "```" ++ tag) ++ ws1 ++ body ++ ws2 ++ lit "```".

(** Text that a JSON string literal holds as it stands: no quote, no
    backslash, no control character. *)
Definition json_plain (h : jsstring) : bool :=
  forallb (fun c => negb (c =? 34) && negb (c =? 92) && negb (c <? 32)) h.

Definition all_json_ws (w : jsstring) : bool := forallb is_json_ws w.

(** The reply the prompt asks for (lines 237 to 240): an object with the
    single field [htmlres], with optional white space between tokens. *)
Definition envelope (w1 w2 w3 w4 h : jsstring) : jsstring :=
  lit "{"
  ++ (w1 ++ (dquote :: lit "htmlres" ++ [dquote]) ++ w2 ++ lit ":" ++ w3
      ++ [dquote] ++ h ++ [dquote] ++ w4)
  ++ lit "}".

(** The reply of the first end-to-end scenario, without its fence. *)
Definition reply_hi : jsstring :=
  envelope [] [] (lit " ") [] (lit "<html><body>Hi</body></html>").

(** The reply in the layout the prompt shows: the field on a line of its
    own, indented, between the braces. *)
Definition reply_prompt_layout : jsstring :=
  envelope [10; 32; 32] [] [32] [10] (lit "<html><body>Hi</body></html>").

(** A reply that is valid JSON but holds no object. *)
Definition reply_json_null : jsstring := lit "  null ".

(** The four calls of a complete session, in source order, for a given
    input. *)
Definition session (htmlContent : jsstring) : list call :=
  [ Launch launch_request; NewPage;
    SetContent (cleanHTML htmlContent) content_request; Pdf pdf_request ].

(** An engine that prints the page but fails to shut down. *)
Definition engine_close_fails : engine :=
  mkEngine (fun _ => Ok tt) (Ok tt) (fun _ _ => Ok tt)
           (fun _ _ => Ok (lit "%PDF-1.4"))
           (Throw (lit "Protocol error: Target closed")).

(** A document wrapped in an html-tagged fence. *)
Definition document_hi : jsstring := lit "<html><body>Hi</body></html>".

(** ** The upload filter and the error middleware *)

(** [fileFilter] (lines 45 to 52): only the PDF media type is let in;
    [Throw] stands for the error handed to the callback. *)
Definition pdf_only_error : jsstring := lit "Only PDF files are allowed".

Definition fileFilter (mimetype : jsstring) : result bool :=
  if string_eqb mimetype (lit "application/pdf")
  then Ok true
  else Throw pdf_only_error.

(** An error as the middleware looks at it: whether it is a
    [multer.MulterError], its [code] if any, its [message]. *)
Record js_error : Type := mkError {
  is_multer : bool;
  code : option jsstring;
  message : jsstring
}.

(** A plain [Error] with a message. *)
Definition plain_error (m : jsstring) : js_error := mkError false None m.

Definition code_is (e : js_error) (c : jsstring) : bool :=
  match code e with
  | Some x => string_eqb x c
  | None => false
  end.

(** What a handler sends: a status with a JSON object of string fields
    (fields set to [undefined] are not sent), or a PDF with its headers. *)
Record pdf_headers : Type := mkHeaders {
  content_type : jsstring;
  content_disposition : jsstring;
  content_length : nat
}.

Inductive response : Type :=
| Json (status : N) (fields : list (jsstring * jsstring))
| PdfFile (headers : pdf_headers) (body : bytes).

Definition is_development (node_env : option jsstring) : bool :=
  match node_env with
  | Some v => string_eqb v (lit "development")
  | None => false
  end.

(** The error-handling middleware (lines 404 to 427). *)
Definition errorMiddleware (node_env : option jsstring) (error : js_error)
    : response :=
  if is_multer error && code_is error (lit "LIMIT_FILE_SIZE") then
    Json 400 [(lit "error", lit "PDF file size too large (max 10MB)")]
  else if is_multer error && code_is error (lit "LIMIT_FILE_COUNT") then
    Json 400 [(lit "error", lit "Too many files uploaded")]
  else if is_multer error && code_is error (lit "LIMIT_UNEXPECTED_FILE") then
    Json 400 [(lit "error", lit "Unexpected file field")]
  else if string_eqb (message error) (lit "Only PDF files are allowed") then
    Json 400 [(lit "error", lit "Only PDF files are allowed")]
  else
    Json 500
      [(lit "error", lit "Internal server error");
       (lit "message",
        if is_development node_env then message error
        else lit "Something went wrong")].

(** ** The two route handlers *)

(** What surrounds a handler: the reply of the AI call (text, or the
    message of what it threw), the browser engine, the uploaded file on
    disk and what [unlinkSync] answers, [NODE_ENV], and three texts fixed
    by the JavaScript engine: the message of the [TypeError] raised when a
    method is called on a value that lacks it, the stack of an error, and
    the message of the [TypeError] raised when a property is destructured
    from [undefined]. *)
Record world : Type := mkWorld {
  ai : result jsstring;
  eng : engine;
  file_present : bool;
  unlink_answer : result unit;
  node_env : option jsstring;
  not_a_function : jsstring -> jsstring;
  stack_of : jsstring -> jsstring;
  cannot_destructure : jsstring -> jsstring
}.

(** The part of the request a handler reads: the stored upload, if any,
    and [req.body]: [None] when no middleware has set it ([undefined]),
    otherwise the object with its text field [jobRequirements], if any. *)
Record request : Type := mkRequest {
  file : option jsstring;
  body : option (option jsstring)
}.

(** The field read at line 308, once [req.body] is an object. *)
Definition jobRequirements (req : request) : option jsstring :=
  match body req with
  | Some field => field
  | None => None
  end.

(** What a handler call comes to: the response sent, or the error that
    escaped the handler with nothing sent; whether the AI was called; the
    calls made on the engine; how often [unlinkSync] was called and
    whether the upload is still on disk. *)
Record outcome : Type := mkOutcome {
  reply : option response;
  escaped : option jsstring;
  ai_called : bool;
  engine_calls : list call;
  unlinks : nat;
  file_left : bool
}.

(** [getGeminiSuggestionsWithPDF] (lines 192 to 281), seen from its
    caller: the text of the reply, or its error behind a prefix. *)
Definition getGeminiSuggestionsWithPDF (answer : result jsstring)
    : result jsstring :=
  match answer with
  | Ok text => Ok text
  | Throw m => Throw (lit "Failed to get AI suggestions: " ++ m)
  end.

(** [decodeHTMLContent] on whatever [parseAIResponse] returned: a falsy
    value gives the empty string, a string is decoded, any other value
    has no [replace] method. *)
Definition decode_value (w : world) (v : value) : result jsstring :=
  if truthy v then
    match v with
    | Some (JStr s) => Ok (decodeHTMLContent s)
    | _ => Throw (not_a_function w (lit "replace"))
    end
  else Ok [].

(** [convertHTMLtoPDF] on any value: a falsy value is refused as empty, a
    string is rendered, any other value has no [trim] method; that
    [TypeError] is raised inside the [try] block, before the launch. *)
Definition render_value (w : world) (v : value) : result bytes * list call :=
  if truthy v then
    match v with
    | Some (JStr s) => render (eng w) s
    | _ => (Throw (wrap_error (not_a_function w (lit "trim"))), [])
    end
  else (Throw (wrap_error empty_error), []).

(** Lines 332 to 341: extract, normalise, render. *)
Definition pipeline (w : world) (suggestions : jsstring)
    : result bytes * list call :=
  match parseAIResponse suggestions with
  | Throw m => (Throw m, [])
  | Ok v =>
      match decode_value w v with
      | Throw m => (Throw m, [])
      | Ok htmlContent => render (eng w) htmlContent
      end
  end.

Definition attachment (name : jsstring) : jsstring :=
  lit "attachment; filename=" ++ [dquote] ++ name ++ [dquote].

Definition pdf_reply (name : jsstring) (pdfBuffer : bytes) : response :=
  PdfFile (mkHeaders (lit "application/pdf") (attachment name)
                     (length pdfBuffer))
          pdfBuffer.

Definition failure_fields (w : world) (m : jsstring)
    : list (jsstring * jsstring) :=
  [(lit "error", lit "Failed to process PDF resume"); (lit "message", m)]
  ++ (if is_development (node_env w) then [(lit "stack", stack_of w m)]
      else []).

(** The [catch] block of the main handler (lines 357 to 371), entered
    with an error of message [m] after [n] calls of [unlinkSync]. *)
Definition optimize_catch (w : world) (m : jsstring) (called : bool)
    (calls : list call) (n : nat) : outcome :=
  if file_present w then
    match unlink_answer w with
    | Ok _ =>
        mkOutcome (Some (Json 500 (failure_fields w m))) None called calls
                  (S n) false
    | Throw e => mkOutcome None (Some e) called calls (S n) true
    end
  else
    mkOutcome (Some (Json 500 (failure_fields w m))) None called calls n false.

(** The [catch] block when the error comes before the upload was looked
    at: the file is removed only if the request has one. *)
Definition optimize_catch_early (w : world) (req : request) (m : jsstring)
    : outcome :=
  match file req with
  | Some _ => optimize_catch w m false [] O
  | None =>
      mkOutcome (Some (Json 500 (failure_fields w m))) None false [] O
                (file_present w)
  end.

(** The handler of [POST /api/optimize-resume] (lines 306 to 372).  The
    destructuring of line 308 throws when [req.body] is [undefined]. *)
Definition optimize_resume (w : world) (req : request) : outcome :=
  match body req with
  | None =>
      optimize_catch_early w req (cannot_destructure w (lit "jobRequirements"))
  | Some _ =>
  match file req with
  | None =>
      mkOutcome
        (Some (Json 400 [(lit "error", lit "PDF resume file is required")]))
        None false [] O (file_present w)
  | Some _ =>
      if truthy (option_map JStr (jobRequirements req)) then
        match getGeminiSuggestionsWithPDF (ai w) with
        | Throw m => optimize_catch w m true [] O
        | Ok suggestions =>
            match pipeline w suggestions with
            | (Throw m, calls) => optimize_catch w m true calls O
            | (Ok pdfBuffer, calls) =>
                if file_present w then
                  match unlink_answer w with
                  | Ok _ =>
                      mkOutcome
                        (Some (pdf_reply (lit "optimized-resume.pdf") pdfBuffer))
                        None true calls 1 false
                  | Throw e => optimize_catch w e true calls 1
                  end
                else
                  mkOutcome
                    (Some (pdf_reply (lit "optimized-resume.pdf") pdfBuffer))
                    None true calls O false
            end
        end
      else
        mkOutcome
          (Some (Json 400 [(lit "error", lit "Job requirements are required")]))
          None false [] O (file_present w)
  end
  end.

(** The handler of [POST /api/test-html-to-pdf] (lines 375 to 401), on
    [req.body]: [None] when it is [undefined], where the destructuring of
    line 377 throws inside the [try] block, otherwise the [html] property
    of the object. *)
Definition test_html_to_pdf (w : world) (body : option value)
    : response * list call :=
  match body with
  | None =>
      (Json 500 [(lit "error", lit "Failed to convert HTML to PDF");
                 (lit "message", cannot_destructure w (lit "html"))], [])
  | Some html =>
      if truthy html then
        match render_value w html with
        | (Ok pdfBuffer, calls) =>
            (pdf_reply (lit "test-document.pdf") pdfBuffer, calls)
        | (Throw m, calls) =>
            (Json 500 [(lit "error", lit "Failed to convert HTML to PDF");
                       (lit "message", m)], calls)
        end
      else (Json 400 [(lit "error", lit "HTML content is required")], [])
  end.

(** *** Sample worlds and requests *)

Definition world_of (answer : result jsstring) (E : engine) : world :=
  mkWorld answer E true (Ok tt) None
          (fun method => lit "htmlContent." ++ method ++ lit " is not a function")
          (fun m => lit "Error: " ++ m)
          (fun property =>
             lit "Cannot destructure property '" ++ property
             ++ lit "' of 'req.body' as it is undefined.").

Definition request_ok : request :=
  mkRequest (Some (lit "uploads/resume-1.pdf"))
            (Some (Some (lit "Rocq engineer"))).

(** A reply whose field is a number. *)
Definition reply_number_field : jsstring :=
  lit "{" ++ [dquote] ++ lit "htmlres" ++ [dquote] ++ lit ": 42}".

(** A reply whose field is the empty string and nothing else. *)
Definition reply_only_empty_field : jsstring :=
  lit "{" ++ [dquote] ++ lit "htmlres" ++ [dquote] ++ lit ": " ++ [dquote]
  ++ [dquote] ++ lit "}".

(** The five bodies the error middleware can send outside development. *)
Definition middleware_replies : list response :=
  [ Json 400 [(lit "error", lit "PDF file size too large (max 10MB)")];
    Json 400 [(lit "error", lit "Too many files uploaded")];
    Json 400 [(lit "error", lit "Unexpected file field")];
    Json 400 [(lit "error", lit "Only PDF files are allowed")];
    Json 500 [(lit "error", lit "Internal server error");
              (lit "message", lit "Something went wrong")] ].

(** ** Notions used for the doubled backslash *)

(** The text does not end with a backslash (the empty text included). *)
Definition no_final_backslash (a : jsstring) : bool :=
  negb (last a 0 =? backslash).

(** No occurrence of [p] in [X ++ Z] starts in [X] and ends in [Z]. *)
Definition no_straddle (p X Z : jsstring) : Prop :=
  forall X1 X2, X = X1 ++ X2 -> X2 <> [] ->
    startsWith (X2 ++ Z) p = startsWith X2 p.

(** A replacement step that passes over a backslash followed by a line
    feed, standing after a text without final backslash, and that keeps
    such a text without final backslash. *)
Definition step_splits (st : jsstring * jsstring) : Prop :=
  (forall a b, no_final_backslash a = true ->
     apply_step (a ++ [backslash; newline] ++ b) st
     = apply_step a st ++ [backslash; newline] ++ apply_step b st)
  /\ (forall a, no_final_backslash a = true ->
        no_final_backslash (apply_step a st) = true).

(** ** Fence stripping as the specification words it *)

(** Step 1 of the extractor in the specification: every fence marker,
    three backticks with or without the tag [json], is removed, and the
    result is trimmed.  Kept apart from [cleanResponse], which is the code
    of lines 61 to 66, to compare the two. *)
Definition strip_fence_markers_spec (s : jsstring) : jsstring :=
  trim (replace_all (Alt (Lit (lit "```json")) (Lit (lit "```"))) [] s).

(** A JSON reply whose field holds an attribute in escaped quotes. *)
Definition reply_escaped_quotes : jsstring :=
  lit "{" ++ [dquote] ++ lit "htmlres" ++ [dquote] ++ lit ": " ++ [dquote]
  ++ lit "<p class=" ++ [backslash; dquote] ++ lit "x" ++ [backslash; dquote]
  ++ lit ">hi</p>" ++ [dquote] ++ lit "}".

(** The same reply in a json-tagged fence, with one space before the
    opening fence. *)
Definition reply_space_before_fence : jsstring :=
  lit " " ++ fenced (lit "json") [10] reply_escaped_quotes [10].

(** A world whose upload is on disk and cannot be removed. *)
Definition world_unlink_fails : world :=
  mkWorld (Ok reply_hi) engine_ok true (Throw (lit "EPERM")) None
          (fun m => m) (fun m => m) (fun m => m).

(** ** Pages *)

(** What it means for an engine to honour the page range of line 175,
    given the number of pages of the layout of a markup and the number of
    pages of a buffer: asked for range 1 on a layout of at least one page,
    a buffer it answers holds exactly one page. *)
Definition honours_first_page (E : engine)
    (layout_pages : jsstring -> nat) (page_count : bytes -> nat) : Prop :=
  forall html o pdfBuffer,
    on_pdf E html o = Ok pdfBuffer ->
    pageRanges o = lit "1" ->
    (1 <= layout_pages html)%nat ->
    page_count pdfBuffer = 1%nat.

(** A sample engine with pages: a layout has one page per twenty code
    units of markup, begun ones included; a buffer holds one byte per
    page; the whole layout is printed unless the range is 1. *)
Definition sample_layout_pages (html : jsstring) : nat :=
  S (length html / 20).

Definition sample_page_count (pdfBuffer : bytes) : nat := length pdfBuffer.

Definition engine_paged : engine :=
  mkEngine (fun _ => Ok tt) (Ok tt) (fun _ _ => Ok tt)
           (fun html o =>
              Ok (repeat 80
                    (if string_eqb (pageRanges o) (lit "1") then 1%nat
                     else sample_layout_pages html)))
           (Ok tt).

(** A document whose layout overflows the first page in that engine. *)
Definition document_long : jsstring :=
  lit "<html><body><p>one</p><p>two</p><p>three</p><p>four</p></body></html>".

(** * Properties of the matcher *)

Section Matcher.

Lemma simple_Eps : simple Eps.
Proof. intros s g k. reflexivity. Qed.

Lemma simple_Chr (p : code_unit -> bool) : simple (Chr p).
Proof.
  intros s g k. unfold match_here. simpl.
  destruct s as [|c s']; [reflexivity|]. destruct (p c); reflexivity.
Qed.

Lemma simple_Seq (a b : re) : simple a -> simple b -> simple (Seq a b).
Proof.
  intros Ha Hb s g k. unfold match_here. simpl.
  rewrite Ha. rewrite (Ha s None).
  destruct (match_here a s) as [[t g0]|]; [|reflexivity].
  rewrite Hb. reflexivity.
Qed.

Lemma simple_Lit (l : jsstring) : simple (Lit l).
Proof.
  induction l as [|x l IH]; simpl.
  - apply simple_Eps.
  - apply simple_Seq; [apply simple_Chr | exact IH].
Qed.

Lemma simple_LitI (l : jsstring) : simple (LitI l).
Proof.
  induction l as [|x l IH]; simpl.
  - apply simple_Eps.
  - apply simple_Seq; [apply simple_Chr | exact IH].
Qed.

(** A greedy star whose continuation rejects every input that starts in
    the class can only stop at the end of the run. *)
Lemma star_greedy_drop (p : code_unit -> bool) (K : jsstring -> option mstate) :
  (forall c t, p c = true -> K (c :: t) = None) ->
  forall s, star_greedy p K s = K (drop_while p s).
Proof.
  intros HK s. induction s as [|c r IH]; simpl; [reflexivity|].
  destruct (p c) eqn:E; [|reflexivity].
  rewrite IH. destruct (K (drop_while p r)); [reflexivity|].
  apply HK. exact E.
Qed.

Lemma match_here_star_then (p : code_unit -> bool) (b : re) :
  simple b ->
  (forall c t, p c = true -> match_here b (c :: t) = None) ->
  forall s, match_here (Seq (StarG p) b) s = match_here b (drop_while p s).
Proof.
  intros Hb Hp s. unfold match_here at 1. simpl.
  rewrite star_greedy_drop; [reflexivity|].
  intros c t E. rewrite Hb. rewrite (Hp c t E). reflexivity.
Qed.

Lemma simple_star_then (p : code_unit -> bool) (b : re) :
  simple b ->
  (forall c t, p c = true -> match_here b (c :: t) = None) ->
  simple (Seq (StarG p) b).
Proof.
  intros Hb Hp s g k. rewrite (match_here_star_then p b Hb Hp). simpl.
  rewrite star_greedy_drop.
  - apply Hb.
  - intros c t E. rewrite Hb. rewrite (Hp c t E). reflexivity.
Qed.

(** [leftmost] finds the first position with a match. *)
Lemma leftmost_spec (r : re) :
  forall s i t,
    leftmost r s = Some (i, t) ->
    (i <= length s)%nat /\
    (exists g, match_here r (skipn i s) = Some (t, g)) /\
    (forall i', (i' < i)%nat -> match_here r (skipn i' s) = None).
Proof.
  induction s as [|c s IH]; intros i t H; simpl in H.
  - destruct (match_here r []) as [[rest g]|] eqn:E; [|discriminate].
    inversion H; subst. split; [simpl; lia|]. split.
    + exists g. exact E.
    + intros i' Hi. lia.
  - destruct (match_here r (c :: s)) as [[rest g]|] eqn:E.
    + inversion H; subst. split; [simpl; lia|]. split.
      * exists g. exact E.
      * intros i' Hi. lia.
    + destruct (leftmost r s) as [[j u]|] eqn:L; [|discriminate].
      inversion H; subst. destruct (IH j t eq_refl) as (Hle & Hm & Hn).
      split; [simpl; lia|]. split; [exact Hm|].
      intros [|i'] Hi; [exact E|]. simpl. apply Hn. lia.
Qed.

Lemma leftmost_none (r : re) :
  forall s, leftmost r s = None ->
    forall i, match_here r (skipn i s) = None.
Proof.
  induction s as [|c s IH]; intros H i; simpl in H.
  - destruct (match_here r []) as [[rest g]|] eqn:E; [discriminate|].
    destruct i; exact E.
  - destruct (match_here r (c :: s)) as [[rest g]|] eqn:E; [discriminate|].
    destruct (leftmost r s) as [[j u]|] eqn:L; [discriminate|].
    destruct i as [|i]; [exact E|]. simpl. apply IH. reflexivity.
Qed.

(** A lazy star over every code unit stops at the first position where
    what follows matches. *)
Lemma star_lazy_leftmost (c : re) (K : jsstring -> option mstate) :
  (forall s', K s' = None <-> match_here c s' = None) ->
  forall s,
    star_lazy any_unit K s =
    match leftmost c s with
    | Some (j, _) => K (skipn j s)
    | None => None
    end.
Proof.
  intros HK s. induction s as [|a s IH].
  - simpl. destruct (K []) as [m|] eqn:E.
    + destruct (match_here c []) as [[rest g]|] eqn:M; [simpl; congruence|].
      apply HK in M. congruence.
    + apply HK in E. rewrite E. reflexivity.
  - simpl. destruct (K (a :: s)) as [m|] eqn:E.
    + destruct (match_here c (a :: s)) as [[rest g]|] eqn:M; [simpl; congruence|].
      apply HK in M. congruence.
    + apply HK in E. rewrite E. rewrite IH.
      destruct (leftmost c s) as [[j u]|]; reflexivity.
Qed.

(** [search] returns the match at the first position that has one. *)
Lemma search_at (r : re) :
  forall i s t g,
    (forall i', (i' < i)%nat -> match_here r (skipn i' s) = None) ->
    match_here r (skipn i s) = Some (t, g) ->
    search r s =
    Some (firstn (length (skipn i s) - length t) (skipn i s), g).
Proof.
  induction i as [|i IH]; intros s t g Hn Hm.
  - simpl in Hm. destruct s; simpl; rewrite Hm; reflexivity.
  - destruct s as [|c s].
    + simpl in Hm. specialize (Hn O ltac:(lia)). simpl in Hn. congruence.
    + pose proof (Hn O ltac:(lia)) as H0. simpl in H0.
      simpl. rewrite H0. simpl in Hm.
      apply IH; [|exact Hm].
      intros i' Hi. apply (Hn (S i')). lia.
Qed.

Lemma search_none (r : re) :
  forall s, (forall i, match_here r (skipn i s) = None) -> search r s = None.
Proof.
  induction s as [|c s IH]; intros H.
  - pose proof (H O) as H0. simpl in H0. simpl. rewrite H0. reflexivity.
  - pose proof (H O) as H0. simpl in H0. simpl. rewrite H0.
    apply IH. intros i. apply (H (S i)).
Qed.

Lemma search_none_inv (r : re) :
  forall s, search r s = None -> forall i, match_here r (skipn i s) = None.
Proof.
  induction s as [|c s IH]; intros H i; simpl in H.
  - destruct (match_here r []) as [[rest g]|] eqn:E; [discriminate|].
    destruct i; exact E.
  - destruct (match_here r (c :: s)) as [[rest g]|] eqn:E; [discriminate|].
    destruct i as [|i]; [exact E|]. simpl. apply IH. exact H.
Qed.

End Matcher.

(** * Where the expressions of [parseAIResponse] match *)

Section Expressions.

Lemma space_is_not (x : code_unit) :
  is_space x = false -> forall c, is_space c = true -> is_char x c = false.
Proof.
  intros Hx c Hc. unfold is_char.
  destruct (N.eqb_spec c x) as [->|]; [congruence | reflexivity].
Qed.

Lemma chr_rejects_space (x : code_unit) (b : re) :
  is_space x = false ->
  forall c t, is_space c = true ->
    match_here (Seq (Chr (is_char x)) b) (c :: t) = None.
Proof.
  intros Hx c t Hc. unfold match_here. simpl.
  rewrite (space_is_not x Hx c Hc). reflexivity.
Qed.

Lemma chr_alone_rejects_space (x : code_unit) :
  is_space x = false ->
  forall c t, is_space c = true -> match_here (Chr (is_char x)) (c :: t) = None.
Proof.
  intros Hx c t Hc. unfold match_here. simpl.
  rewrite (space_is_not x Hx c Hc). reflexivity.
Qed.

Lemma simple_field_open : simple field_open.
Proof.
  unfold field_open.
  apply simple_Seq; [apply simple_Lit|].
  apply simple_star_then; [|apply chr_rejects_space; reflexivity].
  apply simple_Seq; [apply simple_Chr|].
  apply simple_star_then; [apply simple_Chr|].
  apply chr_alone_rejects_space; reflexivity.
Qed.

Lemma simple_field_close : simple field_close.
Proof.
  unfold field_close.
  apply simple_Seq; [apply simple_Chr|].
  apply simple_star_then; [apply simple_Chr|].
  apply chr_alone_rejects_space; reflexivity.
Qed.

Lemma rmatch_Seq (a b : re) s g k :
  rmatch (Seq a b) s g k = rmatch a s g (fun s' g' => rmatch b s' g' k).
Proof. reflexivity. Qed.

Lemma length_skipn_sub (j : nat) (t : jsstring) :
  (j <= length t)%nat -> (length t - length (skipn j t))%nat = j.
Proof. intros H. rewrite length_skipn. lia. Qed.

(** The whole expression of line 80 matches at the front of [s] exactly
    when its opening part does and its closing part matches somewhere in
    what follows; group 1 is the text up to the first such place. *)
Lemma htmlres_here (s : jsstring) :
  match_here htmlres_re s =
  match match_here field_open s with
  | Some (t, _) =>
      match leftmost field_close t with
      | Some (j, u) => Some (u, Some (firstn j t))
      | None => None
      end
  | None => None
  end.
Proof.
  unfold match_here at 1. unfold htmlres_re.
  rewrite rmatch_Seq, simple_field_open.
  destruct (match_here field_open s) as [[t g0]|]; [|reflexivity].
  rewrite rmatch_Seq.
  change (star_lazy any_unit
            (fun s' => rmatch field_close s'
                         (Some (firstn (length t - length s') t))
                         (fun s'' g => Some (s'', g))) t = 
          match leftmost field_close t with
          | Some (j, u) => Some (u, Some (firstn j t))
          | None => None
          end).
  rewrite (star_lazy_leftmost field_close).
  - destruct (leftmost field_close t) as [[j u]|] eqn:L; [|reflexivity].
    destruct (leftmost_spec _ _ _ _ L) as (Hle & (g & Hm) & _).
    rewrite simple_field_close, Hm, length_skipn_sub by exact Hle.
    reflexivity.
  - intros s'. rewrite simple_field_close.
    destruct (match_here field_close s') as [[u g]|]; split; congruence.
Qed.

Lemma html_here (s : jsstring) :
  match_here html_re s =
  match match_here html_open s with
  | Some (t, _) =>
      match leftmost html_close t with
      | Some (_, u) => Some (u, None)
      | None => None
      end
  | None => None
  end.
Proof.
  unfold match_here at 1. unfold html_re.
  rewrite rmatch_Seq. unfold html_open at 1. rewrite simple_LitI.
  fold html_open.
  destruct (match_here html_open s) as [[t g0]|]; [|reflexivity].
  rewrite rmatch_Seq.
  change (star_lazy any_unit
            (fun s' => rmatch html_close s' None (fun s'' g => Some (s'', g))) t =
          match leftmost html_close t with
          | Some (_, u) => Some (u, None)
          | None => None
          end).
  rewrite (star_lazy_leftmost html_close).
  - destruct (leftmost html_close t) as [[j u]|] eqn:L; [|reflexivity].
    destruct (leftmost_spec _ _ _ _ L) as (Hle & (g & Hm) & _).
    unfold html_close at 1. rewrite simple_LitI. fold html_close.
    rewrite Hm. reflexivity.
  - intros s'. unfold html_close at 1. rewrite simple_LitI. fold html_close.
    destruct (match_here html_close s') as [[u g]|]; split; congruence.
Qed.

(** The match of line 80 found by [search]: it starts at the leftmost
    opening part and group 1 runs to the first closing part after it. *)
Lemma search_htmlres (s : jsstring) (i j : nat) (t u : jsstring) :
  leftmost field_open s = Some (i, t) ->
  leftmost field_close t = Some (j, u) ->
  search htmlres_re s =
  Some (firstn (length (skipn i s) - length u) (skipn i s), Some (firstn j t)).
Proof.
  intros Ho Hc.
  destruct (leftmost_spec _ _ _ _ Ho) as (_ & (g & Hm) & Hn).
  apply search_at.
  - intros i' Hi. rewrite htmlres_here, (Hn i' Hi). reflexivity.
  - rewrite htmlres_here, Hm, Hc. reflexivity.
Qed.

Lemma search_htmlres_no_open (s : jsstring) :
  leftmost field_open s = None -> search htmlres_re s = None.
Proof.
  intros Ho. apply search_none. intros i.
  rewrite htmlres_here, (leftmost_none _ _ Ho i). reflexivity.
Qed.

(** The match of line 87 found by [search]. *)
Lemma search_html (s : jsstring) (i j : nat) (t u : jsstring) :
  leftmost html_open s = Some (i, t) ->
  leftmost html_close t = Some (j, u) ->
  search html_re s =
  Some (firstn (length (skipn i s) - length u) (skipn i s), None).
Proof.
  intros Ho Hc.
  destruct (leftmost_spec _ _ _ _ Ho) as (_ & (g & Hm) & Hn).
  apply search_at.
  - intros i' Hi. rewrite html_here, (Hn i' Hi). reflexivity.
  - rewrite html_here, Hm, Hc. reflexivity.
Qed.

End Expressions.

(** * The extractor *)

Section Extractor.

Lemma parse_without_json (aiResponse : jsstring) :
  no_json_result aiResponse = true ->
  parseAIResponse aiResponse = fallback aiResponse.
Proof.
  unfold no_json_result, parseAIResponse.
  destruct (json_attempt (cleanResponse aiResponse)); [discriminate | reflexivity..].
Qed.

Lemma json_attempt_truthy (clean : jsstring) (o : json) (v : value) :
  JSON_parse clean = Some o ->
  get_property o (lit "htmlres") = Got v ->
  truthy v = true ->
  json_attempt clean = Returned v.
Proof.
  intros Hp Hg Ht. unfold json_attempt. rewrite Hp, Hg, Ht. reflexivity.
Qed.

Lemma match_here_LitI_split (l : jsstring) :
  forall s t g,
    match_here (LitI l) s = Some (t, g) ->
    exists w, s = w ++ t /\ length w = length l.
Proof.
  induction l as [|x l IH]; intros s t g H.
  - unfold match_here in H. simpl in H. inversion H; subst.
    exists []. split; reflexivity.
  - unfold match_here in H. simpl in H.
    destruct s as [|c s']; [discriminate|].
    destruct (is_char_i x c); [|discriminate].
    destruct (IH s' t g H) as (w & -> & Hl).
    exists (c :: w). split; [reflexivity | simpl; congruence].
Qed.

(** Text returned by the last fallback: the opening tag, what lies before
    the first closing tag, and that closing tag. *)
Lemma html_span_length (s t u : jsstring) (i j : nat) :
  leftmost html_open s = Some (i, t) ->
  leftmost html_close t = Some (j, u) ->
  firstn (length (skipn i s) - length u) (skipn i s)
  = firstn (5 + j + 7) (skipn i s)
  /\ (5 + j + 7 <= length (skipn i s))%nat.
Proof.
  intros Ho Hc.
  destruct (leftmost_spec _ _ _ _ Ho) as (_ & (g1 & H1) & _).
  destruct (leftmost_spec _ _ _ _ Hc) as (Hj & (g2 & H2) & _).
  apply match_here_LitI_split in H1. destruct H1 as (w1 & E1 & L1).
  apply match_here_LitI_split in H2. destruct H2 as (w2 & E2 & L2).
  assert (Lt : length t = (j + length (skipn j t))%nat)
    by (rewrite length_skipn; lia).
  rewrite E2, length_app in Lt.
  rewrite E1, length_app.
  change (length (lit "<html")) with 5%nat in L1.
  change (length (lit "</html>")) with 7%nat in L2.
  split; [f_equal|]; lia.
Qed.

End Extractor.

(** * Claims on [parseAIResponse] *)

(** Once the text cleaned by lines 61 to 66 parses as JSON and its
    [htmlres] property is a non-empty string, [parseAIResponse] returns
    exactly that string, whatever the two regular-expression fallbacks
    would find in the reply. *)
Lemma json_value_preferred :
  forall (aiResponse : jsstring) (jsonResponse : json) (h : jsstring),
    JSON_parse (cleanResponse aiResponse) = Some jsonResponse ->
    get_property jsonResponse (lit "htmlres") = Got (Some (JStr h)) ->
    h <> [] ->
    parseAIResponse aiResponse = Ok (Some (JStr h)).
Proof.
  intros aiResponse o h Hp Hg Hh. unfold parseAIResponse.
  rewrite (json_attempt_truthy _ o (Some (JStr h)) Hp Hg); [reflexivity|].
  destruct h; [contradiction | reflexivity].
Qed.

Lemma json_value_preferred_witness :
  parseAIResponse reply_with_decoy = Ok (Some (JStr (lit "<p>x</p>")))
  /\ fallback reply_with_decoy <> Ok (Some (JStr (lit "<p>x</p>")))
  /\ search html_re reply_with_decoy = Some (lit "<html>zzz</html>", None).
Proof.
  split; [|split].
  - apply (json_value_preferred reply_with_decoy
             (JObj [(lit "htmlres", JStr (lit "<p>x</p>"));
                    (lit "note", JStr (lit "<html>zzz</html>"))])).
    + vm_compute. reflexivity.
    + vm_compute. reflexivity.
    + discriminate.
  - vm_compute. discriminate.
  - vm_compute. reflexivity.
Defined.

(** C1. The claim fails on the code.  The sample reply is a json-tagged
    fence with one space before it.  With its fence markers stripped and
    the result trimmed it is valid JSON whose [htmlres] is a non-empty
    string, so the claim promises that string.  In the code the expression
    of line 61 matches the space and the three backticks first and leaves
    the tag [json] in front of the object: [JSON.parse] throws, and what is
    returned is the capture of the field expression, with its backslashes,
    not the value of the field.  Without the space the same reply gives
    the value of the field. *)
Theorem space_before_fence_defeats_json_step :
  strip_fence_markers_spec reply_space_before_fence = reply_escaped_quotes
  /\ JSON_parse (strip_fence_markers_spec reply_space_before_fence)
     = Some (JObj [(lit "htmlres",
                    JStr (lit "<p class=" ++ [dquote] ++ lit "x" ++ [dquote]
                          ++ lit ">hi</p>"))])
  /\ cleanResponse reply_space_before_fence
     = lit "json" ++ [10] ++ reply_escaped_quotes
  /\ JSON_parse (cleanResponse reply_space_before_fence) = None
  /\ parseAIResponse reply_space_before_fence
     = Ok (Some (JStr (lit "<p class=" ++ [backslash; dquote] ++ lit "x"
                       ++ [backslash; dquote] ++ lit ">hi</p>")))
  /\ parseAIResponse reply_space_before_fence
     <> Ok (Some (JStr (lit "<p class=" ++ [dquote] ++ lit "x" ++ [dquote]
                        ++ lit ">hi</p>")))
  /\ parseAIResponse (fenced (lit "json") [10] reply_escaped_quotes [10])
     = Ok (Some (JStr (lit "<p class=" ++ [dquote] ++ lit "x" ++ [dquote]
                       ++ lit ">hi</p>"))).
Proof.
  repeat split; try (vm_compute; reflexivity).
  vm_compute. discriminate.
Qed.

(** C2 (as amended). When the JSON step hands nothing back and the reply
    holds the opening part of the field (the quoted key, a colon and a
    quote, with optional white space) followed somewhere by a quote,
    optional white space and a closing brace, [parseAIResponse] returns
    exactly the text between the leftmost opening part and the first such
    closing part after it. *)
Theorem field_text_recovered :
  forall (aiResponse t u : jsstring) (i j : nat),
    no_json_result aiResponse = true ->
    leftmost field_open aiResponse = Some (i, t) ->
    leftmost field_close t = Some (j, u) ->
    parseAIResponse aiResponse = Ok (Some (JStr (firstn j t))).
Proof.
  intros s t u i j Hj Ho Hc.
  rewrite (parse_without_json s Hj). unfold fallback.
  rewrite (search_htmlres s i j t u Ho Hc). reflexivity.
Qed.

Lemma field_text_recovered_witness :
  no_json_result reply_trailing_garbage = true
  /\ parseAIResponse reply_trailing_garbage = Ok (Some (JStr (lit "<p>hi</p>"))).
Proof.
  split; [vm_compute; reflexivity|].
  apply (field_text_recovered reply_trailing_garbage
           (lit "<p>hi</p>" ++ [dquote] ++ lit " } and some more text")
           (lit " and some more text") 2 9);
    vm_compute; reflexivity.
Defined.

(** C2 as stated fails: with the delimiters of the field intact but no
    closing brace after them, nothing is recovered. *)
Lemma field_without_brace_not_recovered :
  JSON_parse (cleanResponse reply_no_brace) = None
  /\ occurs ([dquote] ++ lit "htmlres" ++ [dquote] ++ lit ": " ++ [dquote]
             ++ lit "abc" ++ [dquote]) reply_no_brace = true
  /\ parseAIResponse reply_no_brace = Throw extraction_error
  /\ parseAIResponse reply_no_brace <> Ok (Some (JStr (lit "abc"))).
Proof.
  repeat split; try (vm_compute; reflexivity).
  vm_compute. discriminate.
Qed.

(** C3 (as amended). When the JSON step hands nothing back and the
    expression of the field does not match, and the reply holds [<html]
    followed somewhere by [</html>] (in any letter case), [parseAIResponse]
    returns the text from the leftmost [<html] to the end of the first
    [</html>] after it. *)
Theorem html_span_recovered :
  forall (aiResponse t u : jsstring) (i j : nat),
    no_json_result aiResponse = true ->
    search htmlres_re aiResponse = None ->
    leftmost html_open aiResponse = Some (i, t) ->
    leftmost html_close t = Some (j, u) ->
    parseAIResponse aiResponse
    = Ok (Some (JStr (firstn (5 + j + 7) (skipn i aiResponse)))).
Proof.
  intros s t u i j Hj Hf Ho Hc.
  rewrite (parse_without_json s Hj). unfold fallback.
  rewrite Hf, (search_html s i j t u Ho Hc).
  destruct (html_span_length s t u i j Ho Hc) as [-> _]. reflexivity.
Qed.

Lemma html_span_recovered_witness :
  no_json_result reply_prose_html = true
  /\ search htmlres_re reply_prose_html = None
  /\ parseAIResponse reply_prose_html
     = Ok (Some (JStr (lit "<HTML><body>Hi</body></html>"))).
Proof.
  split; [vm_compute; reflexivity|].
  split; [vm_compute; reflexivity|].
  apply (html_span_recovered reply_prose_html
           (lit "><body>Hi</body></html> bye") (lit " bye") 13 16);
    vm_compute; reflexivity.
Defined.

(** C3 as stated fails: with two closing tags the span returned ends at
    the first one, not at the last. *)
Lemma html_span_is_not_outermost :
  no_json_result reply_two_closings = true
  /\ search htmlres_re reply_two_closings = None
  /\ parseAIResponse reply_two_closings = Ok (Some (JStr (lit "<html>a</html>")))
  /\ parseAIResponse reply_two_closings <> Ok (Some (JStr reply_two_closings)).
Proof.
  repeat split; try (vm_compute; reflexivity).
  vm_compute. discriminate.
Qed.

(** C9. When the JSON step hands nothing back and neither expression
    matches, [parseAIResponse] throws the extraction error and returns
    nothing; it throws no other error, and throws only in that case. *)
Theorem nothing_recoverable :
  forall aiResponse : jsstring,
    (no_json_result aiResponse = true ->
     search htmlres_re aiResponse = None ->
     search html_re aiResponse = None ->
     parseAIResponse aiResponse = Throw extraction_error)
    /\ (forall message,
          parseAIResponse aiResponse = Throw message ->
          message = extraction_error
          /\ no_json_result aiResponse = true
          /\ search htmlres_re aiResponse = None
          /\ search html_re aiResponse = None).
Proof.
  intros s. split.
  - intros Hj Hf Hh. rewrite (parse_without_json s Hj).
    unfold fallback. rewrite Hf, Hh. reflexivity.
  - intros e. unfold parseAIResponse, no_json_result, fallback.
    destruct (json_attempt (cleanResponse s)); [discriminate| |];
      (destruct (search htmlres_re s) as [[w g]|]; [discriminate|]);
      (destruct (search html_re s) as [[w g]|]; [discriminate|]);
      intros H; inversion H; repeat split; reflexivity.
Qed.

Lemma nothing_recoverable_witness :
  no_json_result reply_nothing = true
  /\ search htmlres_re reply_nothing = None
  /\ search html_re reply_nothing = None
  /\ parseAIResponse reply_nothing = Throw extraction_error.
Proof.
  split; [vm_compute; reflexivity|].
  split; [vm_compute; reflexivity|].
  split; [vm_compute; reflexivity|].
  apply (proj1 (nothing_recoverable reply_nothing)); vm_compute; reflexivity.
Defined.

(** C10. When the cleaned reply parses as JSON and its [htmlres] property
    is the empty string, the JSON step does not return it: the result is
    that of the fallbacks on the reply.  On the sample reply, whose field
    is empty next to another field, both fallbacks fail and the extraction
    error is thrown. *)
Theorem empty_field_falls_through :
  (forall (aiResponse : jsstring) (jsonResponse : json),
      JSON_parse (cleanResponse aiResponse) = Some jsonResponse ->
      get_property jsonResponse (lit "htmlres") = Got (Some (JStr [])) ->
      parseAIResponse aiResponse = fallback aiResponse)
  /\ JSON_parse (cleanResponse reply_empty_field)
     = Some (JObj [(lit "htmlres", JStr []);
                   (lit "other", JNum (mkNumber false 1 0))])
  /\ parseAIResponse reply_empty_field = Throw extraction_error.
Proof.
  split; [|split; vm_compute; reflexivity].
  intros s o Hp Hg. unfold parseAIResponse, json_attempt.
  rewrite Hp, Hg. reflexivity.
Qed.

Lemma empty_field_falls_through_witness :
  parseAIResponse reply_empty_field = fallback reply_empty_field.
Proof.
  apply (proj1 empty_field_falls_through reply_empty_field
           (JObj [(lit "htmlres", JStr []);
                  (lit "other", JNum (mkNumber false 1 0))]));
    vm_compute; reflexivity.
Defined.

(** * The normaliser *)

Section Normaliser.

Lemma match_here_Lit (p : jsstring) :
  forall s,
    match_here (Lit p) s =
    if startsWith s p then Some (skipn (length p) s, None) else None.
Proof.
  induction p as [|x p IH]; intros s.
  - destruct s; reflexivity.
  - destruct s as [|c s']; [reflexivity|].
    unfold match_here. simpl. unfold is_char.
    destruct (c =? x); [|reflexivity].
    apply IH.
Qed.

Lemma replace_from_cons (r : re) (repl : jsstring) (c : code_unit) (s' : jsstring) :
  replace_from r repl O (c :: s') =
  match match_here r (c :: s') with
  | Some (rest, _) =>
      match (length (c :: s') - length rest)%nat with
      | O => repl ++ c :: replace_from r repl O s'
      | S n => repl ++ replace_from r repl n s'
      end
  | None => c :: replace_from r repl O s'
  end.
Proof. reflexivity. Qed.

Lemma replace_from_nil (r : re) (repl : jsstring) :
  replace_from r repl O [] =
  match match_here r [] with
  | Some _ => repl
  | None => []
  end.
Proof.
  simpl. destruct (match_here r []) as [[rest g]|]; reflexivity.
Qed.

(** A pattern that does not occur leaves the text as it is. *)
Lemma replace_unchanged (p repl : jsstring) :
  forall s, occurs p s = false -> replace_all (Lit p) repl s = s.
Proof.
  unfold replace_all. induction s as [|c s IH]; intros H.
  - rewrite replace_from_nil, match_here_Lit.
    cbn [occurs] in H. apply orb_false_elim in H. destruct H as [H _].
    rewrite H. reflexivity.
  - rewrite replace_from_cons, match_here_Lit.
    cbn [occurs] in H. apply orb_false_elim in H. destruct H as [H1 H2].
    rewrite H1, (IH H2). reflexivity.
Qed.

Lemma steps_unchanged (s : jsstring) :
  forall steps,
    forallb (fun st => negb (occurs (fst st) s)) steps = true ->
    fold_left apply_step steps s = s.
Proof.
  induction steps as [|st steps IH]; intros H; [reflexivity|].
  simpl in H. apply andb_prop in H. destruct H as [H1 H2].
  simpl. unfold apply_step at 2.
  rewrite replace_unchanged by (apply negb_true_iff; exact H1).
  apply IH. exact H2.
Qed.

Lemma decode_fold (s : jsstring) :
  decodeHTMLContent s = fold_left apply_step decode_steps s.
Proof. destruct s; [vm_compute; reflexivity | reflexivity]. Qed.

Lemma avoids_starts (x : code_unit) (p a t : jsstring) :
  avoids x a = true ->
  forall c a', a = c :: a' -> startsWith (a ++ t) (x :: p) = false.
Proof.
  intros H c a' ->. simpl in *. apply andb_prop in H. destruct H as [H _].
  apply negb_true_iff in H. rewrite H. reflexivity.
Qed.

Lemma occurs_app_avoids (x : code_unit) (p t : jsstring) :
  forall a, avoids x a = true -> occurs (x :: p) (a ++ t) = occurs (x :: p) t.
Proof.
  induction a as [|c a IH]; intros H; [reflexivity|].
  change ((c :: a) ++ t) with (c :: (a ++ t)).
  cbn [occurs]. change (c :: (a ++ t)) with ((c :: a) ++ t).
  rewrite (avoids_starts x p (c :: a) t H c a eq_refl).
  simpl in H. apply andb_prop in H. destruct H as [_ H].
  rewrite (IH H). reflexivity.
Qed.

Lemma occurs_avoids (x : code_unit) (p : jsstring) :
  forall a, avoids x a = true -> occurs (x :: p) a = false.
Proof.
  intros a H. rewrite <- (app_nil_r a), (occurs_app_avoids x p [] a H).
  reflexivity.
Qed.

Lemma replace_app_avoids (x : code_unit) (p repl t : jsstring) :
  forall a, avoids x a = true ->
    replace_all (Lit (x :: p)) repl (a ++ t)
    = a ++ replace_all (Lit (x :: p)) repl t.
Proof.
  unfold replace_all. induction a as [|c a IH]; intros H; [reflexivity|].
  change ((c :: a) ++ t) with (c :: (a ++ t)).
  rewrite replace_from_cons, match_here_Lit.
  change (c :: (a ++ t)) with ((c :: a) ++ t).
  rewrite (avoids_starts x p (c :: a) t H c a eq_refl).
  simpl in H. apply andb_prop in H. destruct H as [_ H].
  rewrite (IH H). reflexivity.
Qed.

End Normaliser.

(** * Claims on [decodeHTMLContent] *)

(** C5 as stated fails: the three code units backslash, backslash, [n]
    become a backslash and a line feed, not a backslash and the letter. *)
Lemma doubled_backslash_n_not_kept :
  decodeHTMLContent [backslash; backslash; 110] = [backslash; newline]
  /\ decodeHTMLContent [backslash; backslash; 110] <> [backslash; 110].
Proof.
  split; [vm_compute; reflexivity | vm_compute; discriminate].
Qed.

(** C6 (as amended). On a text in which none of the eleven patterns
    occurs, [decodeHTMLContent] changes nothing. *)
Theorem decode_fixes_normalized :
  forall s : jsstring, normalized s = true -> decodeHTMLContent s = s.
Proof.
  intros s H. rewrite decode_fold. apply steps_unchanged. exact H.
Qed.

Lemma decode_fixes_normalized_witness :
  normalized (lit "<p>Hi & bye</p>") = true
  /\ decodeHTMLContent (lit "<p>Hi & bye</p>") = lit "<p>Hi & bye</p>".
Proof.
  split; [vm_compute; reflexivity|].
  apply (decode_fixes_normalized (lit "<p>Hi & bye</p>")).
  vm_compute. reflexivity.
Defined.

(** C6 as stated fails: an output of [decodeHTMLContent] can still hold a
    pattern, and decoding it again changes it. *)
Lemma decode_not_idempotent :
  decodeHTMLContent (lit "&amp;quot;") = lit "&quot;"
  /\ decodeHTMLContent (decodeHTMLContent (lit "&amp;quot;")) = [dquote]
  /\ decodeHTMLContent (decodeHTMLContent (lit "&amp;quot;"))
     <> decodeHTMLContent (lit "&amp;quot;").
Proof.
  split; [vm_compute; reflexivity|].
  split; [vm_compute; reflexivity | vm_compute; discriminate].
Qed.

(** * The renderer *)

Section Renderer.

Variable E : engine.

Lemma trim_nil_length (s : jsstring) :
  trim s = [] ->
  (is_empty s || (length (trim s) =? 0)%nat) = true.
Proof. intros ->. apply orb_true_r. Qed.

Lemma trim_cons_length (s : jsstring) :
  trim s <> [] ->
  (is_empty s || (length (trim s) =? 0)%nat) = false.
Proof.
  intros H. destruct s as [|c s]; [exfalso; apply H; reflexivity|].
  simpl is_empty. destruct (trim (c :: s)); [contradiction | reflexivity].
Qed.

Lemma render_blank (htmlContent : jsstring) :
  trim htmlContent = [] ->
  render E htmlContent = (Throw (wrap_error empty_error), []).
Proof.
  intros H. unfold render, convertHTMLtoPDF, finally, try_catch.
  rewrite (trim_nil_length _ H). reflexivity.
Qed.

(** The run on a non-blank input, call by call. *)
Lemma render_nonblank (htmlContent : jsstring) :
  trim htmlContent <> [] ->
  render E htmlContent =
  let page := cleanHTML htmlContent in
  let c1 := [Launch launch_request] in
  let c2 := c1 ++ [NewPage] in
  let c3 := c2 ++ [SetContent page content_request] in
  let c4 := c3 ++ [Pdf pdf_request] in
  match on_launch E launch_request with
  | Throw e => (Throw (wrap_error e), c1)
  | Ok _ =>
      match on_newPage E with
      | Throw e => close_after E (Throw (wrap_error e)) c2
      | Ok _ =>
          match on_setContent E page content_request with
          | Throw e => close_after E (Throw (wrap_error e)) c3
          | Ok _ =>
              match on_pdf E page pdf_request with
              | Throw e => close_after E (Throw (wrap_error e)) c4
              | Ok pdfBuffer => close_after E (Ok pdfBuffer) c4
              end
          end
      end
  end.
Proof.
  intros H.
  unfold render, convertHTMLtoPDF, finally, try_catch, close_after, cleanHTML.
  rewrite (trim_cons_length _ H).
  unfold bind, await, set_browser, get_browser, ret, throw. cbn [browser calls app].
  destruct (on_launch E launch_request) as [u|e]; [|reflexivity].
  destruct (on_newPage E) as [u'|e].
  2:{ destruct (on_close E); reflexivity. }
  destruct (on_setContent E _ content_request) as [u''|e].
  2:{ destruct (on_close E); reflexivity. }
  destruct (on_pdf E _ pdf_request) as [buf|e];
    destruct (on_close E); reflexivity.
Qed.

Lemma close_after_calls (r : result bytes) (tr : list call) :
  snd (close_after E r tr) = tr ++ [Close].
Proof. unfold close_after. destruct (on_close E); reflexivity. Qed.

End Renderer.

(** * Claims on [convertHTMLtoPDF] *)

(** C4 (as amended). An input that is empty or holds white space only is
    refused with the empty-content error, wrapped by the [catch] block,
    and no call is made on the engine.  The test is made on the input as
    given, before fence markers are removed. *)
Theorem blank_input_refused :
  forall (E : engine) (htmlContent : jsstring),
    trim htmlContent = [] ->
    render E htmlContent = (Throw (wrap_error empty_error), []).
Proof. intros E htmlContent H. apply render_blank. exact H. Qed.

Lemma blank_input_refused_witness :
  trim (lit "   ") = []
  /\ render engine_ok (lit "   ")
     = (Throw (lit "Failed to convert HTML to PDF: HTML content is empty"), []).
Proof.
  split; [reflexivity|].
  apply (blank_input_refused engine_ok (lit "   ")). reflexivity.
Defined.

(** C4 as stated fails: an input made of a fence marker only is empty once
    trimmed and stripped, yet it passes the test; the engine is launched
    and the empty page is printed. *)
Lemma fence_only_input_rendered :
  cleanHTML (lit "```") = []
  /\ render engine_ok (lit "```")
     = (Ok (lit "%PDF-1.4"),
        [Launch launch_request; NewPage; SetContent [] content_request;
         Pdf pdf_request; Close])
  /\ In (Launch launch_request) (snd (render engine_ok (lit "```"))).
Proof.
  split; [vm_compute; reflexivity|].
  split; [vm_compute; reflexivity|].
  vm_compute. left. reflexivity.
Qed.

(** C7. Every PDF request made on the engine asks for format A4, printed
    backgrounds, four margins of 0.5in, the CSS page size preferred, and
    page range 1.  On a non-blank input whose launch, page creation and
    content load succeed, that request is made, and the buffer the engine
    answers is what the function returns.  Hence, with an engine that
    honours the page range, a layout of any number of pages gives a
    buffer of exactly one page, returned as a success: the function
    neither fails on the overflow nor returns more pages. *)
Theorem pdf_request_is_one_A4_page :
  forall (E : engine) (htmlContent : jsstring),
    (forall o, In (Pdf o) (snd (render E htmlContent)) ->
       format o = lit "A4"
       /\ printBackground o = true
       /\ top (margin o) = lit "0.5in"
       /\ right (margin o) = lit "0.5in"
       /\ bottom (margin o) = lit "0.5in"
       /\ left (margin o) = lit "0.5in"
       /\ preferCSSPageSize o = true
       /\ pageRanges o = lit "1")
    /\ (trim htmlContent <> [] ->
        on_launch E launch_request = Ok tt ->
        on_newPage E = Ok tt ->
        on_setContent E (cleanHTML htmlContent) content_request = Ok tt ->
        In (Pdf pdf_request) (snd (render E htmlContent))
        /\ forall pdfBuffer,
             on_pdf E (cleanHTML htmlContent) pdf_request = Ok pdfBuffer ->
             on_close E = Ok tt ->
             fst (render E htmlContent) = Ok pdfBuffer)
    /\ (forall (layout_pages : jsstring -> nat) (page_count : bytes -> nat),
        honours_first_page E layout_pages page_count ->
        trim htmlContent <> [] ->
        on_launch E launch_request = Ok tt ->
        on_newPage E = Ok tt ->
        on_setContent E (cleanHTML htmlContent) content_request = Ok tt ->
        (1 <= layout_pages (cleanHTML htmlContent))%nat ->
        forall pdfBuffer,
          on_pdf E (cleanHTML htmlContent) pdf_request = Ok pdfBuffer ->
          on_close E = Ok tt ->
          fst (render E htmlContent) = Ok pdfBuffer
          /\ page_count pdfBuffer = 1%nat).
Proof.
  intros E html. split; [|split].
  - assert (Hreq : forall o, Pdf o = Pdf pdf_request \/ False ->
                     format o = lit "A4" /\ printBackground o = true
                     /\ top (margin o) = lit "0.5in"
                     /\ right (margin o) = lit "0.5in"
                     /\ bottom (margin o) = lit "0.5in"
                     /\ left (margin o) = lit "0.5in"
                     /\ preferCSSPageSize o = true /\ pageRanges o = lit "1").
    { intros o [H|[]]. inversion H; subst. repeat split. }
    intros o. destruct (list_eq_dec N.eq_dec (trim html) []) as [Hb|Hn].
    + rewrite (render_blank E html Hb). intros [].
    + rewrite (render_nonblank E html Hn). cbv zeta.
      destruct (on_launch E launch_request) as [u|e].
      2:{ simpl. intros [H|[]]. discriminate. }
      destruct (on_newPage E) as [u'|e].
      2:{ rewrite close_after_calls. simpl.
          intros [H|[H|[H|[]]]]; discriminate. }
      destruct (on_setContent E _ content_request) as [u''|e].
      2:{ rewrite close_after_calls. simpl.
          intros [H|[H|[H|[H|[]]]]]; discriminate. }
      destruct (on_pdf E _ pdf_request) as [buf|e];
        rewrite close_after_calls; simpl;
        intros [H|[H|[H|[H|[H|[]]]]]]; try discriminate;
        apply Hreq; left; symmetry; exact H.
  - intros Hn Hl Hp Hs. rewrite (render_nonblank E html Hn). cbv zeta.
    rewrite Hl, Hp, Hs. split.
    + destruct (on_pdf E _ pdf_request) as [buf|e];
        rewrite close_after_calls; simpl; tauto.
    + intros buf Hb Hc. rewrite Hb. unfold close_after. rewrite Hc.
      reflexivity.
  - intros layout_pages page_count Hh Hn Hl Hp Hs Hlay buf Hb Hc. split.
    + rewrite (render_nonblank E html Hn). cbv zeta.
      rewrite Hl, Hp, Hs, Hb. unfold close_after. rewrite Hc. reflexivity.
    + exact (Hh (cleanHTML html) pdf_request buf Hb eq_refl Hlay).
Qed.

Lemma pdf_request_is_one_A4_page_witness :
  honours_first_page engine_paged sample_layout_pages sample_page_count
  /\ sample_layout_pages (cleanHTML document_long) = 4%nat
  /\ In (Pdf pdf_request) (snd (render engine_paged document_long))
  /\ fst (render engine_paged document_long) = Ok [80]
  /\ sample_page_count [80] = 1%nat.
Proof.
  assert (Hh : honours_first_page engine_paged sample_layout_pages
                 sample_page_count).
  { intros html o buf H Hr _. simpl in H. rewrite Hr in H.
    inversion H. reflexivity. }
  assert (Hn : trim document_long <> []) by (vm_compute; discriminate).
  split; [exact Hh|]. split; [vm_compute; reflexivity|].
  destruct (pdf_request_is_one_A4_page engine_paged document_long)
    as (_ & H2 & H3).
  split; [exact (proj1 (H2 Hn eq_refl eq_refl eq_refl))|].
  apply (H3 sample_layout_pages sample_page_count Hh Hn eq_refl eq_refl
            eq_refl);
    vm_compute; try reflexivity; lia.
Defined.

(** C8. If the engine was launched during the call, [close] is called
    exactly once and is the last call made, whichever way the call ends;
    if it was not launched, [close] is never called. *)
Theorem browser_closed_iff_launched :
  forall (E : engine) (htmlContent : jsstring),
    (launched E (snd (render E htmlContent)) ->
     exists before,
       snd (render E htmlContent) = before ++ [Close] /\ ~ In Close before)
    /\ (~ launched E (snd (render E htmlContent)) ->
        ~ In Close (snd (render E htmlContent))).
Proof.
  intros E html. unfold launched.
  destruct (list_eq_dec N.eq_dec (trim html) []) as [Hb|Hn].
  - rewrite (render_blank E html Hb). simpl. split.
    + intros [[] _].
    + intros _ [].
  - rewrite (render_nonblank E html Hn). cbv zeta.
    destruct (on_launch E launch_request) as [[]|e] eqn:Hl.
    2:{ split.
        - intros [_ H]. discriminate H.
        - intros _. simpl. intros [H|[]]. discriminate. }
    assert (Hclosed :
      forall r tr,
        In (Launch launch_request) tr -> ~ In Close tr ->
        (In (Launch launch_request) (snd (close_after E r tr)) /\
         Ok tt = Ok tt (A := unit) ->
         exists before,
           snd (close_after E r tr) = before ++ [Close] /\ ~ In Close before)
        /\ (~ (In (Launch launch_request) (snd (close_after E r tr)) /\
               Ok tt = Ok tt (A := unit)) ->
            ~ In Close (snd (close_after E r tr)))).
    { intros r tr Hin Hno. rewrite close_after_calls. split.
      - intros _. exists tr. split; [reflexivity | exact Hno].
      - intros Hnot. exfalso. apply Hnot. split; [|reflexivity].
        apply in_or_app. left. exact Hin. }
    destruct (on_newPage E) as [u'|e].
    2:{ apply Hclosed; simpl; [tauto|].
        intros [H|[H|[]]]; discriminate. }
    destruct (on_setContent E _ content_request) as [u''|e].
    2:{ apply Hclosed; simpl; [tauto|].
        intros [H|[H|[H|[]]]]; discriminate. }
    destruct (on_pdf E _ pdf_request) as [buf|e];
      (apply Hclosed; simpl; [tauto|]);
      intros [H|[H|[H|[H|[]]]]]; discriminate.
Qed.

Lemma browser_closed_iff_launched_witness :
  launched engine_load_fails
    (snd (render engine_load_fails (lit "<p>x</p>")))
  /\ exists before,
       snd (render engine_load_fails (lit "<p>x</p>")) = before ++ [Close]
       /\ ~ In Close before.
Proof.
  assert (Hl : launched engine_load_fails
                 (snd (render engine_load_fails (lit "<p>x</p>")))).
  { split; [vm_compute; left; reflexivity | reflexivity]. }
  split; [exact Hl|].
  exact (proj1 (browser_closed_iff_launched engine_load_fails (lit "<p>x</p>")) Hl).
Defined.

(** * [JSON.parse] never runs out of its recursion budget *)

Section ParserBudget.

Lemma skip_ws_le (s : jsstring) : (length (skip_ws s) <= length s)%nat.
Proof.
  induction s as [|c s IH]; simpl; [lia|].
  destruct (is_json_ws c); simpl; lia.
Qed.

Lemma startsWith_length (p : jsstring) :
  forall s, startsWith s p = true -> (length p <= length s)%nat.
Proof.
  induction p as [|x p IH]; intros s H; simpl; [lia|].
  destruct s as [|c s]; simpl in H; [discriminate|].
  apply andb_prop in H. destruct H as [_ H]. apply IH in H. simpl. lia.
Qed.

Lemma keyword_shorter (w : jsstring) (v v' : json) (s r : jsstring) :
  w <> [] -> keyword w v s = POk (v', r) -> (length r < length s)%nat.
Proof.
  intros Hw H. unfold keyword in H.
  destruct (startsWith s w) eqn:E; [|discriminate].
  inversion H; subst. apply startsWith_length in E.
  rewrite length_skipn. destruct w; [contradiction|]. simpl in *. lia.
Qed.

Lemma push_unit_some c o str rest :
  push_unit c o = Some (str, rest) ->
  exists str', o = Some (str', rest).
Proof.
  destruct o as [[a b]|]; simpl; intros H; [|discriminate].
  inversion H; subst. eexists. reflexivity.
Qed.

Lemma parse_chars_shorter :
  forall n s str rest,
    (length s <= n)%nat ->
    parse_chars s = Some (str, rest) -> (length rest < length s)%nat.
Proof.
  induction n as [|n IH]; intros s str rest Hn H.
  - destruct s; [discriminate | simpl in Hn; lia].
  - destruct s as [|c r]; [discriminate|]. simpl in H.
    destruct (c =? 34).
    { inversion H; subst. simpl. lia. }
    destruct (c =? 92).
    + destruct r as [|e r1]; [discriminate|].
      destruct (e =? 117).
      * destruct r1 as [|a [|b [|c3 [|d r2]]]]; try discriminate.
        destruct (hex4 a b c3 d); [|discriminate].
        apply push_unit_some in H. destruct H as (str' & H).
        apply IH in H; simpl in *; lia.
      * destruct (simple_escape e); [|discriminate].
        apply push_unit_some in H. destruct H as (str' & H).
        apply IH in H; simpl in *; lia.
    + destruct (c <? 32); [discriminate|].
      apply push_unit_some in H. destruct H as (str' & H).
      apply IH in H; simpl in *; lia.
Qed.

Lemma digits_le :
  forall s acc n v m rest,
    digits acc n s = (v, m, rest) -> (length rest <= length s)%nat.
Proof.
  induction s as [|c s IH]; intros acc n v m rest H; simpl in H.
  - inversion H; subst. simpl. lia.
  - destruct (is_digit c).
    + apply IH in H. simpl. lia.
    + inversion H; subst. simpl. lia.
Qed.

Lemma parse_int_shorter s v rest :
  parse_int s = Some (v, rest) -> (length rest < length s)%nat.
Proof.
  unfold parse_int. destruct s as [|c r]; [discriminate|].
  destruct (c =? 48).
  - intros H. inversion H; subst. simpl. lia.
  - destruct (is_digit c); [|discriminate].
    destruct (digits (c - 48) 1 r) as [[v' m] rest'] eqn:D.
    intros H. inversion H; subst. apply digits_le in D. simpl. lia.
Qed.

Lemma parse_frac_le m s v n rest :
  parse_frac m s = Some (v, n, rest) -> (length rest <= length s)%nat.
Proof.
  unfold parse_frac. destruct s as [|c r].
  - intros H. inversion H; subst. simpl. lia.
  - destruct (c =? 46).
    + destruct (digits m 0 r) as [[v' k] rest'] eqn:D.
      destruct k; [discriminate|].
      intros H. inversion H; subst. apply digits_le in D. simpl. lia.
    + intros H. inversion H; subst. simpl. lia.
Qed.

Lemma parse_exp_le s e rest :
  parse_exp s = Some (e, rest) -> (length rest <= length s)%nat.
Proof.
  unfold parse_exp. destruct s as [|c r].
  - intros H. inversion H; subst. simpl. lia.
  - destruct ((c =? 101) || (c =? 69)).
    + destruct r as [|x r'].
      * simpl. discriminate.
      * destruct (x =? 43).
        { destruct (digits 0 0 r') as [[v k] rest'] eqn:D.
          destruct k; [discriminate|].
          intros H. inversion H; subst. apply digits_le in D. simpl. lia. }
        destruct (x =? 45).
        { destruct (digits 0 0 r') as [[v k] rest'] eqn:D.
          destruct k; [discriminate|].
          intros H. inversion H; subst. apply digits_le in D. simpl. lia. }
        destruct (digits 0 0 (x :: r')) as [[v k] rest'] eqn:D.
        destruct k; [discriminate|].
        intros H. inversion H; subst. apply digits_le in D. simpl in *. lia.
    + intros H. inversion H; subst. simpl. lia.
Qed.

Lemma parse_number_shorter s n rest :
  parse_number s = Some (n, rest) -> (length rest < length s)%nat.
Proof.
  unfold parse_number.
  set (p := match s with
            | c :: r => if c =? 45 then (true, r) else (false, s)
            | [] => (false, s)
            end).
  assert (Hp : (length (snd p) <= length s)%nat).
  { subst p. destruct s as [|c r]; simpl; [lia|].
    destruct (c =? 45); simpl; lia. }
  destruct p as [sg s1]. simpl in Hp.
  destruct (parse_int s1) as [[i s2]|] eqn:Hi; [|discriminate].
  destruct (parse_frac i s2) as [[[m nf] s3]|] eqn:Hf; [|discriminate].
  destruct (parse_exp s3) as [[e s4]|] eqn:He; [|discriminate].
  intros H. inversion H; subst.
  apply parse_int_shorter in Hi. apply parse_frac_le in Hf.
  apply parse_exp_le in He. lia.
Qed.

Local Arguments keyword : simpl never.
Local Arguments parse_number : simpl never.
Local Arguments parse_chars : simpl never.

(** Every successful parsing function consumes at least one code unit. *)
Lemma parse_shorter :
  forall f,
    (forall s v r, parse_value f s = POk (v, r) -> (length r < length s)%nat)
    /\ (forall s acc v r,
          parse_elements f s acc = POk (v, r) -> (length r < length s)%nat)
    /\ (forall s acc v r,
          parse_members f s acc = POk (v, r) -> (length r < length s)%nat).
Proof.
  induction f as [|f (IHv & IHe & IHm)].
  - repeat split; intros; discriminate.
  - split; [|split].
    + intros s v r H. simpl in H.
      destruct s as [|c r0]; [discriminate|].
      destruct (c =? 123).
      { pose proof (skip_ws_le r0) as W.
        destruct (skip_ws r0) as [|x r1]; [discriminate|].
        destruct (x =? 125).
        - inversion H; subst. simpl in *. lia.
        - apply IHm in H. simpl in *. lia. }
      destruct (c =? 91).
      { pose proof (skip_ws_le r0) as W.
        destruct (skip_ws r0) as [|x r1]; [discriminate|].
        destruct (x =? 93).
        - inversion H; subst. simpl in *. lia.
        - apply IHe in H. simpl in *. lia. }
      destruct (c =? 34).
      { destruct (parse_chars r0) as [[str rest]|] eqn:P; [|discriminate].
        inversion H; subst.
        apply (parse_chars_shorter _ _ _ _ (le_n _)) in P. simpl. lia. }
      destruct (c =? 116).
      { apply keyword_shorter in H; [exact H | discriminate]. }
      destruct (c =? 102).
      { apply keyword_shorter in H; [exact H | discriminate]. }
      destruct (c =? 110).
      { apply keyword_shorter in H; [exact H | discriminate]. }
      destruct (parse_number (c :: r0)) as [[n rest]|] eqn:P; [|discriminate].
      inversion H; subst. apply parse_number_shorter in P. exact P.
    + intros s acc v r H. simpl in H.
      destruct (parse_value f s) as [[v1 r1]| |] eqn:V; try discriminate.
      apply IHv in V.
      pose proof (skip_ws_le r1) as W.
      destruct (skip_ws r1) as [|x r2]; [discriminate|].
      destruct (x =? 44).
      { apply IHe in H. pose proof (skip_ws_le r2). simpl in *. lia. }
      destruct (x =? 93); [|discriminate].
      inversion H; subst. simpl in *. lia.
    + intros s acc v r H. simpl in H.
      destruct s as [|q r0]; [discriminate|].
      destruct (q =? 34); [|discriminate].
      destruct (parse_chars r0) as [[key r1]|] eqn:P; [|discriminate].
      apply (parse_chars_shorter _ _ _ _ (le_n _)) in P.
      pose proof (skip_ws_le r1) as W1.
      destruct (skip_ws r1) as [|x r2]; [discriminate|].
      destruct (x =? 58); [|discriminate].
      destruct (parse_value f (skip_ws r2)) as [[v1 r3]| |] eqn:V;
        try discriminate.
      apply IHv in V. pose proof (skip_ws_le r2) as W2.
      pose proof (skip_ws_le r3) as W3.
      destruct (skip_ws r3) as [|y r4]; [discriminate|].
      destruct (y =? 44).
      { apply IHm in H. pose proof (skip_ws_le r4). simpl in *. lia. }
      destruct (y =? 125); [|discriminate].
      inversion H; subst. simpl in *. lia.
Qed.

(** A budget of twice the length of the input, plus one, is enough. *)
Lemma parse_budget :
  forall f,
    (forall s, (2 * length s + 1 <= f)%nat -> parse_value f s <> PFuel)
    /\ (forall s acc,
          (2 * length s + 2 <= f)%nat -> parse_elements f s acc <> PFuel)
    /\ (forall s acc,
          (2 * length s + 2 <= f)%nat -> parse_members f s acc <> PFuel).
Proof.
  induction f as [|f (IHv & IHe & IHm)].
  - repeat split; intros; lia.
  - split; [|split].
    + intros s Hf. simpl.
      destruct s as [|c r0]; [discriminate|].
      destruct (c =? 123).
      { pose proof (skip_ws_le r0) as W.
        destruct (skip_ws r0) as [|x r1]; [discriminate|].
        destruct (x =? 125); [discriminate|].
        apply IHm. simpl in *. lia. }
      destruct (c =? 91).
      { pose proof (skip_ws_le r0) as W.
        destruct (skip_ws r0) as [|x r1]; [discriminate|].
        destruct (x =? 93); [discriminate|].
        apply IHe. simpl in *. lia. }
      destruct (c =? 34).
      { destruct (parse_chars r0) as [[str rest]|]; discriminate. }
      unfold keyword.
      destruct (c =? 116).
      { destruct (startsWith (c :: r0) (lit "true")); discriminate. }
      destruct (c =? 102).
      { destruct (startsWith (c :: r0) (lit "false")); discriminate. }
      destruct (c =? 110).
      { destruct (startsWith (c :: r0) (lit "null")); discriminate. }
      destruct (parse_number (c :: r0)) as [[n rest]|]; discriminate.
    + intros s acc Hf. simpl.
      destruct (parse_value f s) as [[v1 r1]| |] eqn:V; [|discriminate|].
      * apply (proj1 (parse_shorter f)) in V.
        pose proof (skip_ws_le r1) as W.
        destruct (skip_ws r1) as [|x r2]; [discriminate|].
        destruct (x =? 44).
        { apply IHe. pose proof (skip_ws_le r2). simpl in *. lia. }
        destruct (x =? 93); discriminate.
      * exfalso. apply (IHv s); [lia | exact V].
    + intros s acc Hf. simpl.
      destruct s as [|q r0]; [discriminate|].
      destruct (q =? 34); [|discriminate].
      destruct (parse_chars r0) as [[key r1]|] eqn:P; [|discriminate].
      apply (parse_chars_shorter _ _ _ _ (le_n _)) in P.
      pose proof (skip_ws_le r1) as W1.
      destruct (skip_ws r1) as [|x r2]; [discriminate|].
      destruct (x =? 58); [|discriminate].
      pose proof (skip_ws_le r2) as W2.
      destruct (parse_value f (skip_ws r2)) as [[v1 r3]| |] eqn:V;
        [|discriminate|].
      * apply (proj1 (parse_shorter f)) in V.
        pose proof (skip_ws_le r3) as W3.
        destruct (skip_ws r3) as [|y r4]; [discriminate|].
        destruct (y =? 44).
        { apply IHm. pose proof (skip_ws_le r4). simpl in *. lia. }
        destruct (y =? 125); discriminate.
      * exfalso. apply (IHv (skip_ws r2)); [simpl in *; lia | exact V].
Qed.

(** [JSON_parse] therefore answers [None] only for text outside the JSON
    grammar. *)
Lemma JSON_parse_run_total (s : jsstring) : JSON_parse_run s <> PFuel.
Proof.
  unfold JSON_parse_run, JSON_parse_fuel.
  pose proof (skip_ws_le s) as W.
  destruct (parse_value (2 * length s + 1) (skip_ws s)) as [[v rest]| |] eqn:V.
  - destruct (skip_ws rest); discriminate.
  - discriminate.
  - exfalso. apply (proj1 (parse_budget (2 * length s + 1)) (skip_ws s));
      [lia | exact V].
Qed.

End ParserBudget.

(** * Further properties: trimming and fence markers *)

Section Trimming.

Lemma drop_while_head (p : code_unit -> bool) (s : jsstring) :
  drop_while p s = [] \/
  exists c r, drop_while p s = c :: r /\ p c = false.
Proof.
  induction s as [|c s IH]; simpl; [left; reflexivity|].
  destruct (p c) eqn:E; [exact IH|].
  right. exists c, s. split; [reflexivity | exact E].
Qed.

Lemma drop_while_snoc (p : code_unit -> bool) (c : code_unit) :
  p c = false ->
  forall l, drop_while p (l ++ [c]) = drop_while p l ++ [c].
Proof.
  intros Hc l. induction l as [|x l IH]; simpl.
  - rewrite Hc. reflexivity.
  - destruct (p x); [exact IH | reflexivity].
Qed.

Lemma drop_while_all (p : code_unit -> bool) (w t : jsstring) :
  forallb p w = true -> drop_while p (w ++ t) = drop_while p t.
Proof.
  induction w as [|x w IH]; intros H; [reflexivity|].
  simpl in H. apply andb_prop in H. destruct H as [Hx Hw].
  simpl. rewrite Hx. apply IH. exact Hw.
Qed.

Lemma trimmed_cons (c : code_unit) (r : jsstring) :
  trimmed (c :: r) = true ->
  is_space c = false /\
  exists z l, rev (c :: r) = z :: l /\ is_space z = false.
Proof.
  unfold trimmed. intros H. apply andb_prop in H. destruct H as [H1 H2].
  apply negb_true_iff in H1. split; [exact H1|].
  destruct (rev (c :: r)) as [|z l] eqn:E.
  - apply (f_equal (@length _)) in E. rewrite length_rev in E. discriminate.
  - apply negb_true_iff in H2. exists z, l. split; [reflexivity | exact H2].
Qed.

Lemma trim_of_trimmed (s : jsstring) : trimmed s = true -> trim s = s.
Proof.
  destruct s as [|c r]; [reflexivity|]. intros H.
  destruct (trimmed_cons c r H) as (Hc & z & l & Hr & Hz).
  unfold trim. replace (drop_while is_space (c :: r)) with (c :: r)
    by (simpl; rewrite Hc; reflexivity).
  rewrite Hr. simpl. rewrite Hz. rewrite <- Hr. apply rev_involutive.
Qed.

Lemma trim_is_trimmed (s : jsstring) : trimmed (trim s) = true.
Proof.
  unfold trim.
  destruct (drop_while_head is_space s) as [E | (c & r & E & Hc)].
  - rewrite E. reflexivity.
  - rewrite E. cbn [rev]. rewrite (drop_while_snoc is_space c Hc).
    rewrite rev_app_distr. cbn [rev app]. unfold trimmed.
    rewrite Hc. cbn [negb andb].
    replace (rev (c :: rev (drop_while is_space (rev r))))
      with (drop_while is_space (rev r) ++ [c])
      by (cbn [rev]; rewrite rev_involutive; reflexivity).
    destruct (drop_while_head is_space (rev r)) as [E' | (z & l & E' & Hz)];
      rewrite E'; simpl; [rewrite Hc | rewrite Hz]; reflexivity.
Qed.

Lemma avoids_app (x : code_unit) (a b : jsstring) :
  avoids x (a ++ b) = avoids x a && avoids x b.
Proof. unfold avoids. apply forallb_app. Qed.

Lemma avoids_rev (x : code_unit) (s : jsstring) :
  avoids x (rev s) = avoids x s.
Proof.
  induction s as [|c s IH]; [reflexivity|].
  cbn [rev]. rewrite avoids_app, IH. simpl.
  rewrite andb_true_r. apply andb_comm.
Qed.

Lemma avoids_drop_while (x : code_unit) (p : code_unit -> bool) (s : jsstring) :
  avoids x s = true -> avoids x (drop_while p s) = true.
Proof.
  induction s as [|c s IH]; intros H; [reflexivity|].
  simpl. destruct (p c); [|exact H].
  simpl in H. apply andb_prop in H. apply IH. apply H.
Qed.

Lemma avoids_trim (x : code_unit) (s : jsstring) :
  avoids x s = true -> avoids x (trim s) = true.
Proof.
  intros H. unfold trim. rewrite avoids_rev.
  apply avoids_drop_while. rewrite avoids_rev.
  apply avoids_drop_while. exact H.
Qed.

End Trimming.

Section Fences.

Lemma star_greedy_total (p : code_unit -> bool) (K : jsstring -> option mstate) :
  (forall t, K t <> None) ->
  forall s, star_greedy p K s = K (drop_while p s).
Proof.
  intros HK s. induction s as [|c r IH]; simpl; [reflexivity|].
  destruct (p c); [|reflexivity].
  rewrite IH. destruct (K (drop_while p r)) eqn:E; [reflexivity|].
  exfalso. exact (HK _ E).
Qed.

Lemma fence_json_shape : fence_json_re = fence_re (lit "json").
Proof. reflexivity. Qed.

Lemma fence_html_shape : fence_html_re = fence_re (lit "html").
Proof. reflexivity. Qed.

Lemma startsWith_avoids (x : code_unit) (p s : jsstring) :
  avoids x s = true -> startsWith s (x :: p) = false.
Proof.
  destruct s as [|c s]; [reflexivity|]. simpl. intros H.
  apply andb_prop in H. destruct H as [H _].
  apply negb_true_iff in H. rewrite H. reflexivity.
Qed.

Lemma startsWith_app (p t : jsstring) : startsWith (p ++ t) p = true.
Proof.
  induction p as [|x p IH]; [destruct t; reflexivity|].
  simpl. rewrite N.eqb_refl. exact IH.
Qed.

Lemma skipn_app_exact (p t : jsstring) : skipn (length p) (p ++ t) = t.
Proof. induction p as [|x p IH]; [reflexivity | exact IH]. Qed.

(** Where a fence expression matches at the front of a text, and what it
    leaves. *)
Lemma fence_here (tag s : jsstring) :
  match_here (fence_re tag) s =
  if startsWith s (lit "```" ++ tag)
  then Some (drop_while is_space (skipn (length (lit "```" ++ tag)) s), None)
  else if startsWith (drop_while is_space s) (lit "```")
       then Some (skipn 3 (drop_while is_space s), None)
       else None.
Proof.
  unfold fence_re.
  change (match_here (Alt (Seq (Lit (lit "```" ++ tag)) (StarG is_space))
                          (Seq (StarG is_space) (Lit (lit "```")))) s)
    with (match match_here (Seq (Lit (lit "```" ++ tag)) (StarG is_space)) s with
          | Some m => Some m
          | None => match_here (Seq (StarG is_space) (Lit (lit "```"))) s
          end).
  assert (H1 : match_here (Seq (Lit (lit "```" ++ tag)) (StarG is_space)) s =
               if startsWith s (lit "```" ++ tag)
               then Some (drop_while is_space
                            (skipn (length (lit "```" ++ tag)) s), None)
               else None).
  { unfold match_here at 1. rewrite rmatch_Seq, simple_Lit, match_here_Lit.
    destruct (startsWith s (lit "```" ++ tag)); [|reflexivity].
    simpl rmatch. apply star_greedy_total. discriminate. }
  assert (H2 : match_here (Seq (StarG is_space) (Lit (lit "```"))) s =
               if startsWith (drop_while is_space s) (lit "```")
               then Some (skipn 3 (drop_while is_space s), None)
               else None).
  { rewrite match_here_star_then.
    - apply match_here_Lit.
    - apply simple_Lit.
    - intros c t Hc. rewrite match_here_Lit.
      change (lit "```") with (backtick :: lit "``").
      cbn [startsWith].
      pose proof (space_is_not backtick eq_refl c Hc) as Hq.
      unfold is_char in Hq. rewrite Hq. reflexivity. }
  rewrite H1, H2.
  destruct (startsWith s (lit "```" ++ tag)); reflexivity.
Qed.

Lemma fence_none_plain (tag s : jsstring) :
  avoids backtick s = true -> match_here (fence_re tag) s = None.
Proof.
  intros H. rewrite fence_here.
  change (lit "```" ++ tag) with (backtick :: lit "``" ++ tag).
  rewrite (startsWith_avoids backtick _ s H).
  change (lit "```") with (backtick :: lit "``").
  rewrite (startsWith_avoids backtick _ _
             (avoids_drop_while backtick is_space s H)).
  reflexivity.
Qed.

(** Text without a backtick holds no fence marker. *)
Lemma strip_plain (tag : jsstring) :
  forall s, avoids backtick s = true -> replace_all (fence_re tag) [] s = s.
Proof.
  unfold replace_all. induction s as [|c s IH]; intros H.
  - rewrite replace_from_nil, (fence_none_plain tag [] H). reflexivity.
  - rewrite replace_from_cons, (fence_none_plain tag _ H).
    simpl in H. apply andb_prop in H. destruct H as [_ H].
    rewrite (IH H). reflexivity.
Qed.

Lemma drop_while_lands (b0 : jsstring) (z : code_unit) (tail : jsstring) :
  avoids backtick (b0 ++ [z]) = true -> is_space z = false ->
  avoids backtick (firstn 1 (drop_while is_space ((b0 ++ [z]) ++ tail))) = true
  /\ drop_while is_space ((b0 ++ [z]) ++ tail) <> [].
Proof.
  induction b0 as [|c b0 IH]; intros H Hz.
  - simpl. rewrite Hz. simpl in *. split; [exact H | discriminate].
  - simpl in H. apply andb_prop in H. destruct H as [Hc H].
    simpl. destruct (is_space c).
    + apply IH; assumption.
    + simpl. rewrite Hc. split; [reflexivity | discriminate].
Qed.

Lemma fence_none_inside (tag b0 : jsstring) (z : code_unit) (tail : jsstring) :
  avoids backtick (b0 ++ [z]) = true -> is_space z = false ->
  match_here (fence_re tag) ((b0 ++ [z]) ++ tail) = None.
Proof.
  intros H Hz. rewrite fence_here.
  change (lit "```" ++ tag) with (backtick :: lit "``" ++ tag).
  assert (Hs : startsWith ((b0 ++ [z]) ++ tail) (backtick :: lit "``" ++ tag)
               = false).
  { destruct b0 as [|c b0]; simpl in H; apply andb_prop in H;
      destruct H as [H _]; apply negb_true_iff in H; simpl; rewrite H;
      reflexivity. }
  rewrite Hs.
  destruct (drop_while_lands b0 z tail H Hz) as [Hl Hne].
  destruct (drop_while is_space ((b0 ++ [z]) ++ tail)) as [|x r];
    [contradiction|].
  simpl in Hl. rewrite andb_true_r in Hl. apply negb_true_iff in Hl.
  change (lit "```") with (backtick :: lit "``"). cbn [startsWith].
  rewrite Hl. reflexivity.
Qed.

(** The scan passes over a body that holds no backtick and ends in a
    code unit other than white space. *)
Lemma strip_passes_body (tag : jsstring) (z : code_unit) (tail : jsstring) :
  is_space z = false ->
  forall b0,
    avoids backtick (b0 ++ [z]) = true ->
    replace_from (fence_re tag) [] O ((b0 ++ [z]) ++ tail)
    = (b0 ++ [z]) ++ replace_from (fence_re tag) [] O tail.
Proof.
  intros Hz. induction b0 as [|c b0 IH]; intros H.
  - pose proof (fence_none_inside tag [] z tail H Hz) as Hn.
    simpl app in *. rewrite replace_from_cons, Hn. reflexivity.
  - pose proof (fence_none_inside tag (c :: b0) z tail H Hz) as Hn.
    simpl app in *. rewrite replace_from_cons, Hn.
    simpl in H. apply andb_prop in H. destruct H as [_ H].
    rewrite (IH H). reflexivity.
Qed.

Lemma replace_from_skip (r : re) (repl t : jsstring) :
  forall a, replace_from r repl (length a) (a ++ t) = replace_from r repl O t.
Proof.
  induction a as [|c a IH]; [reflexivity|]. simpl. exact IH.
Qed.

(** One step of the global replacement at a position that matches. *)
Lemma replace_from_match (r : re) (repl : jsstring) (c : code_unit)
    (pre rest : jsstring) (g : option jsstring) :
  match_here r ((c :: pre) ++ rest) = Some (rest, g) ->
  replace_from r repl O ((c :: pre) ++ rest)
  = repl ++ replace_from r repl O rest.
Proof.
  intros H. change ((c :: pre) ++ rest) with (c :: (pre ++ rest)) in *.
  rewrite replace_from_cons, H.
  replace (length (c :: pre ++ rest) - length rest)%nat with (S (length pre))
    by (cbn [length]; rewrite length_app; lia).
  rewrite replace_from_skip. reflexivity.
Qed.

Lemma nonempty_last (s : jsstring) :
  s <> [] -> exists b0 z, s = b0 ++ [z].
Proof.
  intros H. destruct (exists_last H) as (b0 & z & E). exists b0, z. exact E.
Qed.

Lemma trimmed_last (b0 : jsstring) (z : code_unit) :
  trimmed (b0 ++ [z]) = true -> is_space z = false.
Proof.
  unfold trimmed. intros H. apply andb_prop in H. destruct H as [_ H].
  rewrite rev_app_distr in H. simpl in H. apply negb_true_iff in H. exact H.
Qed.

Lemma trimmed_head (s : jsstring) :
  trimmed s = true -> forall t, drop_while is_space (s ++ t) = s ++ t \/ s = [].
Proof.
  intros H t. destruct s as [|c r]; [right; reflexivity|]. left.
  destruct (trimmed_cons c r H) as (Hc & _). simpl. rewrite Hc. reflexivity.
Qed.

(** Stripping a text wrapped in a tagged fence leaves its body. *)
Lemma strip_fenced (tag ws1 body ws2 : jsstring) :
  tag <> [] ->
  all_space ws1 = true -> all_space ws2 = true ->
  avoids backtick body = true -> body <> [] -> trimmed body = true ->
  replace_all (fence_re tag) [] (fenced tag ws1 body ws2) = body.
Proof.
  intros Htag H1 H2 Hb Hne Ht. unfold replace_all, fenced.
  destruct (nonempty_last body Hne) as (b0 & z & ->).
  pose proof (trimmed_last b0 z Ht) as Hz.
  (* the opening fence and the white space after it *)
  assert (Hopen :
    match_here (fence_re tag)
      ((lit "```" ++ tag) ++ ws1 ++ (b0 ++ [z]) ++ ws2 ++ lit "```")
    = Some ((b0 ++ [z]) ++ ws2 ++ lit "```", None)).
  { rewrite fence_here, startsWith_app, skipn_app_exact.
    rewrite (drop_while_all is_space ws1 _ H1).
    destruct (trimmed_head _ Ht (ws2 ++ lit "```")) as [-> | E];
      [reflexivity|].
    destruct b0; discriminate E. }
  rewrite (app_assoc (lit "```" ++ tag) ws1) in Hopen |- *.
  change ((lit "```" ++ tag) ++ ws1)
    with (backtick :: (lit "``" ++ tag) ++ ws1) in Hopen |- *.
  rewrite (replace_from_match _ _ _ _ _ _ Hopen). cbn [app].
  rewrite (strip_passes_body tag z _ Hz b0 Hb).
  (* the closing fence and the white space before it *)
  assert (Hclose :
    match_here (fence_re tag) (ws2 ++ lit "```") = Some ([], None)).
  { rewrite fence_here.
    assert (Hs : startsWith (ws2 ++ lit "```") (lit "```" ++ tag) = false).
    { destruct ws2 as [|w ws2].
      - destruct tag; [contradiction | reflexivity].
      - simpl in H2. apply andb_prop in H2. destruct H2 as [Hw _].
        change (lit "```" ++ tag) with (backtick :: lit "``" ++ tag).
        simpl. pose proof (space_is_not backtick eq_refl w Hw) as Hq.
        unfold is_char in Hq. rewrite Hq. reflexivity. }
    rewrite Hs, (drop_while_all is_space ws2 _ H2). reflexivity. }
  assert (Htail : replace_from (fence_re tag) [] O (ws2 ++ lit "```") = []).
  { destruct ws2 as [|w ws2].
    - change ([] ++ lit "```") with ((backtick :: lit "``") ++ []) in *.
      rewrite (replace_from_match _ _ _ _ _ _ Hclose). reflexivity.
    - replace ((w :: ws2) ++ lit "```") with ((w :: ws2 ++ lit "```") ++ [])
        in * by apply app_nil_r.
      rewrite (replace_from_match _ _ _ _ _ _ Hclose). reflexivity. }
  rewrite Htail. apply app_nil_r.
Qed.

End Fences.

(** * Further properties of [parseAIResponse] *)

Section Envelope.

Lemma skip_ws_app (w t : jsstring) :
  all_json_ws w = true -> skip_ws (w ++ t) = skip_ws t.
Proof.
  induction w as [|x w IH]; intros H; [reflexivity|].
  simpl in H. apply andb_prop in H. destruct H as [Hx Hw].
  simpl. rewrite Hx. apply IH. exact Hw.
Qed.

Lemma skip_ws_stop (c : code_unit) (t : jsstring) :
  is_json_ws c = false -> skip_ws (c :: t) = c :: t.
Proof. intros H. simpl. rewrite H. reflexivity. Qed.

Lemma parse_chars_plain (rest : jsstring) :
  forall h, json_plain h = true ->
    parse_chars (h ++ dquote :: rest) = Some (h, rest).
Proof.
  induction h as [|c h IH]; intros H; [reflexivity|].
  simpl in H. apply andb_prop in H. destruct H as [Hc Hh].
  apply andb_prop in Hc. destruct Hc as [Hc H32].
  apply andb_prop in Hc. destruct Hc as [H34 H92].
  apply negb_true_iff in H34, H92, H32.
  change ((c :: h) ++ dquote :: rest) with (c :: (h ++ dquote :: rest)).
  cbn [parse_chars]. rewrite H34, H92, H32, (IH Hh). reflexivity.
Qed.

Lemma parse_value_brace (f : nat) (r : jsstring) :
  parse_value (S f) (123 :: r) =
  match skip_ws r with
  | x :: r1 =>
      if x =? 125 then POk (JObj [], r1) else parse_members f (x :: r1) []
  | [] => PErr
  end.
Proof. reflexivity. Qed.

Lemma parse_value_quote (f : nat) (r : jsstring) :
  parse_value (S f) (dquote :: r) =
  match parse_chars r with
  | Some (str, rest) => POk (JStr str, rest)
  | None => PErr
  end.
Proof. reflexivity. Qed.

Lemma parse_members_quote (f : nat) (r : jsstring) (acc : list (jsstring * json)) :
  parse_members (S f) (dquote :: r) acc =
  match parse_chars r with
  | Some (key, r1) =>
      match skip_ws r1 with
      | x :: r2 =>
          if x =? 58 then
            match parse_value f (skip_ws r2) with
            | POk (v, r3) =>
                match skip_ws r3 with
                | y :: r4 =>
                    if y =? 44 then
                      parse_members f (skip_ws r4) (acc ++ [(key, v)])
                    else if y =? 125 then POk (JObj (acc ++ [(key, v)]), r4)
                    else PErr
                | [] => PErr
                end
            | PErr => PErr
            | PFuel => PFuel
            end
          else PErr
      | [] => PErr
      end
  | None => PErr
  end.
Proof. reflexivity. Qed.

Lemma envelope_nested (w1 w2 w3 w4 h : jsstring) :
  envelope w1 w2 w3 w4 h =
  123 :: (w1 ++ dquote :: (lit "htmlres" ++ dquote ::
            (w2 ++ 58 :: (w3 ++ dquote :: (h ++ dquote :: (w4 ++ [125])))))).
Proof.
  unfold envelope.
  change (lit "{") with [123]. change (lit ":") with [58].
  change (lit "}") with [125].
  rewrite <- !app_assoc. cbn [app]. rewrite <- !app_assoc. reflexivity.
Qed.

Lemma JSON_parse_envelope (w1 w2 w3 w4 h : jsstring) :
  all_json_ws w1 = true -> all_json_ws w2 = true ->
  all_json_ws w3 = true -> all_json_ws w4 = true ->
  json_plain h = true ->
  JSON_parse (envelope w1 w2 w3 w4 h)
  = Some (JObj [(lit "htmlres", JStr h)]).
Proof.
  intros H1 H2 H3 H4 Hh. unfold JSON_parse, JSON_parse_run, JSON_parse_fuel.
  rewrite envelope_nested.
  rewrite (skip_ws_stop 123) by reflexivity.
  match goal with
  | |- context [parse_value ?n (123 :: ?body)] =>
      assert (Hf : exists f, n = S (S (S f)))
        by (exists (2 * length body)%nat; cbn [length];
            generalize (length body); intros k; lia)
  end.
  destruct Hf as (f & ->).
  rewrite parse_value_brace, (skip_ws_app w1 _ H1).
  rewrite (skip_ws_stop dquote) by reflexivity.
  change (dquote =? 125) with false. cbv iota.
  rewrite parse_members_quote.
  rewrite (parse_chars_plain _ (lit "htmlres") eq_refl).
  rewrite (skip_ws_app w2 _ H2), (skip_ws_stop 58) by reflexivity.
  change (58 =? 58) with true. cbv iota.
  rewrite (skip_ws_app w3 _ H3), (skip_ws_stop dquote) by reflexivity.
  rewrite parse_value_quote, (parse_chars_plain _ h Hh).
  rewrite (skip_ws_app w4 _ H4), (skip_ws_stop 125) by reflexivity.
  reflexivity.
Qed.

Lemma json_ws_avoids_backtick (w : jsstring) :
  all_json_ws w = true -> avoids backtick w = true.
Proof.
  induction w as [|x w IH]; intros H; [reflexivity|].
  simpl in H. apply andb_prop in H. destruct H as [Hx Hw].
  simpl. rewrite (IH Hw), andb_true_r.
  destruct (N.eqb_spec x backtick) as [->|]; [discriminate Hx | reflexivity].
Qed.

Lemma trimmed_ends (c z : code_unit) (m : jsstring) :
  is_space c = false -> is_space z = false ->
  trimmed (c :: m ++ [z]) = true.
Proof.
  intros Hc Hz. unfold trimmed. rewrite Hc. cbn [rev].
  rewrite rev_app_distr. simpl. rewrite Hz. reflexivity.
Qed.

Lemma envelope_avoids_backtick (w1 w2 w3 w4 h : jsstring) :
  all_json_ws w1 = true -> all_json_ws w2 = true ->
  all_json_ws w3 = true -> all_json_ws w4 = true ->
  avoids backtick h = true ->
  avoids backtick (envelope w1 w2 w3 w4 h) = true.
Proof.
  intros H1 H2 H3 H4 Hh. unfold envelope.
  rewrite !avoids_app.
  rewrite (json_ws_avoids_backtick _ H1), (json_ws_avoids_backtick _ H2),
    (json_ws_avoids_backtick _ H3), (json_ws_avoids_backtick _ H4), Hh.
  reflexivity.
Qed.

Lemma envelope_trimmed (w1 w2 w3 w4 h : jsstring) :
  trimmed (envelope w1 w2 w3 w4 h) = true.
Proof. unfold envelope. apply trimmed_ends; reflexivity. Qed.

Lemma clean_plain (s : jsstring) :
  avoids backtick s = true -> cleanResponse s = trim s.
Proof.
  intros H. unfold cleanResponse.
  rewrite fence_json_shape, (strip_plain _ s H).
  change (lit "```") with (backtick :: lit "``").
  rewrite (startsWith_avoids backtick _ _ (avoids_trim backtick s H)).
  reflexivity.
Qed.

End Envelope.

Section Verbatim.

(** Every continuation of the matcher is run on a suffix of the input. *)
Lemma star_greedy_suffix (p : code_unit -> bool) (K : jsstring -> option mstate) :
  forall s m, star_greedy p K s = Some m ->
    exists pre s', s = pre ++ s' /\ K s' = Some m.
Proof.
  induction s as [|c r IH]; intros m H; simpl in H.
  - exists [], []. split; [reflexivity | exact H].
  - destruct (p c).
    + destruct (star_greedy p K r) as [m'|] eqn:E.
      * inversion H; subst.
        destruct (IH m eq_refl) as (pre & s' & -> & Hk).
        exists (c :: pre), s'. split; [reflexivity | exact Hk].
      * exists [], (c :: r). split; [reflexivity | exact H].
    + exists [], (c :: r). split; [reflexivity | exact H].
Qed.

Lemma star_lazy_suffix (p : code_unit -> bool) (K : jsstring -> option mstate) :
  forall s m, star_lazy p K s = Some m ->
    exists pre s', s = pre ++ s' /\ K s' = Some m.
Proof.
  induction s as [|c r IH]; intros m H; simpl in H.
  - destruct (K []) as [m'|] eqn:E; [|discriminate].
    inversion H; subst. exists [], []. split; [reflexivity | exact E].
  - destruct (K (c :: r)) as [m'|] eqn:E.
    + inversion H; subst. exists [], (c :: r). split; [reflexivity | exact E].
    + destruct (p c); [|discriminate].
      destruct (IH m H) as (pre & s' & -> & Hk).
      exists (c :: pre), s'. split; [reflexivity | exact Hk].
Qed.

Lemma rmatch_suffix (r : re) :
  forall s g k m,
    rmatch r s g k = Some m ->
    exists pre s' g', s = pre ++ s' /\ k s' g' = Some m.
Proof.
  induction r as [|p|a IHa b IHb|a IHa b IHb|p|p|a IHa]; intros s g k m H;
    simpl in H.
  - exists [], s, g. split; [reflexivity | exact H].
  - destruct s as [|c s']; [discriminate|].
    destruct (p c); [|discriminate].
    exists [c], s', g. split; [reflexivity | exact H].
  - destruct (IHa _ _ _ _ H) as (pre1 & s1 & g1 & -> & H1).
    destruct (IHb _ _ _ _ H1) as (pre2 & s2 & g2 & -> & H2).
    exists (pre1 ++ pre2), s2, g2. split; [apply app_assoc | exact H2].
  - destruct (rmatch a s g k) as [m'|] eqn:E.
    + inversion H; subst. exact (IHa _ _ _ _ E).
    + exact (IHb _ _ _ _ H).
  - destruct (star_greedy_suffix _ _ _ _ H) as (pre & s' & -> & Hk).
    exists pre, s', g. split; [reflexivity | exact Hk].
  - destruct (star_lazy_suffix _ _ _ _ H) as (pre & s' & -> & Hk).
    exists pre, s', g. split; [reflexivity | exact Hk].
  - destruct (IHa _ _ _ _ H) as (pre & s' & g' & -> & Hk).
    exists pre, s', (Some (firstn (length (pre ++ s') - length s') (pre ++ s'))).
    split; [reflexivity | exact Hk].
Qed.

Lemma match_here_suffix (r : re) (s t : jsstring) (g : option jsstring) :
  match_here r s = Some (t, g) -> exists pre, s = pre ++ t.
Proof.
  intros H. unfold match_here in H.
  destruct (rmatch_suffix _ _ _ _ _ H) as (pre & s' & g' & -> & Hk).
  inversion Hk; subst. exists pre. reflexivity.
Qed.

Lemma firstn_prefix (pre t : jsstring) :
  firstn (length (pre ++ t) - length t) (pre ++ t) = pre.
Proof.
  rewrite length_app.
  replace (length pre + length t - length t)%nat with (length pre + 0)%nat
    by lia.
  rewrite firstn_app_2. simpl. apply app_nil_r.
Qed.

Lemma search_cons (r : re) (c : code_unit) (s : jsstring) :
  search r (c :: s) =
  match match_here r (c :: s) with
  | Some (rest, g) =>
      Some (firstn (length (c :: s) - length rest) (c :: s), g)
  | None => search r s
  end.
Proof. reflexivity. Qed.

(** What [search] returns lies in the input, where the expression matches. *)
Lemma search_inv (r : re) :
  forall s w g,
    search r s = Some (w, g) ->
    exists before t,
      s = before ++ w ++ t /\ match_here r (w ++ t) = Some (t, g).
Proof.
  induction s as [|c s IH]; intros w g H.
  - simpl in H.
    destruct (match_here r []) as [[rest g0]|] eqn:E; [|discriminate].
    destruct (match_here_suffix _ _ _ _ E) as (pre & Hp).
    symmetry in Hp. apply app_eq_nil in Hp. destruct Hp as [-> ->].
    inversion H; subst. exists [], []. split; [reflexivity | exact E].
  - rewrite search_cons in H.
    destruct (match_here r (c :: s)) as [[rest g0]|] eqn:E.
    + destruct (match_here_suffix _ _ _ _ E) as (pre & Hp).
      rewrite Hp, firstn_prefix in H. inversion H; subst w g0.
      exists [], rest. rewrite <- Hp. split; [reflexivity | exact E].
    + destruct (IH w g H) as (before & t & -> & Hm).
      exists (c :: before), t. split; [reflexivity | exact Hm].
Qed.

Lemma htmlres_here_inv (s t : jsstring) (g : option jsstring) :
  match_here htmlres_re s = Some (t, g) ->
  exists pre h rest, s = pre ++ h ++ rest /\ g = Some h.
Proof.
  rewrite htmlres_here. intros H.
  destruct (match_here field_open s) as [[t1 g1]|] eqn:Ho; [|discriminate].
  destruct (leftmost field_close t1) as [[j u]|] eqn:Hc; [|discriminate].
  inversion H; subst.
  destruct (match_here_suffix _ _ _ _ Ho) as (pre & ->).
  exists pre, (firstn j t1), (skipn j t1).
  rewrite firstn_skipn. split; reflexivity.
Qed.

Lemma html_here_inv (w t : jsstring) (g : option jsstring) :
  match_here html_re (w ++ t) = Some (t, g) -> (5 <= length w)%nat.
Proof.
  rewrite html_here. intros H.
  destruct (match_here html_open (w ++ t)) as [[t1 g1]|] eqn:Ho; [|discriminate].
  destruct (leftmost html_close t1) as [[j u]|] eqn:Hc; [|discriminate].
  inversion H; subst.
  destruct (leftmost_spec _ _ _ _ Hc) as (Hj & (g2 & Hm) & _).
  apply match_here_suffix in Hm. destruct Hm as (pre2 & Hm).
  apply match_here_LitI_split in Ho. destruct Ho as (w1 & E1 & L1).
  change (length (lit "<html")) with 5%nat in L1.
  assert (Hl : (length t <= length t1)%nat).
  { rewrite <- (firstn_skipn j t1), Hm, !length_app. lia. }
  apply (f_equal (@length _)) in E1. rewrite !length_app in E1. lia.
Qed.

End Verbatim.

(** X1. A reply that holds no backtick is cleaned by trimming only. *)
Theorem clean_without_backticks :
  forall s : jsstring,
    avoids backtick s = true -> cleanResponse s = trim s.
Proof. intros s H. apply clean_plain. exact H. Qed.

Lemma clean_without_backticks_witness :
  avoids backtick (lit "  {} ") = true
  /\ cleanResponse (lit "  {} ") = lit "{}".
Proof.
  split; [reflexivity|].
  apply (clean_without_backticks (lit "  {} ")). reflexivity.
Defined.

(** X2. A JSON reply wrapped in a json-tagged fence is cleaned to its body,
    and when the body has a usable [htmlres] the wrapped reply gives the
    same result as the body alone.  The body is taken without backticks
    and without white space at its ends. *)
Theorem fenced_reply_same_result :
  forall ws1 body ws2 : jsstring,
    all_space ws1 = true -> all_space ws2 = true ->
    avoids backtick body = true -> body <> [] -> trimmed body = true ->
    cleanResponse (fenced (lit "json") ws1 body ws2) = body
    /\ (no_json_result body = false ->
        parseAIResponse (fenced (lit "json") ws1 body ws2)
        = parseAIResponse body).
Proof.
  intros ws1 body ws2 H1 H2 Hb Hne Ht.
  assert (Hc : cleanResponse (fenced (lit "json") ws1 body ws2) = body).
  { unfold cleanResponse.
    rewrite fence_json_shape, strip_fenced, (trim_of_trimmed body Ht);
      try assumption; [|discriminate].
    change (lit "```") with (backtick :: lit "``").
    rewrite (startsWith_avoids backtick _ _ Hb). reflexivity. }
  split; [exact Hc|].
  unfold no_json_result, parseAIResponse.
  rewrite Hc, (clean_plain body Hb), (trim_of_trimmed body Ht).
  destruct (json_attempt body); [reflexivity | discriminate..].
Qed.

Lemma fenced_reply_same_result_witness :
  cleanResponse (fenced (lit "json") [10] reply_hi [10]) = reply_hi
  /\ parseAIResponse (fenced (lit "json") [10] reply_hi [10])
     = Ok (Some (JStr (lit "<html><body>Hi</body></html>"))).
Proof.
  destruct (fenced_reply_same_result [10] reply_hi [10]
              eq_refl eq_refl eq_refl ltac:(discriminate) eq_refl)
    as [Hc Hp].
  split; [exact Hc|].
  rewrite Hp; vm_compute; reflexivity.
Defined.

(** X3. The reply the prompt asks for, an object with the single field
    [htmlres], is extracted to the text of the field, for every non-empty
    text without quote, backslash, control character or backtick and any
    JSON white space between the tokens. *)
Theorem envelope_extracted :
  forall w1 w2 w3 w4 h : jsstring,
    all_json_ws w1 = true -> all_json_ws w2 = true ->
    all_json_ws w3 = true -> all_json_ws w4 = true ->
    json_plain h = true -> avoids backtick h = true -> h <> [] ->
    parseAIResponse (envelope w1 w2 w3 w4 h) = Ok (Some (JStr h)).
Proof.
  intros w1 w2 w3 w4 h H1 H2 H3 H4 Hp Hb Hne. unfold parseAIResponse.
  rewrite (clean_plain _ (envelope_avoids_backtick _ _ _ _ _ H1 H2 H3 H4 Hb)).
  rewrite (trim_of_trimmed _ (envelope_trimmed w1 w2 w3 w4 h)).
  rewrite (json_attempt_truthy _ _ (Some (JStr h))
             (JSON_parse_envelope _ _ _ _ _ H1 H2 H3 H4 Hp) eq_refl);
    [reflexivity|].
  destruct h; [contradiction | reflexivity].
Qed.

Lemma envelope_extracted_witness :
  parseAIResponse reply_prompt_layout
  = Ok (Some (JStr (lit "<html><body>Hi</body></html>"))).
Proof.
  apply (envelope_extracted [10; 32; 32] [] [32] [10]
           (lit "<html><body>Hi</body></html>"));
    try reflexivity.
  discriminate.
Defined.

(** X4. What the two fallbacks return is a piece of the reply as it stands:
    when the JSON step hands nothing back, a string returned by
    [parseAIResponse] occurs verbatim in the reply. *)
Theorem fallback_text_is_verbatim :
  forall (aiResponse h : jsstring),
    no_json_result aiResponse = true ->
    parseAIResponse aiResponse = Ok (Some (JStr h)) ->
    exists pre post, aiResponse = pre ++ h ++ post.
Proof.
  intros s h Hj H. rewrite (parse_without_json s Hj) in H.
  unfold fallback in H.
  destruct (search htmlres_re s) as [[w g]|] eqn:Ef.
  - destruct (search_inv _ _ _ _ Ef) as (before & t & -> & Hm).
    destruct (htmlres_here_inv _ _ _ Hm) as (pre & h' & rest & E & ->).
    simpl in H. inversion H; subst h'.
    exists (before ++ pre), rest. rewrite E, <- app_assoc. reflexivity.
  - destruct (search html_re s) as [[w g]|] eqn:Eh; [|discriminate].
    destruct (search_inv _ _ _ _ Eh) as (before & t & -> & _).
    inversion H; subst. exists before, t. reflexivity.
Qed.

Lemma fallback_text_is_verbatim_witness :
  no_json_result reply_prose_html = true
  /\ exists pre post,
       reply_prose_html
       = pre ++ lit "<HTML><body>Hi</body></html>" ++ post.
Proof.
  split; [vm_compute; reflexivity|].
  apply (fallback_text_is_verbatim reply_prose_html);
    vm_compute; reflexivity.
Defined.

Lemma returned_value_cases :
  forall (aiResponse : jsstring) (v : value),
    parseAIResponse aiResponse = Ok v ->
    truthy v = true
    \/ (v = Some (JStr [])
        /\ no_json_result aiResponse = true
        /\ exists w, search htmlres_re aiResponse = Some (w, Some [])).
Proof.
  intros s v H. unfold parseAIResponse in H.
  assert (Hfb : fallback s = Ok v ->
                truthy v = true \/
                (v = Some (JStr []) /\
                 exists w, search htmlres_re s = Some (w, Some []))).
  { clear H. unfold fallback. intros H.
    destruct (search htmlres_re s) as [[w g]|] eqn:Ef.
    - destruct (search_inv _ _ _ _ Ef) as (before & t & _ & Hm).
      destruct (htmlres_here_inv _ _ _ Hm) as (pre & h & rest & _ & ->).
      simpl in H. inversion H; subst.
      destruct h; [right | left; reflexivity].
      split; [reflexivity | exists w; reflexivity].
    - destruct (search html_re s) as [[w g]|] eqn:Eh; [|discriminate].
      destruct (search_inv _ _ _ _ Eh) as (before & t & _ & Hm).
      apply html_here_inv in Hm. inversion H; subst.
      left. destruct w; [simpl in Hm; lia | reflexivity]. }
  unfold no_json_result.
  destruct (json_attempt (cleanResponse s)) as [p| |] eqn:Ej.
  - left. inversion H; subst. unfold json_attempt in Ej.
    destruct (JSON_parse (cleanResponse s)); [|discriminate].
    destruct (get_property j (lit "htmlres")) as [|q]; [discriminate|].
    destruct (truthy q) eqn:Et; [|discriminate].
    inversion Ej; subst. exact Et.
  - destruct (Hfb H) as [Ht | (Hv & Hw)]; [left; exact Ht | right].
    split; [exact Hv | split; [reflexivity | exact Hw]].
  - destruct (Hfb H) as [Ht | (Hv & Hw)]; [left; exact Ht | right].
    split; [exact Hv | split; [reflexivity | exact Hw]].
Qed.

(** X5. [parseAIResponse] never returns [undefined], [null], [false] or
    zero: a returned value is truthy, except for the empty string, which
    only the expression of the field can capture. *)
Theorem returned_value_truthy_or_empty :
  forall (aiResponse : jsstring) (v : value),
    parseAIResponse aiResponse = Ok v ->
    truthy v = true
    \/ (v = Some (JStr [])
        /\ no_json_result aiResponse = true
        /\ exists w, search htmlres_re aiResponse = Some (w, Some [])).
Proof. exact returned_value_cases. Qed.

Lemma returned_value_truthy_or_empty_witness :
  parseAIResponse reply_trailing_garbage = Ok (Some (JStr (lit "<p>hi</p>")))
  /\ (truthy (Some (JStr (lit "<p>hi</p>"))) = true
      \/ (Some (JStr (lit "<p>hi</p>")) = Some (JStr [])
          /\ no_json_result reply_trailing_garbage = true
          /\ exists w,
               search htmlres_re reply_trailing_garbage = Some (w, Some []))).
Proof.
  assert (H : parseAIResponse reply_trailing_garbage
              = Ok (Some (JStr (lit "<p>hi</p>"))))
    by (vm_compute; reflexivity).
  split; [exact H|].
  exact (returned_value_truthy_or_empty reply_trailing_garbage _ H).
Defined.

(** X6. A cleaned reply that is valid JSON but not an object (a string, a
    number, an array, a boolean, or [null], on which reading the property
    throws) makes no exception escape: the result is that of the
    fallbacks on the reply. *)
Theorem non_object_json_falls_through :
  forall (aiResponse : jsstring) (jsonResponse : json),
    JSON_parse (cleanResponse aiResponse) = Some jsonResponse ->
    (forall l, jsonResponse <> JObj l) ->
    parseAIResponse aiResponse = fallback aiResponse.
Proof.
  intros s o Hp Hn. unfold parseAIResponse, json_attempt. rewrite Hp.
  destruct o; try reflexivity.
  exfalso. exact (Hn l eq_refl).
Qed.

Lemma non_object_json_falls_through_witness :
  JSON_parse (cleanResponse reply_json_null) = Some JNull
  /\ parseAIResponse reply_json_null = Throw extraction_error.
Proof.
  split; [vm_compute; reflexivity|].
  rewrite (non_object_json_falls_through reply_json_null JNull);
    [vm_compute; reflexivity | vm_compute; reflexivity | discriminate].
Defined.

(** * Further properties of [decodeHTMLContent] *)

Section Decoding.

Lemma plain_avoids (s : jsstring) :
  plain s = true -> avoids backslash s = true /\ avoids 38 s = true.
Proof. unfold plain. intros H. apply andb_prop in H. exact H. Qed.

(** The replacement of a pattern that occurs once, between texts that do
    not hold its first code unit. *)
Lemma replace_one (x : code_unit) (p' r a b : jsstring) :
  avoids x a = true -> avoids x b = true ->
  replace_all (Lit (x :: p')) r (a ++ (x :: p') ++ b) = a ++ r ++ b.
Proof.
  intros Ha Hb. rewrite (replace_app_avoids x p' r _ a Ha). f_equal.
  unfold replace_all.
  assert (Hm : match_here (Lit (x :: p')) ((x :: p') ++ b) = Some (b, None)).
  { rewrite match_here_Lit, startsWith_app, skipn_app_exact. reflexivity. }
  rewrite (replace_from_match _ _ _ _ _ _ Hm). f_equal.
  apply (replace_unchanged (x :: p') r b). apply occurs_avoids. exact Hb.
Qed.

Lemma replace_from_length (p repl : jsstring) :
  (length repl <= length p)%nat ->
  forall s skip,
    (length (replace_from (Lit p) repl skip s) + Nat.min skip (length s)
     <= length s)%nat.
Proof.
  intros Hr. induction s as [|c s IH]; intros skip.
  - destruct skip as [|n]; [|simpl; lia].
    rewrite replace_from_nil, match_here_Lit.
    destruct p as [|x p]; simpl in *; lia.
  - destruct skip as [|n].
    + rewrite replace_from_cons, match_here_Lit.
      destruct (startsWith (c :: s) p) eqn:E.
      * apply startsWith_length in E.
        rewrite length_skipn.
        replace (length (c :: s) - (length (c :: s) - length p))%nat
          with (length p) by lia.
        destruct p as [|x p].
        { destruct repl; [|simpl in Hr; lia].
          specialize (IH O). simpl in *. lia. }
        cbn [length] in *.
        specialize (IH (length p)). rewrite length_app. lia.
      * specialize (IH O). simpl in *. lia.
    + specialize (IH n). simpl in *. lia.
Qed.

Lemma steps_length :
  forall steps,
    Forall (fun st => (length (snd st) <= length (fst st))%nat) steps ->
    forall s, (length (fold_left apply_step steps s) <= length s)%nat.
Proof.
  induction steps as [|st steps IH]; intros H t; [simpl; lia|].
  inversion H as [|? ? Hst Hrest]; subst. simpl.
  specialize (IH Hrest (apply_step t st)).
  assert (Hl : (length (apply_step t st) <= length t)%nat).
  { pose proof (replace_from_length (fst st) (snd st) Hst t O) as Hl.
    change (Nat.min 0 (length t)) with O in Hl.
    rewrite Nat.add_0_r in Hl. exact Hl. }
  lia.
Qed.

End Decoding.

Ltac occurs_gone :=
  rewrite occurs_app_avoids by assumption;
  unfold lit; simpl;
  rewrite ?occurs_avoids by assumption;
  reflexivity.

Ltac keep_step :=
  match goal with
  | |- context [replace_all (Lit ?q) ?repl ?t] =>
      lazymatch t with
      | context [replace_all] => fail
      | _ => rewrite (replace_unchanged q repl t) by occurs_gone
      end
  end.

Ltac decode_by_steps :=
  rewrite decode_fold; unfold decode_steps; cbn [fold_left];
  unfold apply_step; cbn [fst snd];
  change (lit "&quot;") with (@cons code_unit 38 (lit "quot;"));
  change (lit "&amp;") with (@cons code_unit 38 (lit "amp;"));
  change (lit "&lt;") with (@cons code_unit 38 (lit "lt;"));
  change (lit "&gt;") with (@cons code_unit 38 (lit "gt;"));
  change (lit "&#39;") with (@cons code_unit 38 (lit "#39;")).

(** X7. Each escape or entity whose replacement is neither a backslash nor
    an ampersand is decoded to that replacement when it stands between
    texts that hold no backslash and no ampersand: the four escapes of
    line feed, quote, tab and carriage return, the escaped apostrophe, and
    the entities of quote, less-than, greater-than and apostrophe. *)
Theorem single_escape_decoded :
  forall p r a b : jsstring,
    In (p, r) decode_steps -> plain r = true ->
    plain a = true -> plain b = true ->
    decodeHTMLContent (a ++ p ++ b) = a ++ r ++ b.
Proof.
  intros p r a b Hin Hr Ha Hb.
  destruct (plain_avoids a Ha) as [Ha1 Ha2].
  destruct (plain_avoids b Hb) as [Hb1 Hb2].
  unfold decode_steps in Hin. simpl in Hin.
  destruct Hin as [H|[H|[H|[H|[H|[H|[H|[H|[H|[H|[H|[]]]]]]]]]]]];
    inversion H; subst p r; clear H; try discriminate Hr;
    decode_by_steps.
  - rewrite (replace_one backslash [110] [newline] a b Ha1 Hb1).
    repeat keep_step. reflexivity.
  - keep_step.
    rewrite (replace_one backslash [dquote] [dquote] a b Ha1 Hb1).
    repeat keep_step. reflexivity.
  - repeat keep_step.
    rewrite (replace_one backslash [116] [tab] a b Ha1 Hb1).
    repeat keep_step. reflexivity.
  - repeat keep_step.
    rewrite (replace_one backslash [114] [creturn] a b Ha1 Hb1).
    repeat keep_step. reflexivity.
  - repeat keep_step.
    rewrite (replace_one backslash [squote] [squote] a b Ha1 Hb1).
    repeat keep_step. reflexivity.
  - repeat keep_step.
    rewrite (replace_one 38 (lit "quot;") [dquote] a b Ha2 Hb2).
    repeat keep_step. reflexivity.
  - repeat keep_step.
    rewrite (replace_one 38 (lit "lt;") (lit "<") a b Ha2 Hb2).
    repeat keep_step. reflexivity.
  - repeat keep_step.
    rewrite (replace_one 38 (lit "gt;") (lit ">") a b Ha2 Hb2).
    repeat keep_step. reflexivity.
  - repeat keep_step.
    rewrite (replace_one 38 (lit "#39;") [squote] a b Ha2 Hb2).
    reflexivity.
Qed.

Lemma single_escape_decoded_witness :
  decodeHTMLContent (lit "<p class=" ++ [backslash; dquote] ++ lit "x>")
  = lit "<p class=" ++ [dquote] ++ lit "x>".
Proof.
  apply (single_escape_decoded [backslash; dquote] [dquote]
           (lit "<p class=") (lit "x>")).
  - right. left. reflexivity.
  - reflexivity.
  - reflexivity.
  - reflexivity.
Defined.

(** X8. [decodeHTMLContent] never makes its input longer. *)
Theorem decode_never_longer :
  forall s : jsstring,
    (length (decodeHTMLContent s) <= length s)%nat.
Proof.
  intros s. rewrite decode_fold. apply steps_length.
  unfold decode_steps. repeat constructor; simpl; lia.
Qed.

Ltac amp_step a t Ha2 Hb2 :=
  rewrite (replace_one 38 (lit "amp;") (lit "&") a t Ha2)
    by (rewrite avoids_app; rewrite Hb2; reflexivity).

(** X9. The order of the replacements shows on an entity whose ampersand
    is itself written as an entity: between texts without backslash and
    ampersand, the doubly escaped less-than, greater-than and apostrophe
    are decoded twice in the one pass, down to the character, while the
    doubly escaped quote is decoded once, its own step having already
    run. *)
Theorem escaped_ampersand_decoded_in_order :
  forall a b : jsstring,
    plain a = true -> plain b = true ->
    decodeHTMLContent (a ++ lit "&amp;lt;" ++ b) = a ++ lit "<" ++ b
    /\ decodeHTMLContent (a ++ lit "&amp;gt;" ++ b) = a ++ lit ">" ++ b
    /\ decodeHTMLContent (a ++ lit "&amp;#39;" ++ b) = a ++ [squote] ++ b
    /\ decodeHTMLContent (a ++ lit "&amp;quot;" ++ b)
       = a ++ lit "&quot;" ++ b.
Proof.
  intros a b Ha Hb.
  destruct (plain_avoids a Ha) as [Ha1 Ha2].
  destruct (plain_avoids b Hb) as [Hb1 Hb2].
  split; [|split; [|split]].
  - change (lit "&amp;lt;") with ((@cons code_unit 38 (lit "amp;")) ++ lit "lt;").
    rewrite <- (app_assoc _ (lit "lt;") b).
    decode_by_steps. repeat keep_step.
    amp_step a (lit "lt;" ++ b) Ha2 Hb2.
    change (a ++ lit "&" ++ lit "lt;" ++ b)
      with (a ++ (@cons code_unit 38 (lit "lt;")) ++ b).
    rewrite (replace_one 38 (lit "lt;") (lit "<") a b Ha2 Hb2).
    repeat keep_step. reflexivity.
  - change (lit "&amp;gt;") with ((@cons code_unit 38 (lit "amp;")) ++ lit "gt;").
    rewrite <- (app_assoc _ (lit "gt;") b).
    decode_by_steps. repeat keep_step.
    amp_step a (lit "gt;" ++ b) Ha2 Hb2.
    change (a ++ lit "&" ++ lit "gt;" ++ b)
      with (a ++ (@cons code_unit 38 (lit "gt;")) ++ b).
    keep_step.
    rewrite (replace_one 38 (lit "gt;") (lit ">") a b Ha2 Hb2).
    repeat keep_step. reflexivity.
  - change (lit "&amp;#39;")
      with ((@cons code_unit 38 (lit "amp;")) ++ lit "#39;").
    rewrite <- (app_assoc _ (lit "#39;") b).
    decode_by_steps. repeat keep_step.
    amp_step a (lit "#39;" ++ b) Ha2 Hb2.
    change (a ++ lit "&" ++ lit "#39;" ++ b)
      with (a ++ (@cons code_unit 38 (lit "#39;")) ++ b).
    repeat keep_step.
    rewrite (replace_one 38 (lit "#39;") [squote] a b Ha2 Hb2).
    reflexivity.
  - change (lit "&amp;quot;")
      with ((@cons code_unit 38 (lit "amp;")) ++ lit "quot;").
    rewrite <- (app_assoc _ (lit "quot;") b).
    decode_by_steps. repeat keep_step.
    amp_step a (lit "quot;" ++ b) Ha2 Hb2.
    change (a ++ lit "&" ++ lit "quot;" ++ b)
      with (a ++ (@cons code_unit 38 (lit "quot;")) ++ b).
    repeat keep_step. reflexivity.
Qed.

Lemma escaped_ampersand_decoded_in_order_witness :
  decodeHTMLContent (lit "a " ++ lit "&amp;lt;" ++ lit " b") = lit "a < b"
  /\ decodeHTMLContent (lit "a " ++ lit "&amp;quot;" ++ lit " b")
     = lit "a &quot; b".
Proof.
  destruct (escaped_ampersand_decoded_in_order (lit "a ") (lit " b")
              eq_refl eq_refl) as (H1 & _ & _ & H4).
  split; [exact H1 | exact H4].
Defined.

(** * Further properties of [convertHTMLtoPDF] *)

Section RenderCases.

Variable E : engine.
Variable htmlContent : jsstring.

Lemma close_after_result (r : result bytes) (tr : list call) :
  fst (close_after E r tr) =
  match on_close E with
  | Ok _ => r
  | Throw e => Throw e
  end.
Proof. unfold close_after. destruct (on_close E); reflexivity. Qed.

End RenderCases.

(** X10. An error thrown by [convertHTMLtoPDF] is one of three: the
    wrapped empty-content message, for a blank input; the prefix of the
    [catch] block followed by the message of the first call that threw
    among [launch], [newPage], [setContent] and [pdf], taken in that
    order, [close] having succeeded if the engine was launched; or the
    error of [close] itself, as it is, in a call that had launched the
    engine. *)
Theorem render_error_wrapped_or_from_close :
  forall (E : engine) (htmlContent message : jsstring),
    fst (render E htmlContent) = Throw message ->
    (trim htmlContent = [] /\ message = wrap_error empty_error)
    \/ (trim htmlContent <> [] /\
        exists cause,
          message = wrap_error cause /\
          (on_launch E launch_request = Throw cause
           \/ (on_launch E launch_request = Ok tt /\ on_close E = Ok tt /\
               (on_newPage E = Throw cause
                \/ (on_newPage E = Ok tt /\
                    (on_setContent E (cleanHTML htmlContent) content_request
                     = Throw cause
                     \/ (on_setContent E (cleanHTML htmlContent)
                            content_request = Ok tt /\
                         on_pdf E (cleanHTML htmlContent) pdf_request
                         = Throw cause)))))))
    \/ (trim htmlContent <> [] /\
        on_launch E launch_request = Ok tt /\
        on_close E = Throw message).
Proof.
  intros E html e.
  destruct (list_eq_dec N.eq_dec (trim html) []) as [Hb|Hn].
  - rewrite (render_blank E html Hb). simpl. intros H. inversion H.
    left. split; [exact Hb | reflexivity].
  - rewrite (render_nonblank E html Hn). cbv zeta. intros H. right.
    destruct (on_launch E launch_request) as [[]|e1].
    2:{ simpl in H. inversion H. left. split; [exact Hn|].
        exists e1. split; [reflexivity | left; reflexivity]. }
    destruct (on_close E) as [[]|e2] eqn:Hc.
    2:{ right. split; [exact Hn|]. split; [reflexivity|].
        destruct (on_newPage E);
          [destruct (on_setContent E _ content_request);
           [destruct (on_pdf E _ pdf_request)|]|];
          rewrite close_after_result, Hc in H; inversion H; reflexivity. }
    left. split; [exact Hn|].
    destruct (on_newPage E) as [[]|e1].
    2:{ rewrite close_after_result, Hc in H. inversion H. exists e1.
        split; [reflexivity|]. right. repeat split. left. reflexivity. }
    destruct (on_setContent E _ content_request) as [[]|e1].
    2:{ rewrite close_after_result, Hc in H. inversion H. exists e1.
        split; [reflexivity|]. right. repeat split. right.
        split; [reflexivity|]. left. reflexivity. }
    destruct (on_pdf E _ pdf_request) as [buf|e1];
      rewrite close_after_result, Hc in H; [discriminate H|].
    inversion H. exists e1. split; [reflexivity|]. right. repeat split.
    right. split; [reflexivity|]. right. split; reflexivity.
Qed.

Lemma render_error_wrapped_or_from_close_witness :
  fst (render engine_load_fails document_hi)
  = Throw (wrap_error (lit "Navigation timeout of 30000 ms exceeded"))
  /\ on_setContent engine_load_fails (cleanHTML document_hi) content_request
     = Throw (lit "Navigation timeout of 30000 ms exceeded").
Proof.
  assert (H : fst (render engine_load_fails document_hi)
              = Throw (wrap_error
                         (lit "Navigation timeout of 30000 ms exceeded")))
    by (vm_compute; reflexivity).
  split; [exact H|].
  destruct (render_error_wrapped_or_from_close engine_load_fails document_hi
              _ H) as [[Hb _] | [(_ & cause & Hm & Hc) | (_ & _ & Hc)]].
  - vm_compute in Hb. discriminate Hb.
  - reflexivity.
  - discriminate Hc.
Defined.

(** X11. The calls made on the engine are the first [n] calls of the
    session [launch], [newPage], [setContent], [pdf], in that order and
    with the cleaned markup and the fixed options, followed by nothing or
    by one [close].  A call of the session is made exactly when the input
    is not blank and every call before it succeeded: no step is tried
    after a failed one, none is skipped, none is repeated. *)
Theorem calls_follow_session :
  forall (E : engine) (htmlContent : jsstring),
    exists n closing,
      snd (render E htmlContent) = firstn n (session htmlContent) ++ closing
      /\ (closing = [] \/ closing = [Close])
      /\ (n <= 4)%nat
      /\ ((1 <= n)%nat <-> trim htmlContent <> [])
      /\ ((2 <= n)%nat <->
          trim htmlContent <> [] /\ on_launch E launch_request = Ok tt)
      /\ ((3 <= n)%nat <->
          trim htmlContent <> [] /\ on_launch E launch_request = Ok tt
          /\ on_newPage E = Ok tt)
      /\ ((4 <= n)%nat <->
          trim htmlContent <> [] /\ on_launch E launch_request = Ok tt
          /\ on_newPage E = Ok tt
          /\ on_setContent E (cleanHTML htmlContent) content_request = Ok tt).
Proof.
  intros E html.
  destruct (list_eq_dec N.eq_dec (trim html) []) as [Hb|Hn].
  - rewrite (render_blank E html Hb). exists O, [].
    split; [reflexivity|]. split; [left; reflexivity|].
    intuition (try lia; try congruence).
  - rewrite (render_nonblank E html Hn). cbv zeta. unfold session.
    destruct (on_launch E launch_request) as [[]|e].
    2:{ exists 1%nat, []. split; [reflexivity|].
        split; [left; reflexivity|].
        intuition (try lia; try congruence). }
    destruct (on_newPage E) as [[]|e].
    2:{ exists 2%nat, [Close]. rewrite close_after_calls.
        split; [reflexivity|]. split; [right; reflexivity|].
        intuition (try lia; try congruence). }
    destruct (on_setContent E _ content_request) as [[]|e].
    2:{ exists 3%nat, [Close]. rewrite close_after_calls.
        split; [reflexivity|]. split; [right; reflexivity|].
        intuition (try lia; try congruence). }
    destruct (on_pdf E _ pdf_request) as [buf|e];
      exists 4%nat, [Close]; rewrite close_after_calls;
      (split; [reflexivity|]); (split; [right; reflexivity|]);
      intuition (try lia; try congruence).
Qed.

Lemma calls_follow_session_witness :
  exists closing,
    snd (render engine_load_fails document_hi)
    = firstn 3 (session document_hi) ++ closing.
Proof.
  destruct (calls_follow_session engine_load_fails document_hi)
    as (n & closing & H & _ & _ & _ & _ & H3 & H4).
  assert (Hn : n = 3%nat).
  { assert (H3' : (3 <= n)%nat).
    { apply H3. split; [vm_compute; discriminate|]. split; reflexivity. }
    assert (H4' : ~ (4 <= n)%nat).
    { intros Hle. apply H4 in Hle. destruct Hle as (_ & _ & _ & Hs).
      discriminate Hs. }
    lia. }
  exists closing. rewrite <- Hn. exact H.
Defined.

(** X12. [convertHTMLtoPDF] returns a buffer exactly when the input is not
    blank and all five calls succeed; the buffer is the one the engine
    answered to the PDF request. *)
Theorem render_succeeds_iff :
  forall (E : engine) (htmlContent : jsstring) (pdfBuffer : bytes),
    fst (render E htmlContent) = Ok pdfBuffer
    <-> (trim htmlContent <> []
         /\ on_launch E launch_request = Ok tt
         /\ on_newPage E = Ok tt
         /\ on_setContent E (cleanHTML htmlContent) content_request = Ok tt
         /\ on_pdf E (cleanHTML htmlContent) pdf_request = Ok pdfBuffer
         /\ on_close E = Ok tt).
Proof.
  intros E html buf. split.
  - destruct (list_eq_dec N.eq_dec (trim html) []) as [Hb|Hn].
    { rewrite (render_blank E html Hb). discriminate. }
    rewrite (render_nonblank E html Hn). cbv zeta.
    destruct (on_launch E launch_request) as [[]|e]; [|discriminate].
    destruct (on_newPage E) as [[]|e].
    2:{ rewrite close_after_result. destruct (on_close E); discriminate. }
    destruct (on_setContent E _ content_request) as [[]|e].
    2:{ rewrite close_after_result. destruct (on_close E); discriminate. }
    destruct (on_pdf E _ pdf_request) as [b|e];
      rewrite close_after_result; destruct (on_close E) as [[]|e'];
      try discriminate.
    intros H. inversion H; subst. repeat split. exact Hn.
  - intros (Hn & Hl & Hp & Hs & Hb & Hc).
    rewrite (render_nonblank E html Hn). cbv zeta.
    rewrite Hl, Hp, Hs, Hb, close_after_result, Hc. reflexivity.
Qed.

Lemma render_succeeds_iff_witness :
  trim document_hi <> []
  /\ fst (render engine_ok document_hi) = Ok (lit "%PDF-1.4").
Proof.
  assert (Hn : trim document_hi <> []) by (vm_compute; discriminate).
  split; [exact Hn|].
  apply (proj2 (render_succeeds_iff engine_ok document_hi (lit "%PDF-1.4"))).
  repeat split; try reflexivity. exact Hn.
Defined.

(** X13. When the engine was launched and [close] throws, that error is
    the outcome of the call, unwrapped, whatever the earlier steps gave,
    a printed buffer included. *)
Theorem close_failure_replaces_outcome :
  forall (E : engine) (htmlContent message : jsstring),
    trim htmlContent <> [] ->
    on_launch E launch_request = Ok tt ->
    on_close E = Throw message ->
    fst (render E htmlContent) = Throw message.
Proof.
  intros E html e Hn Hl Hc.
  rewrite (render_nonblank E html Hn). cbv zeta. rewrite Hl.
  destruct (on_newPage E); [|rewrite close_after_result, Hc; reflexivity].
  destruct (on_setContent E _ content_request);
    [|rewrite close_after_result, Hc; reflexivity].
  destruct (on_pdf E _ pdf_request);
    rewrite close_after_result, Hc; reflexivity.
Qed.

Lemma close_failure_replaces_outcome_witness :
  trim document_hi <> []
  /\ In (Pdf pdf_request) (snd (render engine_close_fails document_hi))
  /\ fst (render engine_close_fails document_hi)
     = Throw (lit "Protocol error: Target closed").
Proof.
  assert (Hn : trim document_hi <> []) by (vm_compute; discriminate).
  split; [exact Hn|].
  split; [vm_compute; tauto|].
  exact (close_failure_replaces_outcome engine_close_fails document_hi _
           Hn eq_refl eq_refl).
Defined.

(** X14. A document wrapped in an html-tagged fence is loaded without the
    fence: the markup handed to the page is the body, taken without
    backticks and without white space at its ends. *)
Theorem fenced_document_loaded :
  forall (E : engine) (ws1 body ws2 : jsstring),
    all_space ws1 = true -> all_space ws2 = true ->
    avoids backtick body = true -> body <> [] -> trimmed body = true ->
    on_launch E launch_request = Ok tt ->
    on_newPage E = Ok tt ->
    cleanHTML (fenced (lit "html") ws1 body ws2) = body
    /\ In (SetContent body content_request)
          (snd (render E (fenced (lit "html") ws1 body ws2))).
Proof.
  intros E ws1 body ws2 H1 H2 Hb Hne Ht Hl Hp.
  assert (Hf : trimmed (fenced (lit "html") ws1 body ws2) = true).
  { unfold fenced.
    change (lit "```" ++ lit "html") with (backtick :: lit "``html").
    change (lit "```") with (lit "``" ++ [backtick]).
    cbn [app]. rewrite !app_assoc. apply trimmed_ends; reflexivity. }
  assert (Hc : cleanHTML (fenced (lit "html") ws1 body ws2) = body).
  { unfold cleanHTML. rewrite (trim_of_trimmed _ Hf), fence_html_shape.
    rewrite strip_fenced; try assumption; [|discriminate].
    apply trim_of_trimmed. exact Ht. }
  split; [exact Hc|].
  assert (Hn : trim (fenced (lit "html") ws1 body ws2) <> []).
  { rewrite (trim_of_trimmed _ Hf). discriminate. }
  rewrite (render_nonblank E _ Hn). cbv zeta. rewrite Hl, Hp, Hc.
  destruct (on_setContent E body content_request).
  - destruct (on_pdf E body pdf_request);
      rewrite close_after_calls; simpl; tauto.
  - rewrite close_after_calls. simpl. tauto.
Qed.

Lemma fenced_document_loaded_witness :
  cleanHTML (fenced (lit "html") [10] document_hi [10]) = document_hi
  /\ In (SetContent document_hi content_request)
        (snd (render engine_ok (fenced (lit "html") [10] document_hi [10]))).
Proof.
  apply (fenced_document_loaded engine_ok [10] document_hi [10]);
    try reflexivity.
  discriminate.
Defined.

(** X15. The text handed to [JSON.parse] and the markup handed to the page
    never start or end with white space. *)
Theorem cleaned_text_is_trimmed :
  forall s : jsstring,
    trimmed (cleanResponse s) = true /\ trimmed (cleanHTML s) = true.
Proof.
  intros s. split.
  - unfold cleanResponse.
    destruct (startsWith _ _ && endsWith _ _); apply trim_is_trimmed.
  - unfold cleanHTML. apply trim_is_trimmed.
Qed.

(** * The upload filter, the error middleware and the route handlers *)

Section Handlers.

Lemma string_eqb_eq (a b : jsstring) : string_eqb a b = true <-> a = b.
Proof.
  revert b. induction a as [|x a IH]; intros [|y b]; simpl;
    try (split; [discriminate | discriminate]).
  - split; reflexivity.
  - rewrite andb_true_iff, N.eqb_eq, IH. split.
    + intros [-> ->]. reflexivity.
    + intros H. inversion H. split; reflexivity.
Qed.

Lemma string_eqb_neq (a b : jsstring) : a <> b -> string_eqb a b = false.
Proof.
  intros H. destruct (string_eqb a b) eqn:E; [|reflexivity].
  apply string_eqb_eq in E. contradiction.
Qed.

Lemma job_requirements_given (jr : jsstring) :
  jr <> [] -> truthy (option_map JStr (Some jr)) = true.
Proof. destruct jr; [contradiction | reflexivity]. Qed.

End Handlers.

Section HandlerCases.

Variable w : world.

Lemma decode_value_string (h : jsstring) :
  decode_value w (Some (JStr h)) = Ok (decodeHTMLContent h).
Proof. destruct h; reflexivity. Qed.

Lemma decode_value_other (j : json) :
  truthy (Some j) = true -> (forall s, j <> JStr s) ->
  decode_value w (Some j) = Throw (not_a_function w (lit "replace")).
Proof.
  intros Ht Hn. unfold decode_value. rewrite Ht.
  destruct j; try reflexivity. exfalso. exact (Hn s eq_refl).
Qed.

Lemma parse_error_is_extraction (s m : jsstring) :
  parseAIResponse s = Throw m -> m = extraction_error.
Proof.
  unfold parseAIResponse, fallback.
  destruct (json_attempt (cleanResponse s)); [discriminate| |];
    (destruct (search htmlres_re s) as [[x g]|]; [discriminate|]);
    (destruct (search html_re s) as [[x g]|]; [discriminate|]);
    intros H; inversion H; reflexivity.
Qed.

Lemma optimize_validated (req : request) (path jr : jsstring) :
  file req = Some path -> jobRequirements req = Some jr -> jr <> [] ->
  optimize_resume w req =
  match getGeminiSuggestionsWithPDF (ai w) with
  | Throw m => optimize_catch w m true [] O
  | Ok suggestions =>
      match pipeline w suggestions with
      | (Throw m, calls) => optimize_catch w m true calls O
      | (Ok pdfBuffer, calls) =>
          if file_present w then
            match unlink_answer w with
            | Ok _ =>
                mkOutcome
                  (Some (pdf_reply (lit "optimized-resume.pdf") pdfBuffer))
                  None true calls 1 false
            | Throw e => optimize_catch w e true calls 1
            end
          else
            mkOutcome
              (Some (pdf_reply (lit "optimized-resume.pdf") pdfBuffer))
              None true calls O false
      end
  end.
Proof.
  intros Hf Hj Hne. unfold optimize_resume.
  assert (Hb : body req = Some (Some jr)).
  { unfold jobRequirements in Hj. destruct (body req); congruence. }
  assert (Hj' : jobRequirements req = Some jr) by exact Hj.
  rewrite Hb, Hf, Hj', (job_requirements_given jr Hne). reflexivity.
Qed.

Lemma catch_reply (m : jsstring) (called : bool) (calls : list call) (n : nat) :
  unlink_answer w = Ok tt ->
  reply (optimize_catch w m called calls n)
  = Some (Json 500 (failure_fields w m))
  /\ engine_calls (optimize_catch w m called calls n) = calls.
Proof.
  intros Hu. unfold optimize_catch. rewrite Hu.
  destruct (file_present w); split; reflexivity.
Qed.

End HandlerCases.

(** X16. The upload filter lets a file in exactly when its media type is
    [application/pdf]; for any other type the error it hands on is
    answered by the middleware with status 400 and the text of the
    filter, in every environment. *)
Theorem only_pdf_uploads_pass :
  forall (mimetype : jsstring) (node_env : option jsstring),
    (fileFilter mimetype = Ok true <-> mimetype = lit "application/pdf")
    /\ (mimetype <> lit "application/pdf" ->
        exists e,
          fileFilter mimetype = Throw e
          /\ errorMiddleware node_env (plain_error e)
             = Json 400 [(lit "error", lit "Only PDF files are allowed")]).
Proof.
  intros mt env. unfold fileFilter. split.
  - destruct (string_eqb mt (lit "application/pdf")) eqn:E.
    + apply string_eqb_eq in E. split; [intros _; exact E | reflexivity].
    + split; [discriminate|]. intros H. apply string_eqb_eq in H. congruence.
  - intros H. rewrite (string_eqb_neq _ _ H).
    exists pdf_only_error. split; reflexivity.
Qed.

Lemma only_pdf_uploads_pass_witness :
  lit "image/png" <> lit "application/pdf"
  /\ exists e,
       fileFilter (lit "image/png") = Throw e
       /\ errorMiddleware (Some (lit "production")) (plain_error e)
          = Json 400 [(lit "error", lit "Only PDF files are allowed")].
Proof.
  assert (H : lit "image/png" <> lit "application/pdf") by discriminate.
  split; [exact H|].
  exact (proj2 (only_pdf_uploads_pass (lit "image/png")
                  (Some (lit "production"))) H).
Defined.

(** X17. Outside development the error middleware answers with one of
    five fixed bodies, whatever the error holds: its message is never
    passed on. *)
Theorem middleware_reply_is_fixed :
  forall (node_env : option jsstring) (error : js_error),
    is_development node_env = false ->
    In (errorMiddleware node_env error) middleware_replies.
Proof.
  intros env e Hd. unfold errorMiddleware, middleware_replies.
  rewrite Hd.
  destruct (is_multer e && code_is e (lit "LIMIT_FILE_SIZE"));
    [simpl; tauto|].
  destruct (is_multer e && code_is e (lit "LIMIT_FILE_COUNT"));
    [simpl; tauto|].
  destruct (is_multer e && code_is e (lit "LIMIT_UNEXPECTED_FILE"));
    [simpl; tauto|].
  destruct (string_eqb (message e) (lit "Only PDF files are allowed"));
    simpl; tauto.
Qed.

Lemma middleware_reply_is_fixed_witness :
  is_development (Some (lit "production")) = false
  /\ In (errorMiddleware (Some (lit "production"))
           (mkError true (Some (lit "LIMIT_PART_COUNT"))
                    (lit "Too many parts")))
        middleware_replies.
Proof.
  split; [reflexivity|].
  apply (middleware_reply_is_fixed (Some (lit "production"))). reflexivity.
Defined.

(** X18. A request is refused before anything else happens, with no call
    of the AI, no use of the engine and no [unlinkSync], in three cases:
    [req.body] is [undefined], so that the destructuring of line 308 throws
    and the [catch] block answers with status 500 and the message of that
    [TypeError] (here for a request without upload); the body is there
    but there is no upload, status 400; there is an upload but the job
    requirements are absent or empty, status 400, and the stored upload
    is left on disk. *)
Theorem invalid_request_refused :
  forall (w : world) (req : request),
    (body req = None -> file req = None ->
     optimize_resume w req
     = mkOutcome
         (Some (Json 500
                  (failure_fields w
                     (cannot_destructure w (lit "jobRequirements")))))
         None false [] O (file_present w))
    /\ (body req <> None -> file req = None ->
        optimize_resume w req
        = mkOutcome
            (Some (Json 400
                     [(lit "error", lit "PDF resume file is required")]))
            None false [] O (file_present w))
    /\ (file req <> None ->
        body req = Some None \/ body req = Some (Some []) ->
        optimize_resume w req
        = mkOutcome
            (Some (Json 400
                     [(lit "error", lit "Job requirements are required")]))
            None false [] O (file_present w)).
Proof.
  intros w req. unfold optimize_resume, optimize_catch_early, jobRequirements.
  split; [|split].
  - intros -> ->. reflexivity.
  - intros Hb ->. destruct (body req); [reflexivity | contradiction].
  - intros Hf Hj. destruct (file req); [|contradiction].
    destruct Hj as [-> | ->]; reflexivity.
Qed.

Lemma invalid_request_refused_witness :
  optimize_resume (world_of (Ok reply_hi) engine_ok) (mkRequest None None)
  = mkOutcome
      (Some (Json 500
               [(lit "error", lit "Failed to process PDF resume");
                (lit "message",
                 lit "Cannot destructure property 'jobRequirements' of 'req.body' as it is undefined.")]))
      None false [] O true
  /\ optimize_resume (world_of (Ok reply_hi) engine_ok)
       (mkRequest (Some (lit "uploads/resume-1.pdf")) (Some (Some [])))
     = mkOutcome
         (Some (Json 400
                  [(lit "error", lit "Job requirements are required")]))
         None false [] O true.
Proof.
  split.
  - apply (proj1 (invalid_request_refused (world_of (Ok reply_hi) engine_ok)
                    (mkRequest None None))); reflexivity.
  - apply (proj2 (proj2 (invalid_request_refused
                           (world_of (Ok reply_hi) engine_ok)
                           (mkRequest (Some (lit "uploads/resume-1.pdf"))
                                      (Some (Some [])))))).
    + discriminate.
    + right. reflexivity.
Defined.

(** X19. Past validation, and with [unlinkSync] working, every call of the
    main handler sends a response and leaves no upload behind, whether
    the pipeline succeeds or fails: the file is removed exactly once when
    it is on disk, and never touched when it is not. *)
Theorem upload_removed_on_every_path :
  forall (w : world) (req : request) (path jr : jsstring),
    file req = Some path ->
    jobRequirements req = Some jr -> jr <> [] ->
    unlink_answer w = Ok tt ->
    let o := optimize_resume w req in
    (exists r, reply o = Some r)
    /\ escaped o = None
    /\ ai_called o = true
    /\ file_left o = false
    /\ unlinks o = (if file_present w then 1 else 0)%nat.
Proof.
  intros w req path jr Hf Hj Hne Hu. cbv zeta.
  rewrite (optimize_validated w req path jr Hf Hj Hne).
  assert (Hc : forall m called calls,
             let o := optimize_catch w m called calls O in
             (exists r, reply o = Some r) /\ escaped o = None
             /\ ai_called o = called /\ file_left o = false
             /\ unlinks o = (if file_present w then 1 else 0)%nat).
  { intros m called calls. unfold optimize_catch. rewrite Hu.
    destruct (file_present w); simpl; repeat split; eexists; reflexivity. }
  destruct (getGeminiSuggestionsWithPDF (ai w)) as [text|m]; [|apply Hc].
  destruct (pipeline w text) as [[buf|m] calls]; [|apply Hc].
  rewrite Hu. destruct (file_present w); simpl;
    repeat split; eexists; reflexivity.
Qed.

Lemma upload_removed_on_every_path_witness :
  file_left (optimize_resume (world_of (Ok reply_nothing) engine_ok) request_ok)
  = false
  /\ unlinks (optimize_resume (world_of (Ok reply_nothing) engine_ok) request_ok)
     = 1%nat.
Proof.
  destruct (upload_removed_on_every_path
              (world_of (Ok reply_nothing) engine_ok) request_ok
              (lit "uploads/resume-1.pdf") (lit "Rocq engineer")
              eq_refl eq_refl ltac:(discriminate) eq_refl)
    as (_ & _ & _ & Hl & Hn).
  split; [exact Hl | exact Hn].
Defined.

(** X20. When the AI answers, a string is extracted, the page is
    rendered and the upload can be removed, the main handler sends the
    buffer of the engine as a PDF attachment named optimized-resume.pdf,
    with the length of the buffer as content length. *)
Theorem resume_pdf_sent :
  forall (w : world) (req : request) (path jr text h : jsstring)
         (pdfBuffer : bytes),
    file req = Some path ->
    jobRequirements req = Some jr -> jr <> [] ->
    ai w = Ok text ->
    parseAIResponse text = Ok (Some (JStr h)) ->
    fst (render (eng w) (decodeHTMLContent h)) = Ok pdfBuffer ->
    unlink_answer w = Ok tt ->
    reply (optimize_resume w req)
    = Some (PdfFile
              (mkHeaders (lit "application/pdf")
                 (attachment (lit "optimized-resume.pdf"))
                 (length pdfBuffer))
              pdfBuffer).
Proof.
  intros w req path jr text h buf Hf Hj Hne Ha Hp Hr Hu.
  rewrite (optimize_validated w req path jr Hf Hj Hne).
  rewrite Ha. simpl getGeminiSuggestionsWithPDF. unfold pipeline.
  rewrite Hp, decode_value_string.
  destruct (render (eng w) (decodeHTMLContent h)) as [r calls].
  simpl in Hr. subst r. rewrite Hu.
  destruct (file_present w); reflexivity.
Qed.

Lemma resume_pdf_sent_witness :
  reply (optimize_resume (world_of (Ok reply_hi) engine_ok) request_ok)
  = Some (PdfFile
            (mkHeaders (lit "application/pdf")
               (attachment (lit "optimized-resume.pdf")) 8)
            (lit "%PDF-1.4")).
Proof.
  apply (resume_pdf_sent (world_of (Ok reply_hi) engine_ok) request_ok
           (lit "uploads/resume-1.pdf") (lit "Rocq engineer") reply_hi
           (lit "<html><body>Hi</body></html>") (lit "%PDF-1.4"));
    try (vm_compute; reflexivity).
  discriminate.
Defined.

(** X21. Past validation and with [unlinkSync] working, a failure of any
    stage is answered with status 500 and the message of that stage: the
    prefixed message of the AI call, the extraction error, or the error
    of the renderer; the engine is not used when the AI call or the
    extraction fails.  Outside development the body holds the two fields
    [error] and [message] only. *)
Theorem pipeline_failure_reported :
  forall (w : world) (req : request) (path jr : jsstring),
    file req = Some path ->
    jobRequirements req = Some jr -> jr <> [] ->
    unlink_answer w = Ok tt ->
    let o := optimize_resume w req in
    (forall e, ai w = Throw e ->
       reply o
       = Some (Json 500
                 (failure_fields w (lit "Failed to get AI suggestions: " ++ e)))
       /\ engine_calls o = [])
    /\ (forall text m, ai w = Ok text -> parseAIResponse text = Throw m ->
          reply o = Some (Json 500 (failure_fields w extraction_error))
          /\ engine_calls o = [])
    /\ (forall text h m, ai w = Ok text ->
          parseAIResponse text = Ok (Some (JStr h)) ->
          fst (render (eng w) (decodeHTMLContent h)) = Throw m ->
          reply o = Some (Json 500 (failure_fields w m)))
    /\ (is_development (node_env w) = false ->
        forall m,
          failure_fields w m
          = [(lit "error", lit "Failed to process PDF resume");
             (lit "message", m)]).
Proof.
  intros w req path jr Hf Hj Hne Hu. cbv zeta.
  rewrite (optimize_validated w req path jr Hf Hj Hne).
  split; [|split; [|split]].
  - intros e Ha. rewrite Ha. simpl getGeminiSuggestionsWithPDF.
    apply catch_reply. exact Hu.
  - intros text m Ha Hp. rewrite Ha. simpl getGeminiSuggestionsWithPDF.
    unfold pipeline. rewrite Hp.
    rewrite (parse_error_is_extraction text m Hp).
    apply catch_reply. exact Hu.
  - intros text h m Ha Hp Hr. rewrite Ha. simpl getGeminiSuggestionsWithPDF.
    unfold pipeline. rewrite Hp, decode_value_string.
    destruct (render (eng w) (decodeHTMLContent h)) as [r calls].
    simpl in Hr. subst r. apply catch_reply. exact Hu.
  - intros Hd m. unfold failure_fields. rewrite Hd. reflexivity.
Qed.

Lemma pipeline_failure_reported_witness :
  reply (optimize_resume (world_of (Ok reply_nothing) engine_ok) request_ok)
  = Some (Json 500
            [(lit "error", lit "Failed to process PDF resume");
             (lit "message",
              lit "Could not extract HTML content from AI response")])
  /\ engine_calls
       (optimize_resume (world_of (Ok reply_nothing) engine_ok) request_ok)
     = [].
Proof.
  destruct (pipeline_failure_reported
              (world_of (Ok reply_nothing) engine_ok) request_ok
              (lit "uploads/resume-1.pdf") (lit "Rocq engineer")
              eq_refl eq_refl ltac:(discriminate) eq_refl)
    as (_ & H & _ & _).
  exact (H reply_nothing extraction_error eq_refl
           ltac:(vm_compute; reflexivity)).
Defined.

(** X22. A reply whose [htmlres] is truthy but not a string (a number, an
    array, an object, [true]) is returned by [parseAIResponse] and then
    breaks [decodeHTMLContent], which calls [replace] on it: the request
    is answered with status 500 and the message of that [TypeError], and
    the engine is not used. *)
Theorem non_string_field_breaks_decoding :
  forall (w : world) (req : request) (path jr text : jsstring) (j : json),
    file req = Some path ->
    jobRequirements req = Some jr -> jr <> [] ->
    unlink_answer w = Ok tt ->
    ai w = Ok text ->
    parseAIResponse text = Ok (Some j) ->
    (forall s, j <> JStr s) ->
    reply (optimize_resume w req)
    = Some (Json 500 (failure_fields w (not_a_function w (lit "replace"))))
    /\ engine_calls (optimize_resume w req) = [].
Proof.
  intros w req path jr text j Hf Hj Hne Hu Ha Hp Hn.
  rewrite (optimize_validated w req path jr Hf Hj Hne).
  rewrite Ha. simpl getGeminiSuggestionsWithPDF. unfold pipeline. rewrite Hp.
  assert (Ht : truthy (Some j) = true).
  { destruct (returned_value_cases text (Some j) Hp) as [Ht | (Hv & _)];
      [exact Ht|]. inversion Hv. exfalso. exact (Hn [] H0). }
  rewrite (decode_value_other w j Ht Hn).
  apply catch_reply. exact Hu.
Qed.

Lemma non_string_field_breaks_decoding_witness :
  parseAIResponse reply_number_field
  = Ok (Some (JNum (mkNumber false 42 0)))
  /\ reply (optimize_resume (world_of (Ok reply_number_field) engine_ok)
              request_ok)
     = Some (Json 500
               [(lit "error", lit "Failed to process PDF resume");
                (lit "message", lit "htmlContent.replace is not a function")])
  /\ engine_calls
       (optimize_resume (world_of (Ok reply_number_field) engine_ok)
          request_ok)
     = [].
Proof.
  assert (Hp : parseAIResponse reply_number_field
               = Ok (Some (JNum (mkNumber false 42 0))))
    by (vm_compute; reflexivity).
  split; [exact Hp|].
  apply (non_string_field_breaks_decoding
           (world_of (Ok reply_number_field) engine_ok) request_ok
           (lit "uploads/resume-1.pdf") (lit "Rocq engineer")
           reply_number_field (JNum (mkNumber false 42 0)));
    try reflexivity; try exact Hp; discriminate.
Defined.

(** X23. A reply from which a string is extracted that is blank once
    decoded, the empty field included, reaches the renderer and is refused
    there: the request is answered with status 500 and the wrapped
    empty-content message, and the engine is not launched. *)
Theorem blank_extract_refused_by_renderer :
  forall (w : world) (req : request) (path jr text h : jsstring),
    file req = Some path ->
    jobRequirements req = Some jr -> jr <> [] ->
    unlink_answer w = Ok tt ->
    ai w = Ok text ->
    parseAIResponse text = Ok (Some (JStr h)) ->
    trim (decodeHTMLContent h) = [] ->
    reply (optimize_resume w req)
    = Some (Json 500 (failure_fields w (wrap_error empty_error)))
    /\ engine_calls (optimize_resume w req) = [].
Proof.
  intros w req path jr text h Hf Hj Hne Hu Ha Hp Hb.
  rewrite (optimize_validated w req path jr Hf Hj Hne).
  rewrite Ha. simpl getGeminiSuggestionsWithPDF. unfold pipeline.
  rewrite Hp, decode_value_string, (render_blank (eng w) _ Hb).
  apply catch_reply. exact Hu.
Qed.

Lemma blank_extract_refused_by_renderer_witness :
  parseAIResponse reply_only_empty_field = Ok (Some (JStr []))
  /\ reply (optimize_resume (world_of (Ok reply_only_empty_field) engine_ok)
              request_ok)
     = Some (Json 500
               [(lit "error", lit "Failed to process PDF resume");
                (lit "message",
                 lit "Failed to convert HTML to PDF: HTML content is empty")])
  /\ engine_calls
       (optimize_resume (world_of (Ok reply_only_empty_field) engine_ok)
          request_ok)
     = [].
Proof.
  assert (Hp : parseAIResponse reply_only_empty_field = Ok (Some (JStr [])))
    by (vm_compute; reflexivity).
  split; [exact Hp|].
  apply (blank_extract_refused_by_renderer
           (world_of (Ok reply_only_empty_field) engine_ok) request_ok
           (lit "uploads/resume-1.pdf") (lit "Rocq engineer")
           reply_only_empty_field []);
    try reflexivity; try exact Hp; discriminate.
Defined.

(** X24. When the upload is on disk and [unlinkSync] throws, the main
    handler sends no response at all once validation is passed: the error
    of [unlinkSync] escapes from the [catch] block and the upload stays on
    disk.  [unlinkSync] is called twice when the pipeline had succeeded
    (once in the [try] block, once in the [catch] block) and once when
    the AI call or the pipeline had failed. *)
Theorem unlink_failure_escapes :
  forall (w : world) (req : request) (path jr e : jsstring),
    file req = Some path ->
    jobRequirements req = Some jr -> jr <> [] ->
    file_present w = true ->
    unlink_answer w = Throw e ->
    let o := optimize_resume w req in
    reply o = None /\ escaped o = Some e /\ file_left o = true
    /\ (forall text pdfBuffer,
          ai w = Ok text -> fst (pipeline w text) = Ok pdfBuffer ->
          unlinks o = 2%nat)
    /\ (forall m, ai w = Throw m -> unlinks o = 1%nat)
    /\ (forall text m,
          ai w = Ok text -> fst (pipeline w text) = Throw m ->
          unlinks o = 1%nat).
Proof.
  intros w req path jr e Hf Hj Hne Hp Hu. cbv zeta.
  rewrite (optimize_validated w req path jr Hf Hj Hne).
  assert (Hc : forall m called calls n,
             let o := optimize_catch w m called calls n in
             reply o = None /\ escaped o = Some e /\ file_left o = true
             /\ unlinks o = S n).
  { intros m called calls n. unfold optimize_catch. rewrite Hp, Hu.
    repeat split. }
  destruct (ai w) as [text|m0]; unfold getGeminiSuggestionsWithPDF;
    cbv beta iota.
  - destruct (pipeline w text) as [[buf|m] calls] eqn:Epipe.
    + rewrite Hp, Hu. destruct (Hc e true calls 1%nat) as (H1 & H2 & H3 & H4).
      refine (conj H1 (conj H2 (conj H3 (conj _ (conj _ _))))).
      * intros t b _ _. exact H4.
      * intros m H. discriminate H.
      * intros t m H Hm. inversion H; subst t.
        rewrite Epipe in Hm. discriminate Hm.
    + destruct (Hc m true calls O) as (H1 & H2 & H3 & H4).
      refine (conj H1 (conj H2 (conj H3 (conj _ (conj _ _))))).
      * intros t b H Hb. inversion H; subst t.
        rewrite Epipe in Hb. discriminate Hb.
      * intros m1 H. discriminate H.
      * intros t m1 _ _. exact H4.
  - destruct (Hc (lit "Failed to get AI suggestions: " ++ m0) true [] O)
      as (H1 & H2 & H3 & H4).
    refine (conj H1 (conj H2 (conj H3 (conj _ (conj _ _))))).
    + intros t b H. discriminate H.
    + intros m _. exact H4.
    + intros t m H. discriminate H.
Qed.

Lemma unlink_failure_escapes_witness :
  reply (optimize_resume world_unlink_fails request_ok) = None
  /\ escaped (optimize_resume world_unlink_fails request_ok)
     = Some (lit "EPERM")
  /\ unlinks (optimize_resume world_unlink_fails request_ok) = 2%nat.
Proof.
  destruct (unlink_failure_escapes world_unlink_fails request_ok
              (lit "uploads/resume-1.pdf") (lit "Rocq engineer")
              (lit "EPERM") eq_refl eq_refl ltac:(discriminate)
              eq_refl eq_refl) as (H1 & H2 & _ & H4 & _ & _).
  split; [exact H1|]. split; [exact H2|].
  apply (H4 reply_hi (lit "%PDF-1.4")); vm_compute; reflexivity.
Defined.

(** X25. The test endpoint never uses the engine when [req.body] is
    [undefined] (the destructuring of line 377 throws: status 500 with the
    message of that [TypeError]), when [html] is missing or falsy (status
    400), when it is a string of white space only (status 500, wrapped
    empty-content message) or when it is a truthy value that is not a
    string (status 500, wrapped [TypeError] of the missing [trim]). *)
Theorem test_endpoint_guards :
  forall (w : world) (body : option value),
    (body = None ->
     test_html_to_pdf w body
     = (Json 500 [(lit "error", lit "Failed to convert HTML to PDF");
                  (lit "message", cannot_destructure w (lit "html"))], []))
    /\ (forall html, body = Some html -> truthy html = false ->
        test_html_to_pdf w body
        = (Json 400 [(lit "error", lit "HTML content is required")], []))
    /\ (forall s, body = Some (Some (JStr s)) -> s <> [] -> trim s = [] ->
        test_html_to_pdf w body
        = (Json 500 [(lit "error", lit "Failed to convert HTML to PDF");
                     (lit "message", wrap_error empty_error)], []))
    /\ (forall html, body = Some html -> truthy html = true ->
        (forall s, html <> Some (JStr s)) ->
        test_html_to_pdf w body
        = (Json 500 [(lit "error", lit "Failed to convert HTML to PDF");
                     (lit "message",
                      wrap_error (not_a_function w (lit "trim")))], [])).
Proof.
  intros w body. unfold test_html_to_pdf, render_value.
  split; [|split; [|split]].
  - intros ->. reflexivity.
  - intros html -> Ht. rewrite Ht. reflexivity.
  - intros s -> Hne Hb. destruct s; [contradiction|].
    cbn [truthy]. rewrite (render_blank (eng w) _ Hb). reflexivity.
  - intros html -> Ht Hn. rewrite Ht.
    destruct html as [[]|]; try reflexivity; try discriminate.
    exfalso. exact (Hn s eq_refl).
Qed.

Lemma test_endpoint_guards_witness :
  test_html_to_pdf (world_of (Ok []) engine_ok) None
  = (Json 500 [(lit "error", lit "Failed to convert HTML to PDF");
               (lit "message",
                lit "Cannot destructure property 'html' of 'req.body' as it is undefined.")],
     [])
  /\ test_html_to_pdf (world_of (Ok []) engine_ok)
       (Some (Some (JStr (lit "  "))))
     = (Json 500 [(lit "error", lit "Failed to convert HTML to PDF");
                  (lit "message",
                   lit "Failed to convert HTML to PDF: HTML content is empty")],
        []).
Proof.
  destruct (test_endpoint_guards (world_of (Ok []) engine_ok) None)
    as (H1 & _).
  destruct (test_endpoint_guards (world_of (Ok []) engine_ok)
              (Some (Some (JStr (lit "  "))))) as (_ & _ & H3 & _).
  split.
  - exact (H1 eq_refl).
  - apply (H3 (lit "  ")); try reflexivity. discriminate.
Defined.

(** * The doubled backslash in any context *)

Section Splitting.

Lemma last_cons_cons (c c2 : code_unit) (s : jsstring) (d : code_unit) :
  last (c :: c2 :: s) d = last (c2 :: s) d.
Proof. reflexivity. Qed.

Lemma last_app_nonempty (l l' : jsstring) (d : code_unit) :
  l' <> [] -> last (l ++ l') d = last l' d.
Proof.
  intros H. induction l as [|c l IH]; [reflexivity|].
  simpl app. destruct (l ++ l') as [|c2 t] eqn:E.
  - apply app_eq_nil in E. destruct E as [_ E]. contradiction.
  - rewrite last_cons_cons. exact IH.
Qed.

Lemma startsWith_split (p : jsstring) :
  forall s, startsWith s p = true -> s = p ++ skipn (length p) s.
Proof.
  induction p as [|x p IH]; intros s H; [reflexivity|].
  destruct s as [|c s]; [discriminate|]. simpl in H.
  apply andb_prop in H. destruct H as [Hc Hs].
  apply N.eqb_eq in Hc. subst c. simpl. f_equal. apply IH. exact Hs.
Qed.

(** The global replacement of a literal goes through a concatenation that
    no occurrence straddles. *)
Lemma replace_from_app (p r Z : jsstring) :
  p <> [] ->
  forall X, no_straddle p X Z ->
    forall skip, (skip <= length X)%nat ->
      replace_from (Lit p) r skip (X ++ Z)
      = replace_from (Lit p) r skip X ++ replace_from (Lit p) r O Z.
Proof.
  intros Hp. induction X as [|c X IH]; intros Hns skip Hs.
  - assert (skip = O) by (simpl in Hs; lia). subst skip.
    rewrite (replace_from_nil (Lit p)), match_here_Lit.
    destruct p; [contradiction | reflexivity].
  - assert (Hns' : no_straddle p X Z).
    { intros X1 X2 E Hne. apply (Hns (c :: X1) X2); [|exact Hne].
      rewrite E. reflexivity. }
    destruct skip as [|n].
    + change ((c :: X) ++ Z) with (c :: (X ++ Z)).
      rewrite !replace_from_cons, !match_here_Lit.
      change (c :: (X ++ Z)) with ((c :: X) ++ Z).
      rewrite (Hns [] (c :: X) eq_refl) by discriminate.
      destruct (startsWith (c :: X) p) eqn:E.
      * pose proof (startsWith_length _ _ E) as Hl.
        rewrite !length_skipn, length_app.
        destruct p as [|x p']; [contradiction|].
        assert (Hn : (length p' <= length X)%nat)
          by (cbn [length] in Hl; lia).
        replace (length (c :: X) + length Z
                 - (length (c :: X) + length Z - length (x :: p')))%nat
          with (S (length p')) by (cbn [length] in *; lia).
        replace (length (c :: X) - (length (c :: X) - length (x :: p')))%nat
          with (S (length p')) by (cbn [length] in *; lia).
        rewrite (IH Hns' (length p') Hn). apply app_assoc.
      * rewrite (IH Hns' O) by lia. reflexivity.
    + simpl. apply (IH Hns'). simpl in Hs. lia.
Qed.

Lemma replace_all_app (p r X Z : jsstring) :
  p <> [] -> no_straddle p X Z ->
  replace_all (Lit p) r (X ++ Z)
  = replace_all (Lit p) r X ++ replace_all (Lit p) r Z.
Proof.
  intros Hp Hns. unfold replace_all.
  apply (replace_from_app p r Z Hp X Hns). lia.
Qed.

(** Three sufficient conditions. *)
Lemma startsWith_before_stranger (z : code_unit) (Z : jsstring) :
  forall p X2, avoids z p = true ->
    startsWith (X2 ++ z :: Z) p = startsWith X2 p.
Proof.
  induction p as [|x p IH]; intros X2 H; [reflexivity|].
  simpl in H. apply andb_prop in H. destruct H as [Hx Hp].
  apply negb_true_iff in Hx.
  destruct X2 as [|c X2].
  - simpl. rewrite N.eqb_sym, Hx. reflexivity.
  - simpl. rewrite (IH X2 Hp). reflexivity.
Qed.

Lemma no_straddle_first (p X Z : jsstring) (z : code_unit) :
  avoids z p = true -> no_straddle p X (z :: Z).
Proof.
  intros H X1 X2 _ _. apply startsWith_before_stranger. exact H.
Qed.

Lemma startsWith_after_stranger (Z : jsstring) :
  forall X2 p, X2 <> [] -> avoids (last X2 0) p = true ->
    startsWith (X2 ++ Z) p = startsWith X2 p.
Proof.
  induction X2 as [|c X2 IH]; intros p Hne H; [contradiction|].
  destruct p as [|x p]; [reflexivity|].
  destruct X2 as [|c2 X2].
  - simpl in H. apply andb_prop in H. destruct H as [Hx _].
    apply negb_true_iff in Hx.
    simpl. rewrite N.eqb_sym, Hx. reflexivity.
  - rewrite last_cons_cons in H. cbn [avoids forallb] in H.
    apply andb_prop in H. destruct H as [_ Hp].
    change ((c :: c2 :: X2) ++ Z) with (c :: ((c2 :: X2) ++ Z)).
    cbn [startsWith]. rewrite (IH p) by (discriminate || exact Hp).
    reflexivity.
Qed.

Lemma no_straddle_last (p X Z : jsstring) :
  avoids (last X 0) p = true -> no_straddle p X Z.
Proof.
  intros H X1 X2 E Hne. apply startsWith_after_stranger; [exact Hne|].
  rewrite E, (last_app_nonempty X1 X2 0 Hne) in H. exact H.
Qed.

Lemma no_straddle_pair (p0 x : code_unit) (X Z : jsstring) :
  (last X 0 =? p0) = false -> no_straddle [p0; x] X Z.
Proof.
  intros H X1 X2 E Hne.
  rewrite E, (last_app_nonempty X1 X2 0 Hne) in H.
  destruct X2 as [|c [|c2 X2]]; [contradiction | |].
  - simpl in H. simpl. rewrite H. reflexivity.
  - simpl. reflexivity.
Qed.

(** A replacement cannot bring a backslash to the end of a text when its
    replacement does not end with one, or when its pattern does. *)
Lemma replace_nonempty (p r : jsstring) (c : code_unit) (s : jsstring) :
  r <> [] -> replace_all (Lit p) r (c :: s) <> [].
Proof.
  intros Hr. unfold replace_all. rewrite replace_from_cons.
  destruct (match_here (Lit p) (c :: s)) as [[rest g]|]; [|discriminate].
  destruct (length (c :: s) - length rest)%nat;
    destruct r; try contradiction; discriminate.
Qed.

Lemma replace_keeps_end (p r : jsstring) :
  p <> [] -> r <> [] ->
  (last r 0 =? backslash) = false \/ (last p 0 =? backslash) = true ->
  forall n s, (length s <= n)%nat ->
    no_final_backslash s = true ->
    no_final_backslash (replace_all (Lit p) r s) = true.
Proof.
  intros Hp Hr Hend. unfold no_final_backslash.
  induction n as [|n IH]; intros s Hn Hs.
  - destruct s; [|simpl in Hn; lia].
    unfold replace_all. rewrite replace_from_nil, match_here_Lit.
    destruct p; [contradiction | reflexivity].
  - destruct s as [|c s].
    { unfold replace_all. rewrite replace_from_nil, match_here_Lit.
      destruct p; [contradiction | reflexivity]. }
    destruct (startsWith (c :: s) p) eqn:E.
    + pose proof (startsWith_split p _ E) as Hsplit.
      pose proof (startsWith_length _ _ E) as Hl.
      set (rest := skipn (length p) (c :: s)) in *.
      assert (Hm : match_here (Lit p) (p ++ rest) = Some (rest, None)).
      { rewrite match_here_Lit, startsWith_app, skipn_app_exact. reflexivity. }
      destruct p as [|x p']; [contradiction|].
      rewrite Hsplit in Hs |- *. unfold replace_all.
      rewrite (replace_from_match _ _ _ _ _ _ Hm).
      fold (replace_all (Lit (x :: p')) r rest).
      destruct rest as [|c2 rest'] eqn:Er.
      * unfold replace_all. rewrite replace_from_nil, match_here_Lit.
        cbn [startsWith]. rewrite !app_nil_r in *.
        destruct Hend as [He | He]; [rewrite He; reflexivity|].
        rewrite He in Hs. discriminate Hs.
      * rewrite last_app_nonempty
          by (apply replace_nonempty; exact Hr).
        rewrite last_app_nonempty in Hs by discriminate.
        apply IH; [|exact Hs].
        apply (f_equal (@length _)) in Hsplit.
        rewrite length_app in Hsplit. cbn [length] in *. lia.
    + unfold replace_all. rewrite replace_from_cons, match_here_Lit, E.
      fold (replace_all (Lit p) r s).
      destruct s as [|c2 s'].
      * unfold replace_all. rewrite replace_from_nil, match_here_Lit.
        destruct p; [contradiction|]. exact Hs.
      * pose proof (replace_nonempty p r c2 s' Hr) as Hne.
        destruct (replace_all (Lit p) r (c2 :: s')) as [|y t] eqn:Er;
          [contradiction|].
        rewrite last_cons_cons. rewrite <- Er.
        apply IH; [cbn [length] in *; lia|].
        rewrite last_cons_cons in Hs. exact Hs.
Qed.

Lemma step_splits_intro (p r : jsstring) :
  p <> [] -> r <> [] ->
  avoids newline p = true ->
  (exists x, p = [backslash; x]) \/ avoids backslash p = true ->
  replace_all (Lit p) r [backslash; newline] = [backslash; newline] ->
  (last r 0 =? backslash) = false \/ (last p 0 =? backslash) = true ->
  step_splits (p, r).
Proof.
  intros Hp Hr Hnl Hfirst Hmid Hend. split.
  - intros a b Ha. unfold apply_step. cbn [fst snd].
    rewrite (replace_all_app p r a _ Hp).
    + rewrite (replace_all_app p r [backslash; newline] b Hp).
      * rewrite Hmid. reflexivity.
      * apply no_straddle_last. exact Hnl.
    + change ([backslash; newline] ++ b) with (backslash :: newline :: b).
      destruct Hfirst as [(x & ->) | Hb].
      * apply no_straddle_pair. unfold no_final_backslash in Ha.
        apply negb_true_iff in Ha. exact Ha.
      * apply no_straddle_first. exact Hb.
  - intros a Ha. unfold apply_step. cbn [fst snd].
    apply (replace_keeps_end p r Hp Hr Hend (length a) a (le_n _) Ha).
Qed.

Lemma later_steps_split : Forall step_splits (tl decode_steps).
Proof.
  unfold decode_steps. cbn [tl].
  repeat constructor;
    (apply step_splits_intro;
     [ discriminate | discriminate | reflexivity
     | first [ left; eexists; reflexivity | right; reflexivity ]
     | vm_compute; reflexivity
     | first [ left; reflexivity | right; reflexivity ] ]).
Qed.

Lemma fold_splits :
  forall steps, Forall step_splits steps ->
    forall a b, no_final_backslash a = true ->
      fold_left apply_step steps (a ++ [backslash; newline] ++ b)
      = fold_left apply_step steps a ++ [backslash; newline]
        ++ fold_left apply_step steps b.
Proof.
  induction steps as [|st steps IH]; intros H a b Ha; [reflexivity|].
  inversion H as [|? ? [Hsplit Hkeep] Hrest]; subst. cbn [fold_left].
  rewrite (Hsplit a b Ha). apply (IH Hrest). apply Hkeep. exact Ha.
Qed.

(** The first step on the doubled backslash: the scan passes the first
    backslash and replaces the second with the [n]. *)
Lemma first_step_splits (a b : jsstring) :
  no_final_backslash a = true ->
  replace_all (Lit [backslash; 110]) [newline]
    (a ++ [backslash; backslash; 110] ++ b)
  = replace_all (Lit [backslash; 110]) [newline] a
    ++ [backslash; newline]
    ++ replace_all (Lit [backslash; 110]) [newline] b.
Proof.
  intros Ha. unfold no_final_backslash in Ha. apply negb_true_iff in Ha.
  rewrite (replace_all_app [backslash; 110] [newline] a _)
    by (discriminate || (apply no_straddle_pair; exact Ha)).
  rewrite (replace_all_app [backslash; 110] [newline]
             [backslash; backslash; 110] b)
    by (discriminate || (apply no_straddle_pair; reflexivity)).
  reflexivity.
Qed.

End Splitting.

(** C5 (as amended). A doubled backslash followed by [n] is decoded to one
    backslash followed by a line feed, whatever follows it and whatever
    precedes it, provided the text before it does not end with a
    backslash: the first replacement takes the second backslash together
    with the [n], the replacement of doubled backslashes then finds a
    single one, and the texts on either side are decoded on their own. *)
Theorem doubled_backslash_n_decoded :
  forall a b : jsstring,
    no_final_backslash a = true ->
    decodeHTMLContent (a ++ [backslash; backslash; 110] ++ b)
    = decodeHTMLContent a ++ [backslash; newline] ++ decodeHTMLContent b.
Proof.
  intros a b Ha. rewrite !decode_fold.
  change (fold_left apply_step decode_steps)
    with (fun s => fold_left apply_step (tl decode_steps)
                     (replace_all (Lit [backslash; 110]) [newline] s)).
  cbv beta. rewrite (first_step_splits a b Ha).
  apply (fold_splits _ later_steps_split).
  apply (replace_keeps_end [backslash; 110] [newline]
           ltac:(discriminate) ltac:(discriminate)
           (or_introl eq_refl) (length a) a (le_n _) Ha).
Qed.

Lemma doubled_backslash_n_decoded_witness :
  no_final_backslash (lit "a &lt; b") = true
  /\ decodeHTMLContent
       (lit "a &lt; b" ++ [backslash; backslash; 110]
        ++ [backslash; 116] ++ lit "&amp;")
     = lit "a < b" ++ [backslash; newline] ++ [tab] ++ lit "&".
Proof.
  split; [reflexivity|].
  rewrite (doubled_backslash_n_decoded (lit "a &lt; b")
             ([backslash; 116] ++ lit "&amp;") eq_refl).
  vm_compute. reflexivity.
Defined.
